(** * AquaGen: the normalisation transforms and the GAN training loop

    Shallow embedding of
      - [deepechoes/utils/image_transforms.py]
        ([scale_to_range], [normalize_to_zero_mean_unit_variance],
        [unscale_data]) and
      - [gans_archs/base.py] ([BaseGAN.train_loop],
        [BaseGAN.generate_and_plot_images]).

    Conventions of the embedding.
      - A NumPy float array is a list of rows of extended numbers
        ([Fin x], [PInf], [NInf], [NaN]); finite values are exact (no
        rounding, no overflow).  The scalar field is a parameter
        ([Scalar]): the rationals where the code only uses field
        operations, the reals where it takes a square root.  Statements
        over this arithmetic say so.
      - The three transforms are embedded a second time with NumPy's
        own arithmetic ([Float64]: IEEE 754 binary64); what exact
        arithmetic idealises away is checked there.
      - Python objects that are mutated in place live in a store
        ([gmap loc _]); a function that receives an array receives its
        location.
      - Python code that can raise runs in a state-and-exception monad:
        the store (or the trainer state) survives a raise, as the
        mutations made before it do in Python. *)

From Stdlib Require Import ZArith QArith Reals Lra Lqa Lia List String.
From Stdlib Require Import SpecFloat.
From stdpp Require Import base gmap list.

Set Default Proof Using "Type".

(** ** Exceptions and the state-and-exception monad *)

Inductive exn : Type :=
| ValueError            (* reduction of a zero-size array *)
| TypeError             (* [None / 'name'], unsupported operand *)
| AttributeError        (* attribute never assigned *)
| IndexError            (* subscript out of bounds *)
| ZeroDivisionError     (* integer modulo by zero *)
| StopIteration         (* exhausted iterator *)
| Unbound               (* a location that names no object *)
| Raised (name : string) (* any exception raised by a collaborator *).

Inductive result (A : Type) : Type :=
| Ok (a : A)
| Raise (e : exn).
Arguments Ok {A} a.
Arguments Raise {A} e.

Definition SE (S A : Type) : Type := S -> result A * S.

Definition ret {S A} (a : A) : SE S A := fun s => (Ok a, s).

Definition raise {S A} (e : exn) : SE S A := fun s => (Raise e, s).

Definition bind {S A B} (m : SE S A) (k : A -> SE S B) : SE S B :=
  fun s => match m s with
           | (Ok a, s') => k a s'
           | (Raise e, s') => (Raise e, s')
           end.

Definition get {S} : SE S S := fun s => (Ok s, s).

Definition modify {S} (f : S -> S) : SE S unit := fun s => (Ok tt, f s).

Notation "x <- c1 ;; c2" := (bind c1 (fun x => c2))
  (at level 100, c1 at next level, right associativity).
Notation "c1 ;; c2" := (bind c1 (fun _ => c2))
  (at level 100, right associativity).

(** [for i in range(start, start + count): body(i)]; the first raise
    leaves the loop. *)
Fixpoint for_range {S} (start count : nat) (body : nat -> SE S unit)
  : SE S unit :=
  match count with
  | O => ret tt
  | Datatypes.S c => body start ;; for_range (Datatypes.S start) c body
  end.

(** ** Scalars and extended numbers *)

Class Scalar (K : Type) : Type := {
  s_of_Z : Z -> K;
  s_add : K -> K -> K;
  s_sub : K -> K -> K;
  s_mul : K -> K -> K;
  s_div : K -> K -> K;
  s_opp : K -> K;
  s_eqb : K -> K -> bool;
  s_ltb : K -> K -> bool
}.

Class Sqrt (K : Type) : Type := s_sqrt : K -> K.

#[global] Instance Q_scalar : Scalar Q := {|
  s_of_Z := inject_Z;
  s_add := Qplus;
  s_sub := Qminus;
  s_mul := Qmult;
  s_div := Qdiv;
  s_opp := Qopp;
  s_eqb := Qeq_bool;
  s_ltb := fun a b => negb (Qle_bool b a)
|}.

#[global] Instance R_scalar : Scalar R := {|
  s_of_Z := IZR;
  s_add := Rplus;
  s_sub := Rminus;
  s_mul := Rmult;
  s_div := Rdiv;
  s_opp := Ropp;
  s_eqb := fun a b => if Req_dec_T a b then true else false;
  s_ltb := fun a b => if Rlt_dec a b then true else false
|}.

#[global] Instance R_sqrt : Sqrt R := sqrt.

(** An element of a float array. *)
Inductive fl (K : Type) : Type :=
| Fin (x : K)
| PInf
| NInf
| NaN.
Arguments Fin {K} x.
Arguments PInf {K}.
Arguments NInf {K}.
Arguments NaN {K}.

(** Arrays are two-dimensional, row major. *)
Abbreviation array K := (list (list (fl K))).

Section FloatOps.
Context {K : Type} `{Scalar K}.

Definition s_zero : K := s_of_Z 0.

Definition fneg (a : fl K) : fl K :=
  match a with
  | Fin x => Fin (s_opp x)
  | PInf => NInf
  | NInf => PInf
  | NaN => NaN
  end.

Definition fadd (a b : fl K) : fl K :=
  match a, b with
  | NaN, _ | _, NaN => NaN
  | Fin x, Fin y => Fin (s_add x y)
  | PInf, NInf | NInf, PInf => NaN
  | PInf, _ | _, PInf => PInf
  | NInf, _ | _, NInf => NInf
  end.

Definition fsub (a b : fl K) : fl K :=
  match a, b with
  | NaN, _ | _, NaN => NaN
  | Fin x, Fin y => Fin (s_sub x y)
  | PInf, PInf | NInf, NInf => NaN
  | PInf, _ | _, NInf => PInf
  | NInf, _ | _, PInf => NInf
  end.

(** The infinity of the sign of [x]; [nan] for [x = 0]. *)
Definition inf_of_sign (x : K) : fl K :=
  if s_ltb s_zero x then PInf
  else if s_ltb x s_zero then NInf
  else NaN.

Definition fmul (a b : fl K) : fl K :=
  match a, b with
  | NaN, _ | _, NaN => NaN
  | Fin x, Fin y => Fin (s_mul x y)
  | PInf, Fin y | Fin y, PInf => inf_of_sign y
  | NInf, Fin y | Fin y, NInf => fneg (inf_of_sign y)
  | PInf, PInf | NInf, NInf => PInf
  | PInf, NInf | NInf, PInf => NInf
  end.

Definition fdiv (a b : fl K) : fl K :=
  match a, b with
  | NaN, _ | _, NaN => NaN
  | Fin x, Fin y =>
      if s_eqb y s_zero then inf_of_sign x else Fin (s_div x y)
  | Fin _, (PInf | NInf) => Fin s_zero
  | PInf, Fin y => if s_ltb y s_zero then NInf else PInf
  | NInf, Fin y => if s_ltb y s_zero then PInf else NInf
  | (PInf | NInf), (PInf | NInf) => NaN
  end.

(** [np.maximum] and [np.minimum]: a [nan] operand wins. *)
Definition fmax (a b : fl K) : fl K :=
  match a, b with
  | NaN, _ | _, NaN => NaN
  | PInf, _ | _, PInf => PInf
  | NInf, y => y
  | x, NInf => x
  | Fin x, Fin y => if s_ltb x y then Fin y else Fin x
  end.

Definition fmin (a b : fl K) : fl K :=
  match a, b with
  | NaN, _ | _, NaN => NaN
  | NInf, _ | _, NInf => NInf
  | PInf, y => y
  | x, PInf => x
  | Fin x, Fin y => if s_ltb y x then Fin y else Fin x
  end.

Definition fsqrt `{Sqrt K} (a : fl K) : fl K :=
  match a with
  | Fin x => if s_ltb x s_zero then NaN else Fin (s_sqrt x)
  | PInf => PInf
  | NInf | NaN => NaN
  end.

(** *** Array operations *)

(** Elementwise operation with a scalar (broadcast). *)
Definition amap (f : fl K -> fl K) (a : array K) : array K :=
  map (map f) a.

(** Elementwise operation with one scalar per row
    (the [keepdims=True] column broadcast against the rows). *)
Definition amap_rows (f : fl K -> fl K -> fl K)
    (a : array K) (col : list (fl K)) : array K :=
  zip_with (fun row c => map (fun x => f x c) row) a col.

(** [a.max()], [a.min()]: reductions over all elements; a zero-size
    array has no maximum. *)
Definition amax (a : array K) : result (fl K) :=
  match concat a with
  | [] => Raise ValueError
  | x :: xs => Ok (fold_left fmax xs x)
  end.

Definition amin (a : array K) : result (fl K) :=
  match concat a with
  | [] => Raise ValueError
  | x :: xs => Ok (fold_left fmin xs x)
  end.

Definition fsum (row : list (fl K)) : fl K :=
  fold_left fadd row (Fin s_zero).

(** [np.mean(row)]: the sum over the count; [0/0 = nan] on an empty
    row. *)
Definition fmean (row : list (fl K)) : fl K :=
  fdiv (fsum row) (Fin (s_of_Z (Z.of_nat (length row)))).

(** [np.std(row)], population form: [sqrt(mean((x - mean)**2))]. *)
Definition fstd `{Sqrt K} (row : list (fl K)) : fl K :=
  let m := fmean row in
  fsqrt (fmean (map (fun x => fmul (fsub x m) (fsub x m)) row)).

End FloatOps.


(** ** The object store *)

Definition loc : Type := positive.

Abbreviation store K := (gmap loc (array K)).

(** A Python value handed to a transform: an immutable float or a
    reference to an array. *)
Inductive value (K : Type) : Type :=
| VFloat (x : fl K)
| VArray (l : loc).
Arguments VFloat {K} x.
Arguments VArray {K} l.

Section Store.
Context {A : Type}.

Definition lift {S B} (r : result B) : SE S B := fun s => (r, s).

Definition load (l : loc) : SE (gmap loc A) A :=
  fun h => match h !! l with
           | Some a => (Ok a, h)
           | None => (Raise Unbound, h)
           end.

(** In-place update of the array at [l] ([a += ...], [a /= ...]). *)
Definition assign (l : loc) (a : A) : SE (gmap loc A) unit :=
  fun h => match h !! l with
           | Some _ => (Ok tt, <[l:=a]> h)
           | None => (Raise Unbound, h)
           end.

(** A new array object, at a location not yet in use. *)
Definition new_array (a : A) : SE (gmap loc A) loc :=
  fun h => let l := fresh (dom h) in (Ok l, <[l:=a]> h).

End Store.

(** ** [image_transforms.py] *)

Section Transforms.
Context {K : Type} `{Scalar K}.

(** [def scale_to_range(matrix, new_min=-1, new_max=1)] *)
Definition scale_to_range (matrix : loc) (new_min new_max : K)
  : SE (store K) loc :=
  m <- load matrix ;;
  original_max <- lift (amax m) ;;
  original_min <- lift (amin m) ;;
  let normalized :=
    amap (fun x => fdiv x (fsub original_max original_min))
         (amap (fun x => fsub x original_min) m) in
  let scaled :=
    amap (fun x => fadd x (Fin new_min))
         (amap (fun x => fmul x (Fin (s_sub new_max new_min))) normalized) in
  new_array scaled.

(** [def normalize_to_zero_mean_unit_variance(data, clip_std=False)] *)
Definition normalize_to_zero_mean_unit_variance `{Sqrt K}
    (data : loc) (clip_std : bool) : SE (store K) loc :=
  d <- load data ;;
  let mean := map fmean d in
  let std := map fstd d in
  normalized_data <- new_array (amap_rows fdiv (amap_rows fsub d mean) std) ;;
  (if clip_std
   then a <- load normalized_data ;;
        assign normalized_data (amap (fun x => fdiv x (Fin (s_of_Z 3))) a)
   else ret tt) ;;
  ret normalized_data.

(** [def unscale_data(data, min_val=0, max_val=1)].  On an array
    [data += 1] and [data /= 2] write into the caller's object; on a
    float they rebind the local name. *)
Definition unscale_data (data : value K) (min_val max_val : K)
  : SE (store K) (value K) :=
  match data with
  | VArray l =>
      a <- load l ;;
      assign l (amap (fun x => fadd x (Fin (s_of_Z 1))) a) ;;
      a <- load l ;;
      assign l (amap (fun x => fdiv x (Fin (s_of_Z 2))) a) ;;
      a <- load l ;;
      r <- new_array
             (amap (fun x => fadd x (Fin min_val))
                (amap (fun x => fmul x (Fin (s_sub max_val min_val))) a)) ;;
      ret (VArray r)
  | VFloat x =>
      let data := fadd x (Fin (s_of_Z 1)) in
      let data := fdiv data (Fin (s_of_Z 2)) in
      ret (VFloat (fadd (fmul data (Fin (s_sub max_val min_val)))
                        (Fin min_val)))
  end.

(** The array [unscale_data] returns for an array with contents [a]:
    [((a + 1) / 2) * (max_val - min_val) + min_val]. *)
Definition unscaled (a : array K) (min_val max_val : K) : array K :=
  amap (fun x => fadd x (Fin min_val))
    (amap (fun x => fmul x (Fin (s_sub max_val min_val)))
       (amap (fun x => fdiv x (Fin (s_of_Z 2)))
          (amap (fun x => fadd x (Fin (s_of_Z 1))) a))).

End Transforms.

(** ** [image_transforms.py] at [float64]

    NumPy evaluates the three transforms in IEEE 754 binary64, rounding
    to nearest, ties to even.  Below are the same three functions with
    that arithmetic ([SpecFloat] at precision 53 and maximal exponent
    1024): an array element is a [spec_float], and every operation
    rounds, overflows to an infinity and produces [nan] as the hardware
    does.  Where rounding or overflow decides a property, this is the
    embedding it is checked against. *)

Abbreviation array64 := (list (list spec_float)).

Module Float64.

Definition prec : Z := 53.
Definition emax : Z := 1024.

Definition add : spec_float -> spec_float -> spec_float := SFadd prec emax.
Definition sub : spec_float -> spec_float -> spec_float := SFsub prec emax.
Definition mul : spec_float -> spec_float -> spec_float := SFmul prec emax.
Definition div : spec_float -> spec_float -> spec_float := SFdiv prec emax.
Definition sqrt : spec_float -> spec_float := SFsqrt prec emax.
Definition ltb : spec_float -> spec_float -> bool := SFltb.

(** The float nearest to the integer [z] ([float(z)]). *)
Definition of_Z (z : Z) : spec_float := binary_normalize prec emax z 0 false.

(** The float of the decimal literal [m]e-[k]; for [|m| <= 2^53] and
    [k <= 22] both [m] and [10^k] are floats, the one division rounds
    once, and the result is the float nearest to the decimal. *)
Definition decimal (m : Z) (k : nat) : spec_float :=
  div (of_Z m) (of_Z (10 ^ Z.of_nat k)).

Definition is_nan (a : spec_float) : bool :=
  match a with
  | S754_nan => true
  | _ => false
  end.

(** [np.maximum] and [np.minimum]: a [nan] operand wins. *)
Definition maximum (a b : spec_float) : spec_float :=
  if is_nan a then a else if is_nan b then b
  else if ltb a b then b else a.

Definition minimum (a b : spec_float) : spec_float :=
  if is_nan a then a else if is_nan b then b
  else if ltb b a then b else a.

(** [a.max()], [a.min()] *)
Definition amax (a : array64) : result spec_float :=
  match concat a with
  | [] => Raise ValueError
  | x :: xs => Ok (fold_left maximum xs x)
  end.

Definition amin (a : array64) : result spec_float :=
  match concat a with
  | [] => Raise ValueError
  | x :: xs => Ok (fold_left minimum xs x)
  end.

(** The sum of a row, added up from the left, which is the order in
    which NumPy adds a row of fewer than 8 elements. *)
Definition sum (row : list spec_float) : spec_float :=
  fold_left add row (S754_zero false).

(** [np.mean(row)] *)
Definition mean (row : list spec_float) : spec_float :=
  div (sum row) (of_Z (Z.of_nat (length row))).

(** [np.std(row)]: [sqrt(mean((x - mean)**2))] *)
Definition std (row : list spec_float) : spec_float :=
  let m := mean row in
  sqrt (mean (map (fun x => mul (sub x m) (sub x m)) row)).

Inductive value : Type :=
| VFloat (x : spec_float)
| VArray (l : loc).

(** [def scale_to_range(matrix, new_min=-1, new_max=1)] *)
Definition scale_to_range (matrix : loc) (new_min new_max : spec_float)
  : SE (gmap loc array64) loc :=
  m <- load matrix ;;
  original_max <- lift (amax m) ;;
  original_min <- lift (amin m) ;;
  let normalized :=
    map (map (fun x => div x (sub original_max original_min)))
        (map (map (fun x => sub x original_min)) m) in
  let scaled :=
    map (map (fun x => add x new_min))
        (map (map (fun x => mul x (sub new_max new_min))) normalized) in
  new_array scaled.

(** [def normalize_to_zero_mean_unit_variance(data, clip_std=False)] *)
Definition normalize_to_zero_mean_unit_variance (data : loc) (clip_std : bool)
  : SE (gmap loc array64) loc :=
  d <- load data ;;
  let mean := map mean d in
  let std := map std d in
  normalized_data <-
    new_array
      (zip_with (fun row c => map (fun x => div x c) row)
         (zip_with (fun row c => map (fun x => sub x c) row) d mean) std) ;;
  (if clip_std
   then a <- load normalized_data ;;
        assign normalized_data (map (map (fun x => div x (of_Z 3))) a)
   else ret tt) ;;
  ret normalized_data.

(** [def unscale_data(data, min_val=0, max_val=1)] *)
Definition unscale_data (data : value) (min_val max_val : spec_float)
  : SE (gmap loc array64) value :=
  match data with
  | VArray l =>
      a <- load l ;;
      assign l (map (map (fun x => add x (of_Z 1))) a) ;;
      a <- load l ;;
      assign l (map (map (fun x => div x (of_Z 2))) a) ;;
      a <- load l ;;
      r <- new_array
             (map (map (fun x => add x min_val))
                (map (map (fun x => mul x (sub max_val min_val))) a)) ;;
      ret (VArray r)
  | VFloat x =>
      let data := add x (of_Z 1) in
      let data := div data (of_Z 2) in
      ret (VFloat (add (mul data (sub max_val min_val)) min_val))
  end.

End Float64.

(** ** [tf.keras.metrics.Mean]

    The running mean the trainer keeps per metric: [update_state] adds
    an observation, [result] is [total / count] (0 when nothing was
    observed: Keras divides with [divide_no_nan]), [reset_states]
    empties it. *)

Record Mean : Type := { total : Q; count : nat }.

Definition empty_mean : Mean := {| total := 0; count := 0 |}.

Definition reset_states (_ : Mean) : Mean := empty_mean.

Definition update_state (v : Q) (m : Mean) : Mean :=
  {| total := (total m + v)%Q; count := S (count m) |}.

Definition mean_result (m : Mean) : Q :=
  match count m with
  | O => 0%Q
  | S _ => (total m / inject_Z (Z.of_nat (count m)))%Q
  end.

(** ** [gans_archs/base.py] *)

(** The collaborators of [BaseGAN]: the concrete subclass, the batch
    source, TensorFlow and the checkpoint manager.  Their state types
    and their behaviour are the interface the trainer is written
    against. *)
Class Env : Type := {
  Batch : Type;   (* train_X of one batch *)
  Source : Type;  (* the state of the batch_generator iterator *)
  Params : Type;  (* generator, discriminator, both optimizers *)
  Ckpts : Type;   (* what tf.train.CheckpointManager holds *)
  Rng : Type;     (* TensorFlow's random generator *)
  Noise : Type;   (* a noise tensor *)

  (** [batch_generator.n_batches] and [next(batch_generator)]. *)
  n_batches : Source -> Z;
  next_batch : Source -> result Batch * Source;

  (** Modelled from the spec: the [train_step] override of the concrete
      GAN subclass ([BaseGAN.train_step] itself only raises
      NotImplementedError).  It updates the trainable state and yields
      the generator loss, the discriminator loss and the discriminator
      accuracy of the batch, which the three metrics then observe. *)
  train_step_hook : Batch -> Z -> Params -> result (Q * Q * Q) * Params;

  (** [self.generator(input, training=...)]: the images
      [predictions[i, :, :, 0]], in order. *)
  generator :
    bool -> option Noise -> Params -> result (list (array Q)) * Params;

  (** [tf.random.normal(shape)]. *)
  random_normal : list Z -> Rng -> Noise * Rng;

  (** [self.ckpt_manager.save(checkpoint_number=n)]. *)
  ckpt_save : Z -> Params -> Ckpts -> result unit * Ckpts
}.

Section BaseGAN.
Context `{Env}.

(** Calls that leave the trainer, in the order they are made. *)
Inductive call : Type :=
| CNext
| CTrainStep (train_X : Batch) (noise_dim : Z)
| CUpdateState (gen disc acc : Q)
| CRandomNormal (shape : list Z)
| CGenerator (training : bool) (input : option Noise)
| CSavefig (dir : string) (epoch : Z)
           (grid : list (nat * nat * array Q))
| CCheckpoint (checkpoint_number : Z)
| CPlotMetrics (dir : string) (gen disc acc : list Q).

(** The [BaseGAN] object, the objects [train_loop] is handed, the
    local variables of [train_loop] (they are part of the state so
    that they can be inspected where a raise leaves the function),
    and the log of outgoing calls. *)
Record trainer : Type := {
  params : Params;
  generated_image_dir : option string;
  ckpt_manager : option Ckpts;   (* None: the attribute was never set *)
  log_dir : option string;
  gen_loss : Mean;
  disc_loss : Mean;
  disc_accuracy : Mean;          (* BinaryAccuracy, fed one value a batch *)
  batch_generator : Source;
  rng : Rng;
  generator_losses : list Q;
  discriminator_losses : list Q;
  discriminator_accuracies : list Q;
  noise : option Noise;
  calls : list call
}.

Definition with_params (p : Params) (t : trainer) : trainer :=
  {| params := p; generated_image_dir := generated_image_dir t;
     ckpt_manager := ckpt_manager t; log_dir := log_dir t;
     gen_loss := gen_loss t; disc_loss := disc_loss t;
     disc_accuracy := disc_accuracy t;
     batch_generator := batch_generator t; rng := rng t;
     generator_losses := generator_losses t;
     discriminator_losses := discriminator_losses t;
     discriminator_accuracies := discriminator_accuracies t;
     noise := noise t; calls := calls t |}.

Definition with_ckpt_manager (c : option Ckpts) (t : trainer) : trainer :=
  {| params := params t; generated_image_dir := generated_image_dir t;
     ckpt_manager := c; log_dir := log_dir t;
     gen_loss := gen_loss t; disc_loss := disc_loss t;
     disc_accuracy := disc_accuracy t;
     batch_generator := batch_generator t; rng := rng t;
     generator_losses := generator_losses t;
     discriminator_losses := discriminator_losses t;
     discriminator_accuracies := discriminator_accuracies t;
     noise := noise t; calls := calls t |}.

Definition with_metrics (g d a : Mean) (t : trainer) : trainer :=
  {| params := params t; generated_image_dir := generated_image_dir t;
     ckpt_manager := ckpt_manager t; log_dir := log_dir t;
     gen_loss := g; disc_loss := d; disc_accuracy := a;
     batch_generator := batch_generator t; rng := rng t;
     generator_losses := generator_losses t;
     discriminator_losses := discriminator_losses t;
     discriminator_accuracies := discriminator_accuracies t;
     noise := noise t; calls := calls t |}.

Definition with_batch_generator (s : Source) (t : trainer) : trainer :=
  {| params := params t; generated_image_dir := generated_image_dir t;
     ckpt_manager := ckpt_manager t; log_dir := log_dir t;
     gen_loss := gen_loss t; disc_loss := disc_loss t;
     disc_accuracy := disc_accuracy t;
     batch_generator := s; rng := rng t;
     generator_losses := generator_losses t;
     discriminator_losses := discriminator_losses t;
     discriminator_accuracies := discriminator_accuracies t;
     noise := noise t; calls := calls t |}.

Definition with_rng (r : Rng) (t : trainer) : trainer :=
  {| params := params t; generated_image_dir := generated_image_dir t;
     ckpt_manager := ckpt_manager t; log_dir := log_dir t;
     gen_loss := gen_loss t; disc_loss := disc_loss t;
     disc_accuracy := disc_accuracy t;
     batch_generator := batch_generator t; rng := r;
     generator_losses := generator_losses t;
     discriminator_losses := discriminator_losses t;
     discriminator_accuracies := discriminator_accuracies t;
     noise := noise t; calls := calls t |}.

Definition with_history (g d a : list Q) (t : trainer) : trainer :=
  {| params := params t; generated_image_dir := generated_image_dir t;
     ckpt_manager := ckpt_manager t; log_dir := log_dir t;
     gen_loss := gen_loss t; disc_loss := disc_loss t;
     disc_accuracy := disc_accuracy t;
     batch_generator := batch_generator t; rng := rng t;
     generator_losses := g;
     discriminator_losses := d;
     discriminator_accuracies := a;
     noise := noise t; calls := calls t |}.

Definition with_noise (n : option Noise) (t : trainer) : trainer :=
  {| params := params t; generated_image_dir := generated_image_dir t;
     ckpt_manager := ckpt_manager t; log_dir := log_dir t;
     gen_loss := gen_loss t; disc_loss := disc_loss t;
     disc_accuracy := disc_accuracy t;
     batch_generator := batch_generator t; rng := rng t;
     generator_losses := generator_losses t;
     discriminator_losses := discriminator_losses t;
     discriminator_accuracies := discriminator_accuracies t;
     noise := n; calls := calls t |}.

Definition with_calls (c : list call) (t : trainer) : trainer :=
  {| params := params t; generated_image_dir := generated_image_dir t;
     ckpt_manager := ckpt_manager t; log_dir := log_dir t;
     gen_loss := gen_loss t; disc_loss := disc_loss t;
     disc_accuracy := disc_accuracy t;
     batch_generator := batch_generator t; rng := rng t;
     generator_losses := generator_losses t;
     discriminator_losses := discriminator_losses t;
     discriminator_accuracies := discriminator_accuracies t;
     noise := noise t; calls := c |}.

Definition log (c : call) : SE trainer unit :=
  modify (fun t => with_calls (calls t ++ [c]) t).

(** [next(batch_generator)] *)
Definition next_ : SE trainer Batch :=
  log CNext ;;
  fun t => let '(r, s) := next_batch (batch_generator t) in
           (r, with_batch_generator s t).

(** Modelled from the spec: [self.train_step(train_X, noise_dim)] as a
    concrete subclass overrides it (see [train_step_hook]): the three
    scalars of the batch are observed by [self._gen_loss],
    [self._disc_loss] and [self._disc_accuracy]. *)
Definition train_step (train_X : Batch) (noise_dim : Z)
  : SE trainer unit :=
  log (CTrainStep train_X noise_dim) ;;
  fun t => match train_step_hook train_X noise_dim (params t) with
           | (Ok (g, d, a), p) =>
               (Ok tt,
                with_calls (calls t ++ [CUpdateState g d a])
                  (with_metrics (update_state g (gen_loss t))
                                (update_state d (disc_loss t))
                                (update_state a (disc_accuracy t))
                                (with_params p t)))
           | (Raise e, p) => (Raise e, with_params p t)
           end.

(** [model(input, training=...)] with [model = self.generator]. *)
Definition call_generator (training : bool) (input : option Noise)
  : SE trainer (list (array Q)) :=
  log (CGenerator training input) ;;
  fun t => let '(r, p) := generator training input (params t) in
           (r, with_params p t).

(** [self.ckpt_manager.save(checkpoint_number=n)] *)
Definition ckpt_manager_save (n : Z) : SE trainer unit :=
  fun t => match ckpt_manager t with
           | None => (Raise AttributeError, t)
           | Some c =>
               let '(r, c') := ckpt_save n (params t) c in
               (r, with_ckpt_manager (Some c')
                     (with_calls (calls t ++ [CCheckpoint n]) t))
           end.

(** Modelled from the spec: [unnormalize_data], which [base.py]
    imports from [utils.image_transforms] and which that module does
    not define under this name; the spec makes it the Normalizer's
    inverse transform, [unscale_data] with its default range. *)
Definition unnormalize_data (img : array Q) : array Q :=
  unscaled img 0%Q 1%Q.

(** The body of [for i in range(predictions.shape[0])] in
    [generate_and_plot_images]: [axs] is a 4 x 4 grid of axes. *)
Fixpoint plot_cells (i : nat) (predictions : list (array Q))
    (fig : list (nat * nat * array Q))
  : result (list (nat * nat * array Q)) :=
  match predictions with
  | [] => Ok fig
  | img :: rest =>
      if (4 <=? i / 4)%nat then Raise IndexError
      else plot_cells (S i) rest
             (fig ++ [((i / 4)%nat, (i mod 4)%nat, unnormalize_data img)])
  end.

(** [def generate_and_plot_images(self, model, epoch, input)], called
    with [model = self.generator]. *)
Definition generate_and_plot_images (epoch : Z) (input : option Noise)
  : SE trainer unit :=
  predictions <- call_generator false input ;;
  fig <- lift (plot_cells 0 predictions []) ;;
  t <- get ;;
  match generated_image_dir t with
  | None => raise TypeError
  | Some dir => log (CSavefig dir epoch fig)
  end.

(** The inner [for _ in range(batch_generator.n_batches)] body. *)
Definition batch_step (noise_dim : Z) (_ : nat) : SE trainer unit :=
  train_X <- next_ ;;
  train_step train_X noise_dim.

(** The body of [for epoch in range(epochs)], up to and including
    the sample emission (lines 110 to 135 of [base.py]). *)
Definition epoch_metrics_and_samples (noise_vector : option Noise)
    (noise_dim num_examples_to_generate : Z) (epoch : nat)
  : SE trainer unit :=
  modify (fun t => with_metrics (reset_states (gen_loss t))
                                (reset_states (disc_loss t))
                                (reset_states (disc_accuracy t)) t) ;;
  t <- get ;;
  for_range 0 (Z.to_nat (n_batches (batch_generator t)))
    (batch_step noise_dim) ;;
  t <- get ;;
  let avg_gen_loss := mean_result (gen_loss t) in
  let avg_disc_loss := mean_result (disc_loss t) in
  let avg_disc_accuracy := mean_result (disc_accuracy t) in
  modify (fun t => with_history
                     (generator_losses t ++ [avg_gen_loss])
                     (discriminator_losses t ++ [avg_disc_loss])
                     (discriminator_accuracies t ++ [avg_disc_accuracy])
                     t) ;;
  match noise_vector with
  | None =>
      log (CRandomNormal [num_examples_to_generate; noise_dim]) ;;
      modify (fun t =>
                let '(n, r) :=
                  random_normal [num_examples_to_generate; noise_dim]
                                (rng t) in
                with_noise (Some n) (with_rng r t))
  | Some _ => ret tt
  end ;;
  t <- get ;;
  generate_and_plot_images (Z.of_nat epoch + 1) (noise t).

(** [if (epoch + 1) % checkpoint_freq == 0:
       self.ckpt_manager.save(checkpoint_number=epoch + 1)] *)
Definition checkpoint_on_cadence (checkpoint_freq : Z) (epoch : nat)
  : SE trainer unit :=
  if (checkpoint_freq =? 0)%Z then raise ZeroDivisionError
  else if ((Z.of_nat epoch + 1) mod checkpoint_freq =? 0)%Z
       then ckpt_manager_save (Z.of_nat epoch + 1)
       else ret tt.

(** The whole body of [for epoch in range(epochs)]. *)
Definition epoch_body (checkpoint_freq : Z) (noise_vector : option Noise)
    (noise_dim num_examples_to_generate : Z) (epoch : nat)
  : SE trainer unit :=
  epoch_metrics_and_samples noise_vector noise_dim
    num_examples_to_generate epoch ;;
  checkpoint_on_cadence checkpoint_freq epoch.

(** [def train_loop(self, batch_generator, epochs, checkpoint_freq=5,
    noise_vector=None)]; [batch_generator] is the one of the state. *)
Definition train_loop (epochs checkpoint_freq : Z)
    (noise_vector : option Noise) : SE trainer unit :=
  modify (fun t => with_noise noise_vector (with_history [] [] [] t)) ;;
  let noise_dim := 100%Z in
  let num_examples_to_generate := 16%Z in
  for_range 0 (Z.to_nat epochs)
    (epoch_body checkpoint_freq noise_vector
                noise_dim num_examples_to_generate) ;;
  t <- get ;;
  generate_and_plot_images epochs (noise t) ;;
  t <- get ;;
  match log_dir t with
  | Some dir =>
      log (CPlotMetrics dir (generator_losses t)
                        (discriminator_losses t)
                        (discriminator_accuracies t))
  | None => ret tt
  end.

(** *** Reading the call log *)

(** The number of batches asked of the batch source. *)
Definition pulls (cs : list call) : nat :=
  length (omap (fun c => match c with CNext => Some tt | _ => None end) cs).

(** The checkpoint numbers [ckpt_manager.save] was called with (a call
    that raised is listed too). *)
Definition saves (cs : list call) : list Z :=
  omap (fun c => match c with CCheckpoint n => Some n | _ => None end) cs.

(** The epoch tags of the sample grids handed to the renderer. *)
Definition emissions (cs : list call) : list Z :=
  omap (fun c => match c with CSavefig _ e _ => Some e | _ => None end) cs.

(** The calls of the generator: the [training] flag and the input. *)
Definition generator_calls (cs : list call) : list (bool * option Noise) :=
  omap (fun c => match c with CGenerator tr x => Some (tr, x) | _ => None end)
       cs.

(** The generator-loss values handed to [self._gen_loss]. *)
Definition gen_observations (cs : list call) : list Q :=
  omap (fun c => match c with CUpdateState g _ _ => Some g | _ => None end)
       cs.

End BaseGAN.


Arguments trainer {H}.
Arguments call {H}.

(** ** Vocabulary of the statements *)

(** An array given by its finite entries. *)
Definition of_rows {K : Type} (rows : list (list K)) : array K :=
  map (map Fin) rows.

(** [a[i, j]] *)
Definition aget {K : Type} (a : array K) (i j : nat) : option (fl K) :=
  a !! i ≫= (fun row => row !! j).

(** Equality of rational array elements and arrays, up to the
    representation of fractions. *)
Definition feq (a b : fl Q) : Prop :=
  match a, b with
  | Fin x, Fin y => (x == y)%Q
  | PInf, PInf | NInf, NInf | NaN, NaN => True
  | _, _ => False
  end.

Definition aeq (a b : array Q) : Prop := Forall2 (Forall2 feq) a b.

(** The affine map that sends [lo] to [new_min] and [hi] to [new_max]. *)
Definition rescaled (lo hi new_min new_max v : Q) : Q :=
  ((v - lo) / (hi - lo) * (new_max - new_min) + new_min)%Q.

(** What [data += 1; data /= 2] leaves in the array. *)
Definition halved {K : Type} `{Scalar K} (a : array K) : array K :=
  amap (fun x => fdiv x (Fin (s_of_Z 2)))
       (amap (fun x => fadd x (Fin (s_of_Z 1))) a).

Definition Qsum (l : list Q) : Q := fold_right Qplus 0%Q l.

Definition Rsum (l : list R) : R := fold_right Rplus 0%R l.

(** Mean and (population) variance of a list of reals. *)
Definition rmean (l : list R) : R :=
  (Rsum l / IZR (Z.of_nat (length l)))%R.

Definition rvar (l : list R) : R :=
  rmean (map (fun x => (x - rmean l) * (x - rmean l))%R l).

(** The row [normalize_to_zero_mean_unit_variance] produces from [row]. *)
Definition normalized_row (clip_std : bool) (row : list (fl R)) : list (fl R) :=
  (if clip_std then map (fun x => fdiv x (Fin (s_of_Z 3))) else fun l => l)
    (map (fun x => fdiv x (fstd row)) (map (fun x => fsub x (fmean row)) row)).

(** The 4 x 4 figure drawn from a list of generated images: image
    [i] goes through [unnormalize_data] into cell [(i // 4, i % 4)]. *)
Definition grid_of (imgs : list (array Q)) : list (nat * nat * array Q) :=
  imap (fun i img => ((i / 4)%nat, (i mod 4)%nat, unnormalize_data img)) imgs.

Section TrainerVocabulary.
Context `{Env}.

(** The configuration of the trainer, the noise in use and the recorded
    history are the same in [t'] as in [t]. *)
Definition undisturbed (t t' : trainer) : Prop :=
  generated_image_dir t' = generated_image_dir t /\
  log_dir t' = log_dir t /\
  (is_Some (ckpt_manager t) -> is_Some (ckpt_manager t')) /\
  noise t' = noise t /\
  generator_losses t' = generator_losses t /\
  discriminator_losses t' = discriminator_losses t /\
  discriminator_accuracies t' = discriminator_accuracies t.

(** The accumulator after observing the values of [l], in order. *)
Definition observe_all (l : list Q) (m : Mean) : Mean :=
  fold_left (fun acc v => update_state v acc) l m.

(** The calls [new] were made without emitting, saving or asking the
    generator for images. *)
Definition no_output (new : list call) : Prop :=
  saves new = [] /\ emissions new = [] /\ generator_calls new = [].

(** What batch steps do between [t] and [t']: they leave configuration,
    noise and history alone, make calls that neither emit nor save, and
    feed the generator-loss accumulator the values they report. *)
Definition batch_progress (t t' : trainer) : Prop :=
  undisturbed t t' /\
  exists new,
    calls t' = calls t ++ new /\
    no_output new /\
    gen_loss t' = observe_all (gen_observations new) (gen_loss t).

(** The epoch tags [start + 1, ..., start + count]. *)
Definition epoch_tags (start count : nat) : list Z :=
  map (fun i => (Z.of_nat i + 1)%Z) (seq start count).

(** The tags at which the cadence [checkpoint_freq] saves. *)
Definition on_cadence (checkpoint_freq : Z) (tags : list Z) : list Z :=
  filter (fun e => (e mod checkpoint_freq = 0)%Z) tags.

(** The states [train_loop] passes through, named: after the locals are
    initialised, after the three [reset_states], after the epoch summary
    is appended, after the noise for the emission is chosen. *)
Definition initialised (noise_vector : option Noise) (t : trainer) : trainer :=
  with_noise noise_vector (with_history [] [] [] t).

Definition metrics_reset (t : trainer) : trainer :=
  with_metrics (reset_states (gen_loss t)) (reset_states (disc_loss t))
               (reset_states (disc_accuracy t)) t.

Definition summarised (t : trainer) : trainer :=
  with_history (generator_losses t ++ [mean_result (gen_loss t)])
               (discriminator_losses t ++ [mean_result (disc_loss t)])
               (discriminator_accuracies t ++ [mean_result (disc_accuracy t)])
               t.

Definition noise_chosen (noise_vector : option Noise)
    (noise_dim num_examples_to_generate : Z) (t : trainer) : trainer :=
  match noise_vector with
  | None =>
      let t1 :=
        with_calls
          (calls t ++ [CRandomNormal [num_examples_to_generate; noise_dim]])
          t in
      let '(n, r) :=
        random_normal [num_examples_to_generate; noise_dim] (rng t1) in
      with_noise (Some n) (with_rng r t1)
  | Some _ => t
  end.

(** The state after the closing report: the metrics figure is plotted
    only when a log directory is configured. *)
Definition reported (t : trainer) : trainer :=
  match log_dir t with
  | Some dir =>
      with_calls (calls t ++ [CPlotMetrics dir (generator_losses t)
                                (discriminator_losses t)
                                (discriminator_accuracies t)]) t
  | None => t
  end.

(** Collaborators that do not fail: the batch source always delivers,
    the training step always succeeds, the generator returns at most 16
    images for [input] in inference mode, a checkpoint save always
    succeeds. *)
Definition source_delivers : Prop :=
  forall s, exists b s', next_batch s = (Ok b, s').

Definition train_step_succeeds : Prop :=
  forall b noise_dim p, exists o p', train_step_hook b noise_dim p = (Ok o, p').

Definition generator_delivers (input : option Noise) : Prop :=
  forall p, exists imgs p',
    generator false input p = (Ok imgs, p') /\ (length imgs <= 16)%nat.

Definition saving_succeeds : Prop :=
  forall n p c, exists c', ckpt_save n p c = (Ok tt, c').

(** [BaseGAN.__init__], seen from [train_loop]: a newly constructed
    trainer has none of its three directories set, hence no checkpoint
    manager, and three empty metrics; [batches] and [r] are the batch
    source and the random generator it will be run with. *)
Definition BaseGAN_init (p : Params) (batches : Source) (r : Rng) : trainer :=
  {| params := p; generated_image_dir := None; ckpt_manager := None;
     log_dir := None;
     gen_loss := empty_mean; disc_loss := empty_mean;
     disc_accuracy := empty_mean;
     batch_generator := batches; rng := r;
     generator_losses := []; discriminator_losses := [];
     discriminator_accuracies := [];
     noise := None; calls := [] |}.

(** The shapes [tf.random.normal] was asked for. *)
Definition random_calls (cs : list call) : list (list Z) :=
  omap (fun c => match c with CRandomNormal shape => Some shape | _ => None end)
       cs.

(** The number of training steps started. *)
Definition train_steps (cs : list call) : nat :=
  length (omap (fun c => match c with CTrainStep _ _ => Some tt | _ => None end)
               cs).

(** Between [t] and [t'] each of the three history lists got [k] new
    entries at its end. *)
Definition history_grown (k : nat) (t t' : trainer) : Prop :=
  exists g d a,
    length g = k /\ length d = k /\ length a = k /\
    generator_losses t' = generator_losses t ++ g /\
    discriminator_losses t' = discriminator_losses t ++ d /\
    discriminator_accuracies t' = discriminator_accuracies t ++ a.

(** What holds between the state [t] before and the state [t'] after any
    part of [train_loop], whether it returned or raised: the
    directories are as configured; a missing checkpoint manager stays
    missing; the generator was only called in inference mode; nothing
    was emitted without an image directory; nothing was saved without a
    checkpoint manager or with a cadence of 0. *)
Definition steady (checkpoint_freq : Z) (t t' : trainer) : Prop :=
  generated_image_dir t' = generated_image_dir t /\
  log_dir t' = log_dir t /\
  (ckpt_manager t = None -> ckpt_manager t' = None) /\
  exists new,
    calls t' = calls t ++ new /\
    Forall (fun c => fst c = false) (generator_calls new) /\
    (generated_image_dir t = None -> emissions new = []) /\
    (ckpt_manager t = None \/ checkpoint_freq = 0%Z -> saves new = []).

(** The noise that [n] successive calls of
    [tf.random.normal([16, 100])] return, from the generator state [r]. *)
Fixpoint draws (n : nat) (r : Rng) : list Noise :=
  match n with
  | O => []
  | Datatypes.S m =>
      let '(v, r') := random_normal [16; 100]%Z r in v :: draws m r'
  end.

(** Between [t] and [t'] no random noise was drawn. *)
Definition no_draw (t t' : trainer) : Prop :=
  rng t' = rng t /\
  exists new, calls t' = calls t ++ new /\ random_calls new = [].

(** The checkpoint manager went from state [c] to state [c'] by
    successful saves of the checkpoints numbered [ns], in that order
    (each of some trainable state), and by nothing else. *)
Fixpoint retained (c : Ckpts) (ns : list Z) (c' : Ckpts) : Prop :=
  match ns with
  | [] => c' = c
  | n :: rest =>
      exists p c1, ckpt_save n p c = (Ok tt, c1) /\ retained c1 rest c'
  end.

End TrainerVocabulary.

(** ** Sample inputs *)

Definition sample_rows : list (list Q) := [[0; 5]; [10; 2]]%Q.

Definition sample_store : store Q := {[ 1%positive := of_rows sample_rows ]}.

Definition sample_rows_R : list (list R) := [[0; 2]; [1; 5]]%R.

Definition sample_store_R : store R :=
  {[ 1%positive := of_rows sample_rows_R ]}.

(** Sample [float64] arrays: [[-1e308, 0, 1e308]], whose extremes are
    finite and whose range is not; [[0, 1]]; and
    [[1.0, 1.0000000000000002]], the float 1 and the float after it. *)
Definition sample_wide64 : array64 :=
  [[Float64.of_Z (- 10 ^ 308); Float64.of_Z 0; Float64.of_Z (10 ^ 308)]].

Definition sample_unit64 : array64 := [[Float64.of_Z 0; Float64.of_Z 1]].

Definition sample_close64 : array64 :=
  [[Float64.of_Z 1;
    Float64.div (Float64.of_Z (2 ^ 52 + 1)) (Float64.of_Z (2 ^ 52))]].

(** Sample collaborators.  The batch source hands out its pull count,
    three batches an epoch, and raises on pull number [fail_pull]; the
    training step reports the batch number as generator loss and counts
    the steps in the trainable state; the generator returns 16 constant
    images, refuses [None], and touches the trainable state only in
    training mode; a save of checkpoint [fail_save] raises. *)
Definition sample_next (fail_pull : option nat) (pulled : nat)
  : result nat * nat :=
  if decide (fail_pull = Some (S pulled))
  then (Raise (Raised "IOError"), S pulled)
  else (Ok pulled, S pulled).

Definition sample_train_step (b : nat) (noise_dim : Z) (steps : nat)
  : result (Q * Q * Q) * nat :=
  (Ok (inject_Z (Z.of_nat b), 1%Q, 0%Q), S steps).

Definition sample_generator (training : bool) (input : option nat)
    (steps : nat) : result (list (array Q)) * nat :=
  match input with
  | None => (Raise TypeError, steps)
  | Some seed =>
      (Ok (repeat [[Fin (inject_Z (Z.of_nat seed))]] 16),
       if training then S steps else steps)
  end.

Definition sample_random_normal (shape : list Z) (r : nat) : nat * nat :=
  (r, S r).

Definition sample_ckpt_save (fail_save : option Z) (n : Z) (p : nat)
    (c : list Z) : result unit * list Z :=
  if decide (fail_save = Some n)
  then (Raise (Raised "OSError"), c)
  else (Ok tt, c ++ [n]).

Definition sample_env (fail_pull : option nat) (fail_save : option Z) : Env :=
  {| Batch := nat; Source := nat; Params := nat; Ckpts := list Z;
     Rng := nat; Noise := nat;
     n_batches := fun _ => 3%Z;
     next_batch := sample_next fail_pull;
     train_step_hook := sample_train_step;
     generator := sample_generator;
     random_normal := sample_random_normal;
     ckpt_save := sample_ckpt_save fail_save |}.

(** Collaborators whose generator returns one image for each unit of
    its input, as a generator does for each row of the noise. *)
Definition sample_generator_rows (training : bool) (input : option nat)
    (steps : nat) : result (list (array Q)) * nat :=
  match input with
  | None => (Raise TypeError, steps)
  | Some rows => (Ok (repeat [[Fin 0%Q]] rows), steps)
  end.

Definition sample_env_rows : Env :=
  {| Batch := nat; Source := nat; Params := nat; Ckpts := list Z;
     Rng := nat; Noise := nat;
     n_batches := fun _ => 3%Z;
     next_batch := sample_next None;
     train_step_hook := sample_train_step;
     generator := sample_generator_rows;
     random_normal := sample_random_normal;
     ckpt_save := sample_ckpt_save None |}.

(** Collaborators whose training step raises on batch [fail_batch]. *)
Definition sample_train_step_failing (fail_batch : nat) (b : nat)
    (noise_dim : Z) (steps : nat) : result (Q * Q * Q) * nat :=
  if decide (b = fail_batch)
  then (Raise (Raised "ResourceExhaustedError"), steps)
  else sample_train_step b noise_dim steps.

Definition sample_env_step (fail_batch : nat) : Env :=
  {| Batch := nat; Source := nat; Params := nat; Ckpts := list Z;
     Rng := nat; Noise := nat;
     n_batches := fun _ => 3%Z;
     next_batch := sample_next None;
     train_step_hook := sample_train_step_failing fail_batch;
     generator := sample_generator;
     random_normal := sample_random_normal;
     ckpt_save := sample_ckpt_save None |}.

(** A trainer with its directories configured, before any training. *)
Definition sample_trainer (fail_pull : option nat) (fail_save : option Z)
  : @trainer (sample_env fail_pull fail_save) :=
  @Build_trainer (sample_env fail_pull fail_save)
    0%nat (Some "images"%string) (Some []) None
    empty_mean empty_mean empty_mean 0%nat 0%nat [] [] [] None [].

(** ** Proofs: the transforms *)

Section TransformFacts.

Lemma fdiv_fin (x y : Q) :
  ~ (y == 0)%Q -> fdiv (Fin x) (Fin y) = Fin (x / y)%Q.
Proof.
  intros Hy. simpl.
  destruct (Qeq_bool y (inject_Z 0)) eqn:E; [|reflexivity].
  apply Qeq_bool_iff in E. contradiction.
Qed.

Lemma fold_fmax_fin (vs : list Q) (v0 : Q) :
  exists m, fold_left fmax (map Fin vs) (Fin v0) = Fin m /\
            m ∈ v0 :: vs /\ (forall v, v ∈ v0 :: vs -> (v <= m)%Q).
Proof.
  revert v0. induction vs as [|v vs IH]; intros v0.
  - exists v0. split; [reflexivity|]. split; [left|].
    intros v Hv. apply list_elem_of_singleton in Hv. subst. apply Qle_refl.
  - simpl. destruct (Qle_bool v v0) eqn:E; simpl.
    + apply Qle_bool_iff in E.
      destruct (IH v0) as (m & Hm & Hin & Hub). exists m.
      split; [exact Hm|]. split.
      * apply elem_of_cons in Hin as [->|Hin]; [left|right; right; exact Hin].
      * intros w Hw. apply elem_of_cons in Hw as [->|Hw].
        { apply Hub. left. }
        apply elem_of_cons in Hw as [->|Hw].
        { apply Qle_trans with v0; [exact E|apply Hub; left]. }
        apply Hub. right. exact Hw.
    + assert (Hlt : (v0 < v)%Q).
      { apply Qnot_le_lt. intros Hc. apply Qle_bool_iff in Hc. congruence. }
      destruct (IH v) as (m & Hm & Hin & Hub). exists m.
      split; [exact Hm|]. split.
      * right. exact Hin.
      * intros w Hw. apply elem_of_cons in Hw as [->|Hw].
        { apply Qle_trans with v; [apply Qlt_le_weak; exact Hlt|apply Hub; left]. }
        apply Hub. exact Hw.
Qed.

Lemma fold_fmin_fin (vs : list Q) (v0 : Q) :
  exists m, fold_left fmin (map Fin vs) (Fin v0) = Fin m /\
            m ∈ v0 :: vs /\ (forall v, v ∈ v0 :: vs -> (m <= v)%Q).
Proof.
  revert v0. induction vs as [|v vs IH]; intros v0.
  - exists v0. split; [reflexivity|]. split; [left|].
    intros v Hv. apply list_elem_of_singleton in Hv. subst. apply Qle_refl.
  - simpl. destruct (Qle_bool v0 v) eqn:E; simpl.
    + apply Qle_bool_iff in E.
      destruct (IH v0) as (m & Hm & Hin & Hlb). exists m.
      split; [exact Hm|]. split.
      * apply elem_of_cons in Hin as [->|Hin]; [left|right; right; exact Hin].
      * intros w Hw. apply elem_of_cons in Hw as [->|Hw].
        { apply Hlb. left. }
        apply elem_of_cons in Hw as [->|Hw].
        { apply Qle_trans with v0; [apply Hlb; left|exact E]. }
        apply Hlb. right. exact Hw.
    + assert (Hlt : (v < v0)%Q).
      { apply Qnot_le_lt. intros Hc. apply Qle_bool_iff in Hc. congruence. }
      destruct (IH v) as (m & Hm & Hin & Hlb). exists m.
      split; [exact Hm|]. split.
      * right. exact Hin.
      * intros w Hw. apply elem_of_cons in Hw as [->|Hw].
        { apply Qle_trans with v; [apply Hlb; left|apply Qlt_le_weak; exact Hlt]. }
        apply Hlb. exact Hw.
Qed.

Lemma concat_of_rows {K : Type} (vals : list (list K)) :
  concat (of_rows vals) = map Fin (concat vals).
Proof. unfold of_rows. symmetry. apply concat_map. Qed.

Lemma amax_of_rows (vals : list (list Q)) (mx : Q) :
  amax (of_rows vals) = Ok (Fin mx) ->
  mx ∈ concat vals /\ (forall v, v ∈ concat vals -> (v <= mx)%Q).
Proof.
  unfold amax. rewrite concat_of_rows.
  destruct (concat vals) as [|v0 vs]; simpl; [discriminate|].
  destruct (fold_fmax_fin vs v0) as (m & Hm & Hin & Hub).
  rewrite Hm. intros [= ->]. split; assumption.
Qed.

Lemma amin_of_rows (vals : list (list Q)) (mn : Q) :
  amin (of_rows vals) = Ok (Fin mn) ->
  mn ∈ concat vals /\ (forall v, v ∈ concat vals -> (mn <= v)%Q).
Proof.
  unfold amin. rewrite concat_of_rows.
  destruct (concat vals) as [|v0 vs]; simpl; [discriminate|].
  destruct (fold_fmin_fin vs v0) as (m & Hm & Hin & Hlb).
  rewrite Hm. intros [= ->]. split; assumption.
Qed.

Lemma lookup_map {A B : Type} (f : A -> B) (l : list A) (i : nat) :
  map f l !! i = f <$> (l !! i).
Proof.
  revert i. induction l as [|a l IH]; intros [|i]; simpl; auto.
Qed.

Lemma aget_of_rows {K : Type} (vals : list (list K)) (i j : nat) :
  aget (of_rows vals) i j = Fin <$> (vals !! i ≫= (fun row => row !! j)).
Proof.
  unfold aget, of_rows. rewrite lookup_map.
  destruct (vals !! i) as [row|]; simpl; [|reflexivity].
  apply lookup_map.
Qed.

Lemma aget_elem_of {K : Type} (vals : list (list K)) (i j : nat) (v : K) :
  aget (of_rows vals) i j = Some (Fin v) -> v ∈ concat vals.
Proof.
  rewrite aget_of_rows.
  destruct (vals !! i) as [row|] eqn:Hi; simpl; [|discriminate].
  destruct (row !! j) as [w|] eqn:Hj; simpl; [|discriminate].
  intros [= ->]. apply list_elem_of_In, in_concat. exists row.
  split; apply list_elem_of_In; eapply list_elem_of_lookup_2; eassumption.
Qed.

Lemma elem_of_aget {K : Type} (vals : list (list K)) (v : K) :
  v ∈ concat vals -> exists i j, aget (of_rows vals) i j = Some (Fin v).
Proof.
  intros Hv. apply list_elem_of_In, in_concat in Hv as (row & Hrow & Hv).
  apply list_elem_of_In in Hrow, Hv.
  apply list_elem_of_lookup_1 in Hrow as [i Hi].
  apply list_elem_of_lookup_1 in Hv as [j Hj].
  exists i, j. rewrite aget_of_rows, Hi. simpl. rewrite Hj. reflexivity.
Qed.

Lemma fresh_lookup {K : Type} (h : store K) : h !! fresh (dom h) = None.
Proof. apply not_elem_of_dom, is_fresh. Qed.

Lemma fresh_ne {K : Type} (h : store K) (l : loc) (a : array K) :
  h !! l = Some a -> l <> fresh (dom h).
Proof. intros Hl ->. rewrite fresh_lookup in Hl. discriminate. Qed.

Lemma Qminus_neq_0 (a b : Q) : ~ (a == b)%Q -> ~ (a - b == 0)%Q.
Proof. intros Hab Hc. apply Hab. lra. Qed.

(** What [scale_to_range] computes on a store whose array [matrix]
    has finite entries and distinct extremes. *)
Lemma scale_to_range_run (h : store Q) (matrix : loc)
    (vals : list (list Q)) (mn mx new_min new_max : Q) :
  h !! matrix = Some (of_rows vals) ->
  amax (of_rows vals) = Ok (Fin mx) ->
  amin (of_rows vals) = Ok (Fin mn) ->
  ~ (mx == mn)%Q ->
  scale_to_range matrix new_min new_max h =
    (Ok (fresh (dom h)),
     <[fresh (dom h) :=
         of_rows (map (map (rescaled mn mx new_min new_max)) vals)]> h).
Proof.
  intros Hm Hmax Hmin Hne.
  unfold scale_to_range, bind, load, lift, new_array.
  rewrite Hm, Hmax, Hmin. f_equal. f_equal.
  unfold amap, of_rows. rewrite !map_map. apply map_ext. intros row.
  rewrite !map_map. apply map_ext. intros v.
  change (fsub (Fin v) (Fin mn)) with (Fin (v - mn)%Q).
  change (fsub (Fin mx) (Fin mn)) with (Fin (mx - mn)%Q).
  rewrite fdiv_fin by (apply Qminus_neq_0; exact Hne).
  reflexivity.
Qed.

Lemma rescaled_bounds (mn mx new_min new_max v : Q) :
  (mn <= v)%Q -> (v <= mx)%Q -> (mn < mx)%Q -> (new_min <= new_max)%Q ->
  (new_min <= rescaled mn mx new_min new_max v <= new_max)%Q.
Proof.
  intros Hlo Hhi Hlt Hr. unfold rescaled.
  set (d := (mx - mn)%Q). set (t := ((v - mn) / d)%Q).
  assert (Hd : (0 < d)%Q) by (unfold d; lra).
  assert (Ht0 : (0 <= t)%Q).
  { unfold t. apply Qle_shift_div_l; [exact Hd|]. lra. }
  assert (Ht1 : (t <= 1)%Q).
  { unfold t. apply Qle_shift_div_r; [exact Hd|]. unfold d. lra. }
  split; nra.
Qed.

Lemma rescaled_lo (mn mx new_min new_max v : Q) :
  ~ (mx == mn)%Q -> (v == mn)%Q ->
  (rescaled mn mx new_min new_max v == new_min)%Q.
Proof.
  intros Hne Hv. unfold rescaled. rewrite Hv. field.
  apply Qminus_neq_0. exact Hne.
Qed.

Lemma rescaled_hi (mn mx new_min new_max v : Q) :
  ~ (mx == mn)%Q -> (v == mx)%Q ->
  (rescaled mn mx new_min new_max v == new_max)%Q.
Proof.
  intros Hne Hv. unfold rescaled. rewrite Hv. field.
  apply Qminus_neq_0. exact Hne.
Qed.

(** What [unscale_data] does to the store when handed an array. *)
Lemma unscale_data_run {K : Type} `{Scalar K} (h : store K) (l : loc)
    (a : array K) (min_val max_val : K) :
  h !! l = Some a ->
  unscale_data (VArray l) min_val max_val h =
    (Ok (VArray (fresh (dom h))),
     <[fresh (dom h) := unscaled a min_val max_val]> (<[l := halved a]> h)).
Proof.
  intros Hl. unfold unscale_data, bind, load, assign, new_array, ret.
  repeat (first [rewrite Hl | rewrite lookup_insert_eq];
          cbv beta iota zeta).
  rewrite !insert_insert_eq.
  rewrite dom_insert_lookup_L by (rewrite Hl; eauto).
  reflexivity.
Qed.

(** Handed a float, [unscale_data] leaves the store alone. *)
Lemma unscale_data_float {K : Type} `{Scalar K} (h : store K) (x : fl K)
    (min_val max_val : K) :
  exists y, unscale_data (VFloat x) min_val max_val h = (Ok (VFloat y), h).
Proof. eexists. reflexivity. Qed.

Lemma aget_amap {K : Type} (f : fl K -> fl K) (a : array K) (i j : nat) :
  aget (amap f a) i j = f <$> aget a i j.
Proof.
  unfold aget, amap. rewrite lookup_map.
  destruct (a !! i) as [row|]; simpl; [|reflexivity].
  apply lookup_map.
Qed.

Lemma aeq_aget (a b : array Q) (i j : nat) (x y : fl Q) :
  aeq a b -> aget a i j = Some x -> aget b i j = Some y -> feq x y.
Proof.
  unfold aeq, aget. intros Hab Ha Hb.
  destruct (a !! i) as [ra|] eqn:Hra; simpl in Ha; [|discriminate].
  destruct (b !! i) as [rb|] eqn:Hrb; simpl in Hb; [|discriminate].
  pose proof (Forall2_lookup_lr _ _ _ _ _ _ Hab Hra Hrb) as Hrow.
  exact (Forall2_lookup_lr _ _ _ _ _ _ Hrow Ha Hb).
Qed.

Lemma aeq_map (f g : Q -> fl Q) (vals : list (list Q)) :
  (forall v, feq (f v) (g v)) ->
  aeq (map (map f) vals) (map (map g) vals).
Proof.
  intros Hfg. unfold aeq.
  induction vals as [|row vals IH]; simpl; constructor; [|exact IH].
  induction row as [|v row IHr]; simpl; constructor; [apply Hfg|exact IHr].
Qed.

Lemma map_map_rows {A B C : Type} (f : A -> B) (g : B -> C)
    (l : list (list A)) :
  map (map g) (map (map f) l) = map (map (fun v => g (f v))) l.
Proof.
  rewrite map_map. apply map_ext. intros row. apply map_map.
Qed.

Lemma unscaled_of_rows (vals : list (list Q)) (min_val max_val : Q) :
  unscaled (of_rows vals) min_val max_val =
    map (map (fun v => Fin ((v + 1) / 2 * (max_val - min_val) + min_val)%Q))
        vals.
Proof.
  unfold unscaled, amap, of_rows. rewrite !map_map_rows. reflexivity.
Qed.

End TransformFacts.

(** The degenerate inputs: a constant array scales to an all-[nan]
    array, silently; an empty array has no maximum. *)
Example scale_to_range_constant :
  exists l h',
    scale_to_range 1%positive (-1)%Q 1%Q
      ({[ 1%positive := of_rows [[3; 3]]%Q ]} : store Q) = (Ok l, h') /\
    h' !! l = Some [[NaN; NaN]].
Proof. eexists _, _. split; [vm_compute; reflexivity|]. reflexivity. Qed.

Example scale_to_range_empty :
  fst (scale_to_range 1%positive (-1)%Q 1%Q
         ({[ 1%positive := of_rows [[]] ]} : store Q)) = Raise ValueError.
Proof. reflexivity. Qed.







(** C10.  [unscale_data] writes into the array it is handed: after the
    call the caller's array holds [(data + 1) / 2]; only the affine map
    to [[min_val, max_val]] lands in a new array, and nothing else in
    the store changes.  Unless every entry is 1 (or not finite), the
    caller's array therefore differs from what it held before. *)
Theorem unscale_data_mutates_argument (h : store Q) (data : loc)
    (a : array Q) (min_val max_val : Q) :
  h !! data = Some a ->
  exists (r : loc) (h' : store Q),
    unscale_data (VArray data) min_val max_val h = (Ok (VArray r), h') /\
    h' !! data =
      Some (amap (fun x => fdiv (fadd x (Fin (s_of_Z 1))) (Fin (s_of_Z 2))) a) /\
    r <> data /\
    h !! r = None /\
    h' !! r =
      Some (amap (fun x => fadd (fmul x (Fin (max_val - min_val)%Q))
                                (Fin min_val))
              (amap (fun x => fdiv (fadd x (Fin (s_of_Z 1))) (Fin (s_of_Z 2)))
                    a)) /\
    (forall l, l <> data -> l <> r -> h' !! l = h !! l) /\
    (forall i j v, aget a i j = Some (Fin v) -> ~ (v == 1)%Q ->
       forall a', h' !! data = Some a' -> ~ aeq a' a).
Proof.
  intros Hd.
  assert (Hhalf : halved a =
            amap (fun x => fdiv (fadd x (Fin (s_of_Z 1))) (Fin (s_of_Z 2))) a).
  { unfold halved, amap. apply map_map_rows. }
  assert (Hnew : forall m, m <> fresh (dom h) ->
            (<[fresh (dom h) := unscaled a min_val max_val]>
               (<[data := halved a]> h) : store Q) !! m =
            (<[data := halved a]> h : store Q) !! m).
  { intros m Hm. apply lookup_insert_ne. congruence. }
  pose proof (fresh_ne h data a Hd) as Hfresh.
  do 2 eexists.
  split; [apply unscale_data_run; exact Hd|].
  split.
  { rewrite Hnew by exact Hfresh. rewrite lookup_insert_eq, Hhalf.
    reflexivity. }
  split; [congruence|].
  split; [apply fresh_lookup|].
  split.
  { rewrite lookup_insert_eq. unfold unscaled, amap.
    rewrite !map_map_rows. reflexivity. }
  split.
  { intros l Hl Hr. rewrite Hnew by exact Hr.
    apply lookup_insert_ne. congruence. }
  intros i j v Hv Hv1 a' Ha' Heq.
  rewrite Hnew in Ha' by exact Hfresh.
  rewrite lookup_insert_eq in Ha'. injection Ha' as <-.
  assert (Hget : aget (halved a) i j = Some (Fin ((v + 1) / 2)%Q)).
  { rewrite Hhalf, aget_amap, Hv. reflexivity. }
  pose proof (aeq_aget _ _ _ _ _ _ Heq Hget Hv) as Hf.
  change ((v + 1) / 2 == v)%Q in Hf. apply Hv1.
  assert (Hmul : ((v + 1) / 2 * 2 == v + 1)%Q) by (field; discriminate).
  rewrite Hf in Hmul. lra.
Qed.

Lemma unscale_data_mutates_argument_witness :
  sample_store !! 1%positive = Some (of_rows sample_rows) /\
  exists (r : loc) (h' : store Q),
    unscale_data (VArray 1%positive) 0%Q 1%Q sample_store
      = (Ok (VArray r), h') /\
    h' !! 1%positive =
      Some (amap (fun x => fdiv (fadd x (Fin (s_of_Z 1))) (Fin (s_of_Z 2)))
                 (of_rows sample_rows)) /\
    r <> 1%positive.
Proof.
  assert (H1 : sample_store !! 1%positive = Some (of_rows sample_rows))
    by reflexivity.
  split; [exact H1|].
  destruct (unscale_data_mutates_argument sample_store 1%positive
              (of_rows sample_rows) 0%Q 1%Q H1)
    as (r & h' & Hrun & Hdata & Hr & _).
  exists r, h'. repeat split; assumption.
Defined.

(** ** Proofs: row-wise normalisation, over the reals *)

Section NormalizeFacts.
Local Open Scope R_scope.

Local Ltac lraR := Lra.lra.
Local Ltac nraR := Lra.nra.

Lemma fdiv_fin_R (x y : R) : y <> 0 -> fdiv (Fin x) (Fin y) = Fin (x / y).
Proof.
  intros Hy. simpl. unfold s_zero. simpl.
  destruct (Req_dec_T y 0) as [E|_]; [contradiction|reflexivity].
Qed.

Lemma fold_fadd_fin (l : list R) (a : R) :
  fold_left fadd (map Fin l) (Fin a) = Fin (a + Rsum l).
Proof.
  revert a. induction l as [|x l IH]; intros a; simpl.
  - f_equal. ring.
  - rewrite IH. f_equal. ring.
Qed.

Lemma fsum_fin (l : list R) : fsum (map Fin l) = Fin (Rsum l).
Proof.
  unfold fsum. change (@s_zero R _) with 0. rewrite fold_fadd_fin.
  f_equal. ring.
Qed.

Lemma length_pos_IZR {A : Type} (l : list A) :
  l <> [] -> 0 < IZR (Z.of_nat (length l)).
Proof.
  intros Hl. apply IZR_lt. destruct l; [contradiction|]. simpl length. lia.
Qed.

Lemma fmean_fin (l : list R) : l <> [] -> fmean (map Fin l) = Fin (rmean l).
Proof.
  intros Hl. unfold fmean, rmean. rewrite fsum_fin, length_map.
  apply fdiv_fin_R. pose proof (length_pos_IZR l Hl). lraR.
Qed.

Lemma fmean_nil : fmean (@nil (fl R)) = NaN.
Proof.
  unfold fmean, fsum, fdiv, inf_of_sign, s_zero. simpl.
  change (Z.of_nat 0) with 0%Z.
  destruct (Req_dec_T 0 0) as [_|E]; [|contradiction].
  destruct (Rlt_dec 0 0) as [E|_]; [lraR|reflexivity].
Qed.

Lemma Rsum_sq_nonneg (f : R -> R) (l : list R) :
  0 <= Rsum (map (fun x => f x * f x) l).
Proof.
  induction l as [|x l IH]; simpl; [lraR|]. nraR.
Qed.

Lemma rvar_nonneg (l : list R) : l <> [] -> 0 <= rvar l.
Proof.
  intros Hl. unfold rvar, rmean at 1. rewrite length_map.
  pose proof (length_pos_IZR l Hl) as Hn.
  pose proof (Rsum_sq_nonneg (fun x => x - rmean l) l) as Hs.
  apply Rmult_le_pos; [exact Hs|]. apply Rlt_le, Rinv_0_lt_compat. exact Hn.
Qed.

Lemma fstd_fin (l : list R) :
  l <> [] -> fstd (map Fin l) = Fin (sqrt (rvar l)).
Proof.
  intros Hl. unfold fstd. rewrite (fmean_fin l Hl). rewrite map_map.
  rewrite (map_ext _ (fun x => Fin ((x - rmean l) * (x - rmean l))))
    by reflexivity.
  rewrite <- (map_map (fun x => (x - rmean l) * (x - rmean l)) Fin).
  rewrite fmean_fin.
  2:{ destruct l; [contradiction|discriminate]. }
  fold (rvar l). simpl. unfold s_zero. simpl.
  pose proof (rvar_nonneg l Hl).
  destruct (Rlt_dec (rvar l) 0) as [E|_]; [lraR|reflexivity].
Qed.

Lemma fstd_nil : fstd (@nil (fl R)) = NaN.
Proof. unfold fstd. simpl. rewrite fmean_nil. reflexivity. Qed.

Lemma Rsum_map_scale (f : R -> R) (k : R) (l : list R) :
  Rsum (map (fun x => f x * k) l) = Rsum (map f l) * k.
Proof. induction l as [|x l IH]; simpl; [ring|]. rewrite IH. ring. Qed.

Lemma Rsum_map_sub (m : R) (l : list R) :
  Rsum (map (fun x => x - m) l) = Rsum l - IZR (Z.of_nat (length l)) * m.
Proof.
  induction l as [|x l IH]; [simpl; ring|].
  simpl map. simpl Rsum. rewrite IH. simpl length.
  rewrite Nat2Z.inj_succ, succ_IZR. ring.
Qed.

(** Centring on the mean and scaling by [k] gives mean 0 and variance
    [k * k] times the original one. *)
Lemma rmean_centred (k : R) (l : list R) :
  l <> [] -> rmean (map (fun x => (x - rmean l) * k) l) = 0.
Proof.
  intros Hl. pose proof (length_pos_IZR l Hl) as Hn.
  unfold rmean at 1. rewrite length_map.
  rewrite (Rsum_map_scale (fun x => x - rmean l)), Rsum_map_sub.
  unfold rmean. field. lraR.
Qed.

Lemma rmean_scale (f : R -> R) (c : R) (l : list R) :
  rmean (map (fun x => f x * c) l) = rmean (map f l) * c.
Proof.
  unfold rmean. rewrite !length_map, Rsum_map_scale. unfold Rdiv. ring.
Qed.

Lemma rvar_centred (k : R) (l : list R) :
  l <> [] -> rvar (map (fun x => (x - rmean l) * k) l) = k * k * rvar l.
Proof.
  intros Hl. unfold rvar. rewrite (rmean_centred k l Hl). rewrite map_map.
  rewrite (map_ext _ (fun x => (x - rmean l) * (x - rmean l) * (k * k))).
  2:{ intros x. ring. }
  rewrite (rmean_scale (fun x => (x - rmean l) * (x - rmean l))). ring.
Qed.

Lemma zip_with_map_same {A B C D : Type} (F : B -> C -> D)
    (G : A -> B) (g : A -> C) (a : list A) :
  zip_with F (map G a) (map g a) = map (fun r => F (G r) (g r)) a.
Proof. induction a as [|r a IH]; simpl; [reflexivity|]. rewrite IH. reflexivity. Qed.

Lemma normalize_run (h : store R) (data : loc) (d : array R)
    (clip_std : bool) :
  h !! data = Some d ->
  normalize_to_zero_mean_unit_variance data clip_std h =
    (Ok (fresh (dom h)),
     <[fresh (dom h) := map (normalized_row clip_std) d]> h).
Proof.
  intros Hd. unfold normalize_to_zero_mean_unit_variance, bind, load, new_array.
  rewrite Hd. cbv beta iota zeta.
  assert (Hrows : amap_rows fdiv (amap_rows fsub d (map fmean d)) (map fstd d)
                  = map (normalized_row false) d).
  { unfold amap_rows.
    rewrite <- (map_id d) at 1.
    rewrite (zip_with_map_same
               (fun row c => map (fun x => fsub x c) row) (fun r => r) fmean d).
    rewrite (zip_with_map_same
               (fun row c => map (fun x => fdiv x c) row)
               (fun r => map (fun x => fsub x (fmean r)) r) fstd d).
    reflexivity. }
  rewrite Hrows. destruct clip_std.
  - unfold assign, ret. rewrite lookup_insert_eq. cbv beta iota zeta.
    rewrite lookup_insert_eq. rewrite insert_insert_eq.
    unfold amap. rewrite map_map. reflexivity.
  - reflexivity.
Qed.

Lemma normalized_row_fin (clip_std : bool) (r : list R) (s : R) :
  fstd (map Fin r) = Fin s -> s <> 0 ->
  r <> [] /\ s = sqrt (rvar r) /\
  normalized_row clip_std (map Fin r) =
    map Fin (map (fun x => (x - rmean r) * (if clip_std then / s * / 3 else / s))
                 r).
Proof.
  intros Hs Hs0.
  assert (Hr : r <> []).
  { intros ->. simpl in Hs. rewrite fstd_nil in Hs. discriminate. }
  rewrite (fstd_fin r Hr) in Hs. injection Hs as Hs.
  split; [exact Hr|]. split; [congruence|].
  unfold normalized_row. rewrite (fmean_fin r Hr), (fstd_fin r Hr), Hs.
  rewrite !map_map.
  destruct clip_std.
  - rewrite map_map. apply map_ext. intros x.
    change (fsub (Fin x) (Fin (rmean r))) with (Fin (x - rmean r)).
    rewrite fdiv_fin_R by exact Hs0.
    rewrite fdiv_fin_R by (simpl; lraR).
    f_equal. simpl. field. exact Hs0.
  - apply map_ext. intros x.
    change (fsub (Fin x) (Fin (rmean r))) with (Fin (x - rmean r)).
    rewrite fdiv_fin_R by exact Hs0. reflexivity.
Qed.

Lemma normalized_row_stats (clip_std : bool) (r : list R) (s : R) :
  fstd (map Fin r) = Fin s -> s <> 0 ->
  fmean (normalized_row clip_std (map Fin r)) = Fin 0 /\
  fstd (normalized_row clip_std (map Fin r)) =
    Fin (if clip_std then 1 / 3 else 1).
Proof.
  intros Hs Hs0.
  destruct (normalized_row_fin clip_std r s Hs Hs0) as (Hr & Hsq & ->).
  set (k := if clip_std then / s * / 3 else / s).
  assert (Hne : map (fun x => (x - rmean r) * k) r <> []).
  { destruct r; [contradiction|discriminate]. }
  pose proof (rvar_nonneg r Hr) as Hv.
  assert (Hss : s * s = rvar r).
  { rewrite Hsq. apply sqrt_sqrt. exact Hv. }
  split.
  - rewrite fmean_fin by exact Hne. f_equal. apply rmean_centred. exact Hr.
  - rewrite fstd_fin by exact Hne. f_equal.
    rewrite (rvar_centred k r Hr), <- Hss. unfold k. destruct clip_std.
    + apply sqrt_lem_1; [| lraR |].
      * replace (/ s * / 3 * (/ s * / 3) * (s * s)) with (/ 9)
          by (field; exact Hs0). lraR.
      * field. exact Hs0.
    + replace (/ s * / s * (s * s)) with 1 by (field; exact Hs0).
      apply sqrt_1.
Qed.

End NormalizeFacts.



Lemma sample_rows_R_std (row : list R) :
  row ∈ sample_rows_R -> exists s, fstd (map Fin row) = Fin s /\ s <> 0%R.
Proof.
  intros Hrow. unfold sample_rows_R in Hrow.
  apply elem_of_cons in Hrow as [->|Hrow].
  - exists 1%R. split; [|Lra.lra].
    rewrite fstd_fin by discriminate. f_equal.
    replace (rvar [0; 2]%R) with 1%R; [apply sqrt_1|].
    unfold rvar, rmean. simpl. change (Z.of_nat 2) with 2%Z. Lra.lra.
  - apply list_elem_of_singleton in Hrow as ->.
    exists 2%R. split; [|Lra.lra].
    rewrite fstd_fin by discriminate. f_equal.
    apply sqrt_lem_1; [| Lra.lra |].
    + apply rvar_nonneg. discriminate.
    + unfold rvar, rmean. simpl. change (Z.of_nat 2) with 2%Z. Lra.lra.
Defined.



(** ** Proofs: the training loop *)

Section MonadFacts.
Context {S : Type}.

Lemma bind_ok {A B : Type} (m : SE S A) (k : A -> SE S B) (s s' : S) (a : A) :
  m s = (Ok a, s') -> bind m k s = k a s'.
Proof. intros Hm. unfold bind. rewrite Hm. reflexivity. Qed.

Lemma bind_raise {A B : Type} (m : SE S A) (k : A -> SE S B) (s s' : S)
    (e : exn) :
  m s = (Raise e, s') -> bind m k s = (Raise e, s').
Proof. intros Hm. unfold bind. rewrite Hm. reflexivity. Qed.

(** A loop of [n + m] rounds is a loop of [n] rounds followed by one of
    [m] rounds. *)
Lemma for_range_app (body : nat -> SE S unit) (n m i : nat) (s : S) :
  for_range i (n + m) body s =
    (for_range i n body ;; for_range (i + n) m body) s.
Proof.
  revert i s. induction n as [|n IH]; intros i s.
  - simpl. unfold bind, ret. rewrite Nat.add_0_r. reflexivity.
  - simpl. unfold bind.
    destruct (body i s) as [[[]|e] s1]; [|reflexivity].
    rewrite IH. unfold bind.
    replace (i + Datatypes.S n)%nat with (Datatypes.S i + n)%nat by lia.
    reflexivity.
Qed.

(** A property that every round preserves, whatever its outcome, is
    preserved by the loop, whatever its outcome. *)
Lemma for_range_preserves (R : S -> S -> Prop) (body : nat -> SE S unit) :
  (forall s, R s s) ->
  (forall s1 s2 s3, R s1 s2 -> R s2 s3 -> R s1 s3) ->
  (forall i s r s', body i s = (r, s') -> R s s') ->
  forall n i s r s', for_range i n body s = (r, s') -> R s s'.
Proof.
  intros Hrefl Htrans Hbody. induction n as [|n IH]; intros i s r s' Hrun.
  - simpl in Hrun. unfold ret in Hrun. injection Hrun as _ <-. apply Hrefl.
  - simpl in Hrun. unfold bind in Hrun.
    destruct (body i s) as [[[]|e] s1] eqn:Hb.
    + eapply Htrans; [eapply Hbody; exact Hb|eapply IH; exact Hrun].
    + injection Hrun as _ <-. eapply Hbody. exact Hb.
Qed.

End MonadFacts.

Section TrainerFacts.
Context `{Env}.

Lemma plot_cells_ok (imgs : list (array Q)) (i : nat)
    (fig : list (nat * nat * array Q)) :
  (i + length imgs <= 16)%nat ->
  plot_cells i imgs fig =
    Ok (fig ++ imap (fun j img => (((i + j) / 4)%nat, ((i + j) mod 4)%nat,
                                   unnormalize_data img)) imgs).
Proof.
  revert i fig. induction imgs as [|img imgs IH]; intros i fig Hlen.
  - simpl. rewrite app_nil_r. reflexivity.
  - simpl in Hlen. cbn [plot_cells].
    assert (Hi : (4 <=? i / 4)%nat = false).
    { apply Nat.leb_gt. apply Nat.Div0.div_lt_upper_bound. lia. }
    rewrite Hi. rewrite IH by lia. f_equal.
    rewrite <- app_assoc. f_equal. cbn [imap app]. rewrite Nat.add_0_r.
    f_equal. apply imap_ext. intros j x _. simpl.
    replace (i + Datatypes.S j)%nat with (Datatypes.S i + j)%nat by lia.
    reflexivity.
Qed.

(** The seventeenth image has no cell. *)
Lemma plot_cells_overflow (imgs : list (array Q)) (i : nat)
    (fig : list (nat * nat * array Q)) :
  (i <= 16)%nat -> (16 < i + length imgs)%nat ->
  plot_cells i imgs fig = Raise IndexError.
Proof.
  revert i fig. induction imgs as [|img imgs IH]; intros i fig Hi Hlen.
  - simpl in Hlen. lia.
  - simpl in Hlen. cbn [plot_cells].
    destruct (4 <=? i / 4)%nat eqn:Hq; [reflexivity|].
    apply Nat.leb_gt in Hq.
    assert (i < 16)%nat.
    { destruct (Nat.lt_ge_cases i 16) as [Hl|Hg]; [exact Hl|].
      assert (4 <= i / 4)%nat
        by (apply Nat.div_le_lower_bound; [discriminate|exact Hg]).
      lia. }
    apply IH; lia.
Qed.

(** The emission when the generator delivers at most 16 images and the
    image directory is configured. *)
Lemma generate_and_plot_images_ok (t : trainer) (epoch : Z)
    (input : option Noise) (imgs : list (array Q)) (p' : Params)
    (dir : string) :
  generated_image_dir t = Some dir ->
  generator false input (params t) = (Ok imgs, p') ->
  (length imgs <= 16)%nat ->
  generate_and_plot_images epoch input t =
    (Ok tt,
     with_calls (calls t ++ [CGenerator false input;
                             CSavefig dir epoch (grid_of imgs)])
       (with_params p' t)).
Proof.
  intros Hdir Hgen Hlen.
  unfold generate_and_plot_images, call_generator, log, bind, modify, get,
    lift, ret.
  cbn [params with_calls]. rewrite Hgen.
  rewrite (plot_cells_ok imgs 0 []) by (simpl; lia).
  cbn [generated_image_dir with_params with_calls]. rewrite Hdir.
  destruct t. cbn. rewrite <- app_assoc. reflexivity.
Qed.

(** An emission returns exactly when an image directory is set and the
    generator returns at most 16 images. *)
Lemma emission_returns_iff (epoch : Z) (input : option Noise) (t : trainer) :
  fst (generate_and_plot_images epoch input t) = Ok tt <->
  exists dir imgs p',
    generated_image_dir t = Some dir /\
    generator false input (params t) = (Ok imgs, p') /\
    (length imgs <= 16)%nat.
Proof.
  split.
  - unfold generate_and_plot_images, call_generator, log, bind, modify, get,
      lift, ret, raise.
    cbn [params with_calls].
    destruct (generator false input (params t)) as [[imgs|e] p];
      [|discriminate].
    destruct (le_lt_dec (length imgs) 16) as [Hle|Hgt].
    + destruct (plot_cells 0 imgs []) as [fig|e]; [|discriminate].
      cbn [generated_image_dir with_params with_calls].
      destruct (generated_image_dir t) as [dir|]; [|discriminate].
      intros _. exists dir, imgs, p. auto.
    + rewrite plot_cells_overflow by (simpl; lia). discriminate.
  - intros (dir & imgs & p' & Hdir & Hgen & Hlen).
    rewrite (generate_and_plot_images_ok t epoch input imgs p' dir Hdir Hgen
               Hlen).
    reflexivity.
Qed.

(** [train_loop] and the body of its epoch loop, unfolded along the
    named states. *)
Lemma epoch_metrics_and_samples_unfold (noise_vector : option Noise)
    (noise_dim k : Z) (epoch : nat) (t : trainer) :
  epoch_metrics_and_samples noise_vector noise_dim k epoch t =
    match for_range 0 (Z.to_nat (n_batches (batch_generator t)))
                    (batch_step noise_dim) (metrics_reset t) with
    | (Ok _, t2) =>
        let t3 := noise_chosen noise_vector noise_dim k (summarised t2) in
        generate_and_plot_images (Z.of_nat epoch + 1) (noise t3) t3
    | (Raise e, t2) => (Raise e, t2)
    end.
Proof.
  unfold epoch_metrics_and_samples.
  unfold bind at 1 2 3. unfold modify at 1, get at 1.
  change (batch_generator (with_metrics _ _ _ t)) with (batch_generator t).
  fold (metrics_reset t).
  destruct (for_range 0 (Z.to_nat (n_batches (batch_generator t)))
                      (batch_step noise_dim) (metrics_reset t))
    as [[[]|e] t2]; [|reflexivity].
  unfold bind at 1 2 3, get at 1, modify at 1. fold (summarised t2).
  destruct noise_vector as [v|].
  - unfold ret at 1, bind at 1, get at 1. reflexivity.
  - unfold bind at 1, log, modify. unfold noise_chosen.
    cbn [rng with_calls].
    destruct (random_normal [k; noise_dim] (rng (summarised t2))) as [n r].
    unfold bind at 1, get at 1. reflexivity.
Qed.

Lemma epoch_body_unfold (checkpoint_freq : Z) (noise_vector : option Noise)
    (noise_dim k : Z) (epoch : nat) (t : trainer) :
  epoch_body checkpoint_freq noise_vector noise_dim k epoch t =
    match epoch_metrics_and_samples noise_vector noise_dim k epoch t with
    | (Ok _, t4) => checkpoint_on_cadence checkpoint_freq epoch t4
    | (Raise e, t4) => (Raise e, t4)
    end.
Proof. reflexivity. Qed.

Lemma train_loop_unfold (epochs checkpoint_freq : Z)
    (noise_vector : option Noise) (t : trainer) :
  train_loop epochs checkpoint_freq noise_vector t =
    match for_range 0 (Z.to_nat epochs)
            (epoch_body checkpoint_freq noise_vector 100 16)
            (initialised noise_vector t) with
    | (Ok _, t1) =>
        match generate_and_plot_images epochs (noise t1) t1 with
        | (Ok _, t2) => (Ok tt, reported t2)
        | (Raise e, t2) => (Raise e, t2)
        end
    | (Raise e, t1) => (Raise e, t1)
    end.
Proof.
  unfold train_loop. unfold bind at 1, modify at 1.
  fold (initialised noise_vector t).
  unfold bind at 1.
  destruct (for_range 0 (Z.to_nat epochs)
              (epoch_body checkpoint_freq noise_vector 100 16)
              (initialised noise_vector t)) as [[[]|e] t1]; [|reflexivity].
  unfold bind at 1, get at 1. unfold bind at 1.
  destruct (generate_and_plot_images epochs (noise t1) t1)
    as [[[]|e] t2]; [|reflexivity].
  unfold bind, get, reported, log, modify, ret.
  destruct (log_dir t2); reflexivity.
Qed.

Lemma reported_frame (t : trainer) :
  generator_losses (reported t) = generator_losses t /\
  discriminator_losses (reported t) = discriminator_losses t /\
  discriminator_accuracies (reported t) = discriminator_accuracies t /\
  gen_loss (reported t) = gen_loss t /\
  exists new,
    calls (reported t) = calls t ++ new /\
    pulls new = 0%nat /\ saves new = [] /\ emissions new = [] /\
    generator_calls new = [] /\ gen_observations new = [].
Proof.
  unfold reported. destruct (log_dir t) as [dir|]; cbn.
  - repeat split. eexists. split; [reflexivity|]. repeat split.
  - repeat split. exists []. rewrite app_nil_r. repeat split.
Qed.

Lemma undisturbed_refl (t : trainer) : undisturbed t t.
Proof. unfold undisturbed. auto 10. Qed.

Lemma undisturbed_trans (t1 t2 t3 : trainer) :
  undisturbed t1 t2 -> undisturbed t2 t3 -> undisturbed t1 t3.
Proof.
  unfold undisturbed.
  intros (A1 & A2 & A3 & A4 & A5 & A6 & A7) (B1 & B2 & B3 & B4 & B5 & B6 & B7).
  repeat split; try congruence. auto.
Qed.

Lemma gen_observations_app (a b : list call) :
  gen_observations (a ++ b) = gen_observations a ++ gen_observations b.
Proof. apply omap_app. Qed.

Lemma saves_app (a b : list call) : saves (a ++ b) = saves a ++ saves b.
Proof. apply omap_app. Qed.

Lemma emissions_app (a b : list call) :
  emissions (a ++ b) = emissions a ++ emissions b.
Proof. apply omap_app. Qed.

Lemma generator_calls_app (a b : list call) :
  generator_calls (a ++ b) = generator_calls a ++ generator_calls b.
Proof. apply omap_app. Qed.

Lemma pulls_app (a b : list call) : pulls (a ++ b) = (pulls a + pulls b)%nat.
Proof. unfold pulls. rewrite omap_app. apply length_app. Qed.

Lemma no_output_nil : no_output [].
Proof. repeat split. Qed.

Lemma no_output_app (a b : list call) :
  no_output a -> no_output b -> no_output (a ++ b).
Proof.
  unfold no_output. intros (A1 & A2 & A3) (B1 & B2 & B3).
  rewrite saves_app, emissions_app, generator_calls_app.
  rewrite A1, A2, A3, B1, B2, B3. repeat split.
Qed.

Lemma batch_progress_refl (t : trainer) : batch_progress t t.
Proof.
  split; [apply undisturbed_refl|]. exists []. rewrite app_nil_r.
  split; [reflexivity|]. split; [apply no_output_nil|reflexivity].
Qed.

Lemma batch_progress_trans (t1 t2 t3 : trainer) :
  batch_progress t1 t2 -> batch_progress t2 t3 -> batch_progress t1 t3.
Proof.
  intros (U1 & n1 & C1 & N1 & G1) (U2 & n2 & C2 & N2 & G2).
  split; [eapply undisturbed_trans; eassumption|].
  exists (n1 ++ n2). split; [rewrite C2, C1; symmetry; apply app_assoc|].
  split; [apply no_output_app; assumption|].
  rewrite G2, G1, gen_observations_app. unfold observe_all.
  symmetry. apply fold_left_app.
Qed.

Lemma batch_step_progress (noise_dim : Z) (i : nat) (t t' : trainer)
    (r : result unit) :
  batch_step noise_dim i t = (r, t') -> batch_progress t t'.
Proof.
  unfold batch_step, next_, train_step, log, bind, modify.
  cbn [batch_generator with_calls].
  destruct (next_batch (batch_generator t)) as [[b|e] s].
  - cbn [params with_batch_generator with_calls].
    destruct (train_step_hook b noise_dim (params t)) as [[[[g d] a]|e] p];
      intros [= <- <-]; (split; [unfold undisturbed; cbn; auto 10|]); cbn.
    + exists [CNext; CTrainStep b noise_dim; CUpdateState g d a].
      split; [rewrite <- !app_assoc; reflexivity|].
      split; [repeat split|reflexivity].
    + exists [CNext; CTrainStep b noise_dim].
      split; [rewrite <- !app_assoc; reflexivity|].
      split; [repeat split|reflexivity].
  - intros [= <- <-]. split; [unfold undisturbed; cbn; auto 10|]. cbn.
    exists [CNext]. split; [reflexivity|]. split; [repeat split|reflexivity].
Qed.

Lemma batch_loop_progress (noise_dim : Z) (n i : nat) (t t' : trainer)
    (r : result unit) :
  for_range i n (batch_step noise_dim) t = (r, t') -> batch_progress t t'.
Proof.
  apply (for_range_preserves batch_progress);
    [apply batch_progress_refl|apply batch_progress_trans|].
  intros. eapply batch_step_progress. eassumption.
Qed.

(** What an emission and a cadence check can change, whatever their
    outcome. *)
Lemma emission_frame (epoch : Z) (input : option Noise) (t t' : trainer)
    (r : result unit) :
  generate_and_plot_images epoch input t = (r, t') ->
  undisturbed t t' /\
  gen_loss t' = gen_loss t /\
  exists new,
    calls t' = calls t ++ new /\
    gen_observations new = [] /\
    saves new = [] /\
    pulls new = 0%nat /\
    generator_calls new = [(false, input)] /\
    emissions new = match r with Ok _ => [epoch] | Raise _ => [] end.
Proof.
  unfold generate_and_plot_images, call_generator, log, bind, modify, get,
    lift, ret, raise.
  cbn [params with_calls].
  destruct (generator false input (params t)) as [[imgs|e] p].
  - destruct (plot_cells 0 imgs []) as [fig|e].
    + cbn [generated_image_dir with_params with_calls].
      destruct (generated_image_dir t) as [dir|] eqn:Hdir;
        intros [= <- <-]; unfold undisturbed; cbn; rewrite ?Hdir.
      * split; [auto 10|]. split; [reflexivity|].
        exists [CGenerator false input; CSavefig dir epoch fig].
        rewrite <- app_assoc. auto 10.
      * split; [auto 10|]. split; [reflexivity|].
        exists [CGenerator false input]. auto 10.
    + intros [= <- <-]. unfold undisturbed. cbn.
      split; [auto 10|]. split; [reflexivity|].
      exists [CGenerator false input]. auto 10.
  - intros [= <- <-]. unfold undisturbed. cbn.
    split; [auto 10|]. split; [reflexivity|].
    exists [CGenerator false input]. auto 10.
Qed.

Lemma checkpoint_frame (checkpoint_freq : Z) (epoch : nat) (t t' : trainer)
    (r : result unit) :
  checkpoint_on_cadence checkpoint_freq epoch t = (r, t') ->
  undisturbed t t' /\
  gen_loss t' = gen_loss t /\
  exists new,
    calls t' = calls t ++ new /\
    gen_observations new = [] /\
    emissions new = [] /\
    pulls new = 0%nat /\
    generator_calls new = [] /\
    (r = Ok tt -> saves new = on_cadence checkpoint_freq [Z.of_nat epoch + 1]%Z).
Proof.
  unfold checkpoint_on_cadence, ckpt_manager_save, raise, ret, on_cadence.
  destruct (checkpoint_freq =? 0)%Z.
  { intros [= <- <-]. split; [apply undisturbed_refl|].
    split; [reflexivity|]. exists []. rewrite app_nil_r.
    repeat split; try reflexivity. discriminate. }
  destruct ((Z.of_nat epoch + 1) mod checkpoint_freq =? 0)%Z eqn:Hmod.
  - apply Z.eqb_eq in Hmod.
    destruct (ckpt_manager t) as [c|] eqn:Hc.
    + destruct (ckpt_save (Z.of_nat epoch + 1) (params t) c) as [r0 c'].
      intros [= <- <-]. unfold undisturbed. cbn.
      split; [repeat split; eauto|]. split; [reflexivity|].
      exists [CCheckpoint (Z.of_nat epoch + 1)].
      repeat split; try reflexivity. intros _. cbn.
      destruct (decide _); [reflexivity|contradiction].
    + intros [= <- <-]. split; [apply undisturbed_refl|].
      split; [reflexivity|]. exists []. rewrite app_nil_r.
      repeat split; try reflexivity. discriminate.
  - apply Z.eqb_neq in Hmod. intros [= <- <-].
    split; [apply undisturbed_refl|]. split; [reflexivity|].
    exists []. rewrite app_nil_r. repeat split; try reflexivity.
    intros _. cbn. destruct (decide _); [contradiction|reflexivity].
Qed.

Lemma noise_chosen_summarised (noise_vector : option Noise)
    (noise_dim k : Z) (t2 : trainer) :
  let t3 := noise_chosen noise_vector noise_dim k (summarised t2) in
  generated_image_dir t3 = generated_image_dir t2 /\
  log_dir t3 = log_dir t2 /\
  ckpt_manager t3 = ckpt_manager t2 /\
  gen_loss t3 = gen_loss t2 /\
  generator_losses t3 = generator_losses t2 ++ [mean_result (gen_loss t2)] /\
  discriminator_losses t3 =
    discriminator_losses t2 ++ [mean_result (disc_loss t2)] /\
  discriminator_accuracies t3 =
    discriminator_accuracies t2 ++ [mean_result (disc_accuracy t2)] /\
  (is_Some noise_vector -> noise t3 = noise t2) /\
  exists new,
    calls t3 = calls t2 ++ new /\ no_output new /\ gen_observations new = [].
Proof.
  destruct noise_vector as [v|]; cbn.
  - repeat split. exists []. rewrite app_nil_r. repeat split.
  - destruct (random_normal [k; noise_dim] (rng t2)) as [n r]. cbn.
    repeat split.
    + intros [x Hx]. discriminate.
    + exists [CRandomNormal [k; noise_dim]]. repeat split.
Qed.

(** A completed epoch, up to its emission. *)
Lemma epoch_metrics_and_samples_ok (noise_vector : option Noise)
    (noise_dim k : Z) (epoch : nat) (t t4 : trainer) :
  epoch_metrics_and_samples noise_vector noise_dim k epoch t = (Ok tt, t4) ->
  generated_image_dir t4 = generated_image_dir t /\
  log_dir t4 = log_dir t /\
  (is_Some (ckpt_manager t) -> is_Some (ckpt_manager t4)) /\
  (is_Some noise_vector -> noise t4 = noise t) /\
  (exists d, discriminator_losses t4 = discriminator_losses t ++ [d]) /\
  (exists a, discriminator_accuracies t4 = discriminator_accuracies t ++ [a]) /\
  generator_losses t4 = generator_losses t ++ [mean_result (gen_loss t4)] /\
  exists new,
    calls t4 = calls t ++ new /\
    emissions new = [Z.of_nat epoch + 1]%Z /\
    saves new = [] /\
    generator_calls new = [(false, noise t4)] /\
    gen_loss t4 = observe_all (gen_observations new) empty_mean.
Proof.
  rewrite epoch_metrics_and_samples_unfold.
  destruct (for_range 0 (Z.to_nat (n_batches (batch_generator t)))
              (batch_step noise_dim) (metrics_reset t))
    as [[[]|e] t2] eqn:Hb; [|discriminate].
  cbv zeta. intros Hem.
  destruct (batch_loop_progress _ _ _ _ _ _ Hb)
    as ((U1 & U2 & U3 & U4 & U5 & U6 & U7) & new1 & C1 & (S1 & E1 & GC1) & G1).
  destruct (noise_chosen_summarised noise_vector noise_dim k t2)
    as (D1 & D2 & D3 & D4 & D5 & D6 & D7 & D8 & new2 & C2 & (S2 & E2 & GC2) & O2).
  destruct (emission_frame _ _ _ _ _ Hem)
    as ((V1 & V2 & V3 & V4 & V5 & V6 & V7) & G3 & new3 & C3 & O3 & S3 & _
        & GC3 & E3).
  cbn in U1, U2, U3, U4, U5, U6, U7, C1, G1.
  split; [congruence|]. split; [congruence|].
  split; [intros Hc; apply V3; rewrite D3; apply U3; exact Hc|].
  split; [intros Hn; rewrite V4, (D8 Hn); exact U4|].
  split; [eexists; rewrite V6, D6, U6; reflexivity|].
  split; [eexists; rewrite V7, D7, U7; reflexivity|].
  split; [rewrite V5, D5, U5, G3, D4; reflexivity|].
  exists (new1 ++ new2 ++ new3).
  split; [rewrite C3, C2, C1, <- !app_assoc; reflexivity|].
  rewrite !emissions_app, !saves_app, !generator_calls_app,
    !gen_observations_app.
  rewrite E1, E2, E3, S1, S2, S3, GC1, GC2, GC3, O2, O3, V4, !app_nil_r.
  repeat split. rewrite G3, D4. exact G1.
Qed.

(** A completed epoch. *)
Lemma epoch_body_ok (checkpoint_freq : Z) (noise_vector : option Noise)
    (noise_dim k : Z) (epoch : nat) (t t' : trainer) :
  epoch_body checkpoint_freq noise_vector noise_dim k epoch t = (Ok tt, t') ->
  generated_image_dir t' = generated_image_dir t /\
  log_dir t' = log_dir t /\
  (is_Some (ckpt_manager t) -> is_Some (ckpt_manager t')) /\
  (is_Some noise_vector -> noise t' = noise t) /\
  (exists d, discriminator_losses t' = discriminator_losses t ++ [d]) /\
  (exists a, discriminator_accuracies t' = discriminator_accuracies t ++ [a]) /\
  generator_losses t' = generator_losses t ++ [mean_result (gen_loss t')] /\
  exists new,
    calls t' = calls t ++ new /\
    emissions new = [Z.of_nat epoch + 1]%Z /\
    saves new = on_cadence checkpoint_freq [Z.of_nat epoch + 1]%Z /\
    generator_calls new = [(false, noise t')] /\
    gen_loss t' = observe_all (gen_observations new) empty_mean.
Proof.
  rewrite epoch_body_unfold.
  destruct (epoch_metrics_and_samples noise_vector noise_dim k epoch t)
    as [[[]|e] t4] eqn:Hem; [|discriminate].
  intros Hck.
  destruct (epoch_metrics_and_samples_ok _ _ _ _ _ _ Hem)
    as (A1 & A2 & A3 & A4 & (d & A5) & (a & A6) & A7 & new1 & C1 & E1 & S1
        & GC1 & G1).
  destruct (checkpoint_frame _ _ _ _ _ Hck)
    as ((V1 & V2 & V3 & V4 & V5 & V6 & V7) & G2 & new2 & C2 & O2 & E2 & _
        & GC2 & S2).
  split; [congruence|]. split; [congruence|].
  split; [auto|].
  split; [intros Hn; rewrite V4; auto|].
  split; [exists d; congruence|]. split; [exists a; congruence|].
  split; [rewrite V5, G2; exact A7|].
  exists (new1 ++ new2).
  split; [rewrite C2, C1, <- app_assoc; reflexivity|].
  rewrite emissions_app, saves_app, generator_calls_app, gen_observations_app.
  rewrite E1, E2, S1, (S2 eq_refl), GC1, GC2, O2, V4, G2, !app_nil_r.
  repeat split. exact G1.
Qed.

Lemma on_cadence_cons (checkpoint_freq e : Z) (tags : list Z) :
  on_cadence checkpoint_freq (e :: tags) =
    on_cadence checkpoint_freq [e] ++ on_cadence checkpoint_freq tags.
Proof.
  unfold on_cadence. change (e :: tags) with ([e] ++ tags).
  apply filter_app.
Qed.

(** Completed epochs [i + 1 .. i + n]. *)
Lemma epochs_ok (checkpoint_freq : Z) (noise_vector : option Noise)
    (noise_dim k : Z) (n i : nat) (t t' : trainer) :
  for_range i n (epoch_body checkpoint_freq noise_vector noise_dim k) t
    = (Ok tt, t') ->
  generated_image_dir t' = generated_image_dir t /\
  log_dir t' = log_dir t /\
  (is_Some (ckpt_manager t) -> is_Some (ckpt_manager t')) /\
  (is_Some noise_vector -> noise t' = noise t) /\
  length (generator_losses t') = (length (generator_losses t) + n)%nat /\
  length (discriminator_losses t') = (length (discriminator_losses t) + n)%nat /\
  length (discriminator_accuracies t')
    = (length (discriminator_accuracies t) + n)%nat /\
  exists new,
    calls t' = calls t ++ new /\
    emissions new = epoch_tags i n /\
    saves new = on_cadence checkpoint_freq (epoch_tags i n) /\
    (is_Some noise_vector ->
     generator_calls new = repeat (false, noise t) n).
Proof.
  revert i t. induction n as [|n IH]; intros i t Hrun.
  - simpl in Hrun. unfold ret in Hrun. injection Hrun as <-.
    rewrite !Nat.add_0_r. repeat split; auto.
    exists []. rewrite app_nil_r. repeat split.
  - simpl in Hrun. unfold bind in Hrun.
    destruct (epoch_body checkpoint_freq noise_vector noise_dim k i t)
      as [[[]|e] t1] eqn:Hbody; [|discriminate].
    destruct (epoch_body_ok _ _ _ _ _ _ _ Hbody)
      as (A1 & A2 & A3 & A4 & (d & A5) & (a & A6) & A7 & new1 & C1 & E1 & S1
          & GC1 & _).
    destruct (IH _ _ Hrun)
      as (B1 & B2 & B3 & B4 & B5 & B6 & B7 & new2 & C2 & E2 & S2 & GC2).
    split; [congruence|]. split; [congruence|]. split; [auto|].
    split; [intros Hn; rewrite (B4 Hn); auto|].
    split; [rewrite B5, A7, length_app; simpl; lia|].
    split; [rewrite B6, A5, length_app; simpl; lia|].
    split; [rewrite B7, A6, length_app; simpl; lia|].
    exists (new1 ++ new2).
    split; [rewrite C2, C1, <- app_assoc; reflexivity|].
    rewrite emissions_app, saves_app, generator_calls_app, E1, E2, S1, S2.
    split; [reflexivity|].
    split; [symmetry; apply (on_cadence_cons checkpoint_freq)|].
    intros Hn. rewrite GC1, (GC2 Hn), (A4 Hn). reflexivity.
Qed.

Lemma batch_loop_succeeds (noise_dim : Z) :
  source_delivers -> train_step_succeeds ->
  forall n i t, exists t', for_range i n (batch_step noise_dim) t = (Ok tt, t').
Proof.
  intros Hsrc Hstep. induction n as [|n IH]; intros i t.
  - eexists. reflexivity.
  - destruct (Hsrc (batch_generator t)) as (b & s & Hb).
    destruct (Hstep b noise_dim (params t)) as ([[g d] a] & p & Hp).
    assert (Hone : exists t1, batch_step noise_dim i t = (Ok tt, t1)).
    { unfold batch_step, next_, train_step, log, bind, modify.
      cbn [batch_generator with_calls]. rewrite Hb.
      cbn [params with_batch_generator with_calls]. rewrite Hp.
      eexists. reflexivity. }
    destruct Hone as (t1 & Hone). destruct (IH (Datatypes.S i) t1) as (t' & Ht').
    exists t'. simpl. unfold bind. rewrite Hone. exact Ht'.
Qed.

Lemma checkpoint_succeeds (checkpoint_freq : Z) (epoch : nat) (t : trainer) :
  saving_succeeds -> checkpoint_freq <> 0%Z -> is_Some (ckpt_manager t) ->
  exists t', checkpoint_on_cadence checkpoint_freq epoch t = (Ok tt, t').
Proof.
  intros Hsave Hfreq [c Hc]. unfold checkpoint_on_cadence, ckpt_manager_save.
  apply Z.eqb_neq in Hfreq. rewrite Hfreq.
  destruct ((Z.of_nat epoch + 1) mod checkpoint_freq =? 0)%Z.
  - rewrite Hc. destruct (Hsave (Z.of_nat epoch + 1)%Z (params t) c) as (c' & ->).
    eexists. reflexivity.
  - eexists. reflexivity.
Qed.

Lemma emission_succeeds (epoch : Z) (input : option Noise) (t : trainer) :
  generator_delivers input -> is_Some (generated_image_dir t) ->
  exists t', generate_and_plot_images epoch input t = (Ok tt, t').
Proof.
  intros Hgen [dir Hdir].
  destruct (Hgen (params t)) as (imgs & p' & Hg & Hlen).
  eexists. apply generate_and_plot_images_ok; eassumption.
Qed.

Lemma epoch_succeeds (checkpoint_freq : Z) (v : Noise) (noise_dim k : Z)
    (epoch : nat) (t : trainer) :
  source_delivers -> train_step_succeeds -> generator_delivers (Some v) ->
  saving_succeeds -> checkpoint_freq <> 0%Z ->
  is_Some (generated_image_dir t) -> is_Some (ckpt_manager t) ->
  noise t = Some v ->
  exists t', epoch_body checkpoint_freq (Some v) noise_dim k epoch t = (Ok tt, t').
Proof.
  intros Hsrc Hstep Hgen Hsave Hfreq Hdir Hck Hnoise.
  rewrite epoch_body_unfold.
  assert (Hem : exists t4,
             epoch_metrics_and_samples (Some v) noise_dim k epoch t = (Ok tt, t4)).
  { rewrite epoch_metrics_and_samples_unfold.
    destruct (batch_loop_succeeds noise_dim Hsrc Hstep
                (Z.to_nat (n_batches (batch_generator t))) 0%nat
                (metrics_reset t)) as (t2 & Hb).
    rewrite Hb. cbv zeta.
    destruct (batch_loop_progress _ _ _ _ _ _ Hb)
      as ((U1 & U2 & U3 & U4 & _) & _).
    cbn in U1, U4.
    change (noise_chosen (Some v) noise_dim k (summarised t2))
      with (summarised t2).
    change (noise (summarised t2)) with (noise t2). rewrite U4, Hnoise.
    apply emission_succeeds; [exact Hgen|].
    change (generated_image_dir (summarised t2)) with (generated_image_dir t2).
    rewrite U1. exact Hdir. }
  destruct Hem as (t4 & Hem). rewrite Hem.
  apply checkpoint_succeeds; [exact Hsave|exact Hfreq|].
  destruct (epoch_metrics_and_samples_ok _ _ _ _ _ _ Hem) as (_ & _ & A3 & _).
  auto.
Qed.

Lemma epochs_succeed (checkpoint_freq : Z) (v : Noise) (noise_dim k : Z) :
  source_delivers -> train_step_succeeds -> generator_delivers (Some v) ->
  saving_succeeds -> checkpoint_freq <> 0%Z ->
  forall n i t,
    is_Some (generated_image_dir t) -> is_Some (ckpt_manager t) ->
    noise t = Some v ->
    exists t',
      for_range i n (epoch_body checkpoint_freq (Some v) noise_dim k) t
        = (Ok tt, t').
Proof.
  intros Hsrc Hstep Hgen Hsave Hfreq.
  induction n as [|n IH]; intros i t Hdir Hck Hnoise.
  - eexists. reflexivity.
  - destruct (epoch_succeeds checkpoint_freq v noise_dim k i t
                Hsrc Hstep Hgen Hsave Hfreq Hdir Hck Hnoise) as (t1 & H1).
    destruct (epoch_body_ok _ _ _ _ _ _ _ H1) as (A1 & _ & A3 & A4 & _).
    destruct (IH (Datatypes.S i) t1) as (t' & Ht').
    + rewrite A1. exact Hdir.
    + auto.
    + rewrite A4 by eauto. exact Hnoise.
    + exists t'. simpl. unfold bind. rewrite H1. exact Ht'.
Qed.

(** *** The state of the checkpoint manager *)

Lemma retained_app (c c1 c2 : Ckpts) (ns1 ns2 : list Z) :
  retained c ns1 c1 -> retained c1 ns2 c2 -> retained c (ns1 ++ ns2) c2.
Proof.
  revert c. induction ns1 as [|n ns1 IH]; cbn; intros c H1 H2.
  - subst c1. exact H2.
  - destruct H1 as (p & c0 & Hs & Hr). exists p, c0.
    split; [exact Hs|]. apply IH; assumption.
Qed.

Lemma batch_loop_keeps_manager (noise_dim : Z) (n i : nat) (t t' : trainer)
    (r : result unit) :
  for_range i n (batch_step noise_dim) t = (r, t') ->
  ckpt_manager t' = ckpt_manager t.
Proof.
  apply (for_range_preserves (fun s s' => ckpt_manager s' = ckpt_manager s));
    [reflexivity|intros s1 s2 s3 H1 H2; congruence|].
  intros j s r0 s'.
  unfold batch_step, next_, train_step, log, bind, modify.
  cbn [batch_generator with_calls].
  destruct (next_batch (batch_generator s)) as [[b|e] src].
  - cbn [params with_batch_generator with_calls].
    destruct (train_step_hook b noise_dim (params s)) as [[[[g d] a]|e] p];
      intros [= <- <-]; reflexivity.
  - intros [= <- <-]. reflexivity.
Qed.

Lemma emission_keeps_manager (epoch : Z) (input : option Noise)
    (t t' : trainer) (r : result unit) :
  generate_and_plot_images epoch input t = (r, t') ->
  ckpt_manager t' = ckpt_manager t.
Proof.
  unfold generate_and_plot_images, call_generator, log, bind, modify, get,
    lift, ret, raise.
  cbn [params with_calls].
  destruct (generator false input (params t)) as [[imgs|e] p].
  - destruct (plot_cells 0 imgs []) as [fig|e].
    + cbn [generated_image_dir with_params with_calls].
      destruct (generated_image_dir t) as [dir|];
        intros [= <- <-]; reflexivity.
    + intros [= <- <-]. reflexivity.
  - intros [= <- <-]. reflexivity.
Qed.

Lemma reported_keeps_manager (t : trainer) :
  ckpt_manager (reported t) = ckpt_manager t.
Proof. unfold reported. destruct (log_dir t); reflexivity. Qed.

(** A cadence check that returns has saved the checkpoint of its epoch
    into the manager if the epoch is on the cadence, and has left the
    manager alone if it is not. *)
Lemma checkpoint_retained (checkpoint_freq : Z) (epoch : nat)
    (t t' : trainer) (c : Ckpts) :
  checkpoint_on_cadence checkpoint_freq epoch t = (Ok tt, t') ->
  ckpt_manager t = Some c ->
  exists c',
    ckpt_manager t' = Some c' /\
    retained c (on_cadence checkpoint_freq [Z.of_nat epoch + 1]%Z) c'.
Proof.
  unfold checkpoint_on_cadence, ckpt_manager_save, raise, ret, on_cadence.
  destruct (checkpoint_freq =? 0)%Z; [discriminate|].
  destruct ((Z.of_nat epoch + 1) mod checkpoint_freq =? 0)%Z eqn:Hmod.
  - apply Z.eqb_eq in Hmod. intros Hrun Hc. rewrite Hc in Hrun.
    destruct (ckpt_save (Z.of_nat epoch + 1) (params t) c) as [r0 c'] eqn:Hs.
    injection Hrun as -> <-. exists c'. split; [reflexivity|].
    cbn. destruct (decide _); [|contradiction].
    cbn. exists (params t), c'. split; [exact Hs|reflexivity].
  - apply Z.eqb_neq in Hmod. intros [= <-] Hc.
    exists c. split; [exact Hc|].
    cbn. destruct (decide _); [contradiction|reflexivity].
Qed.

Lemma epoch_body_retained (checkpoint_freq : Z) (noise_vector : option Noise)
    (noise_dim k : Z) (epoch : nat) (t t' : trainer) (c : Ckpts) :
  epoch_body checkpoint_freq noise_vector noise_dim k epoch t = (Ok tt, t') ->
  ckpt_manager t = Some c ->
  exists c',
    ckpt_manager t' = Some c' /\
    retained c (on_cadence checkpoint_freq [Z.of_nat epoch + 1]%Z) c'.
Proof.
  rewrite epoch_body_unfold.
  destruct (epoch_metrics_and_samples noise_vector noise_dim k epoch t)
    as [[[]|e] t4] eqn:Hem; [|discriminate].
  intros Hck Hc.
  apply (checkpoint_retained _ _ _ _ _ Hck).
  rewrite epoch_metrics_and_samples_unfold in Hem.
  destruct (for_range 0 (Z.to_nat (n_batches (batch_generator t)))
              (batch_step noise_dim) (metrics_reset t))
    as [[[]|e] t2] eqn:Hb; [|discriminate].
  cbv zeta in Hem.
  rewrite (emission_keeps_manager _ _ _ _ _ Hem).
  destruct (noise_chosen_summarised noise_vector noise_dim k t2)
    as (_ & _ & D3 & _).
  rewrite D3, (batch_loop_keeps_manager _ _ _ _ _ _ Hb). exact Hc.
Qed.

(** After completed epochs the manager holds the checkpoints of the
    epochs on the cadence, saved in order, and no other. *)
Lemma epochs_retained (checkpoint_freq : Z) (noise_vector : option Noise)
    (noise_dim k : Z) (n i : nat) (t t' : trainer) (c : Ckpts) :
  for_range i n (epoch_body checkpoint_freq noise_vector noise_dim k) t
    = (Ok tt, t') ->
  ckpt_manager t = Some c ->
  exists c',
    ckpt_manager t' = Some c' /\
    retained c (on_cadence checkpoint_freq (epoch_tags i n)) c'.
Proof.
  revert i t c. induction n as [|n IH]; intros i t c Hrun Hc.
  - simpl in Hrun. unfold ret in Hrun. injection Hrun as <-.
    exists c. split; [exact Hc|reflexivity].
  - simpl in Hrun. unfold bind in Hrun.
    destruct (epoch_body checkpoint_freq noise_vector noise_dim k i t)
      as [[[]|e] t1] eqn:Hbody; [|discriminate].
    destruct (epoch_body_retained _ _ _ _ _ _ _ _ Hbody Hc) as (c1 & Hc1 & R1).
    destruct (IH _ _ _ Hrun Hc1) as (c2 & Hc2 & R2).
    exists c2. split; [exact Hc2|].
    change (epoch_tags i (Datatypes.S n))
      with ((Z.of_nat i + 1)%Z :: epoch_tags (Datatypes.S i) n).
    rewrite on_cadence_cons. exact (retained_app _ _ _ _ _ R1 R2).
Qed.

End TrainerFacts.

(** Misconfigurations surface as Python would raise them: a cadence of
    zero is a [ZeroDivisionError] at the first cadence check (after the
    first emission); without a checkpoint directory the first save on
    cadence is an [AttributeError]. *)
Example train_loop_zero_cadence :
  let run := @train_loop (sample_env None None) 2 0 (Some 7%nat)
               (sample_trainer None None) in
  fst run = Raise ZeroDivisionError /\ emissions (calls (snd run)) = [1%Z].
Proof. vm_compute. split; reflexivity. Qed.

Example train_loop_no_checkpoint_dir :
  let run := @train_loop (sample_env None None) 2 1 (Some 7%nat)
               (with_ckpt_manager None (sample_trainer None None)) in
  fst run = Raise AttributeError /\ saves (calls (snd run)) = [].
Proof. vm_compute. split; reflexivity. Qed.

(** C2 (as amended).  With [epochs = 0] and a caller-supplied noise
    vector the loop pulls no batch, saves no checkpoint and leaves an
    empty history, but the run is not a no-op: the unconditional
    emission after the loop still calls the generator once, in inference
    mode, on the supplied noise.  The run returns normally exactly when
    an image directory is set and that call returns at most 16 images,
    and then exactly one sample grid, tagged with epoch 0, is emitted;
    otherwise the run raises and emits nothing. *)
Theorem train_loop_zero_epochs `{Env} (checkpoint_freq : Z) (v : Noise)
    (t : trainer) :
  let run := train_loop 0 checkpoint_freq (Some v) t in
  generator_losses (snd run) = [] /\
  discriminator_losses (snd run) = [] /\
  discriminator_accuracies (snd run) = [] /\
  (exists new,
     calls (snd run) = calls t ++ new /\
     pulls new = 0%nat /\
     saves new = [] /\
     generator_calls new = [(false, Some v)] /\
     emissions new = match fst run with Ok _ => [0%Z] | Raise _ => [] end) /\
  (fst run = Ok tt <->
   exists dir imgs p',
     generated_image_dir t = Some dir /\
     generator false (Some v) (params t) = (Ok imgs, p') /\
     (length imgs <= 16)%nat).
Proof.
  intros run.
  assert (Hrun : run =
            match generate_and_plot_images 0 (Some v)
                    (initialised (Some v) t) with
            | (Ok _, t2) => (Ok tt, reported t2)
            | (Raise e, t2) => (Raise e, t2)
            end).
  { subst run. rewrite train_loop_unfold. reflexivity. }
  pose proof (emission_returns_iff 0 (Some v) (initialised (Some v) t))
    as Hiff.
  change (generated_image_dir (initialised (Some v) t))
    with (generated_image_dir t) in Hiff.
  change (params (initialised (Some v) t)) with (params t) in Hiff.
  clearbody run. subst run.
  destruct (generate_and_plot_images 0 (Some v) (initialised (Some v) t))
    as [[[]|e] t2] eqn:Hem;
    destruct (emission_frame _ _ _ _ _ Hem)
      as ((_ & _ & _ & _ & V5 & V6 & V7) & _ & new & C & _ & S & P & GC & E);
    cbn [fst snd] in *.
  - destruct (reported_frame t2)
      as (R1 & R2 & R3 & _ & new3 & C3 & P3 & S3 & E3 & G3 & _).
    rewrite R1, R2, R3, V5, V6, V7.
    repeat (split; [reflexivity|]).
    split; [|exact Hiff].
    exists (new ++ new3).
    split; [rewrite C3, C, <- app_assoc; reflexivity|].
    rewrite pulls_app, saves_app, emissions_app, generator_calls_app.
    rewrite P, P3, S, S3, E, E3, GC, G3. repeat split.
  - rewrite V5, V6, V7.
    repeat (split; [reflexivity|]).
    split.
    + exists new. split; [exact C|]. repeat split; assumption.
    + split; [discriminate|].
      intros Hex. apply Hiff in Hex. discriminate.
Qed.

Lemma train_loop_zero_epochs_witness :
  let t := sample_trainer None None in
  let run := @train_loop (sample_env None None) 0 5 (Some 7%nat) t in
  generated_image_dir t = Some "images"%string /\
  @generator (sample_env None None) false (Some 7%nat) (params t)
    = (Ok (repeat [[Fin 7%Q]] 16), 0%nat) /\
  (length (repeat [[Fin 7%Q]] 16) <= 16)%nat /\
  fst run = Ok tt /\
  generator_losses (snd run) = [] /\
  exists new, calls (snd run) = calls t ++ new /\ emissions new = [0%Z].
Proof.
  intros t run.
  assert (H1 : generated_image_dir t = Some "images"%string) by reflexivity.
  assert (H2 : @generator (sample_env None None) false (Some 7%nat) (params t)
               = (Ok (repeat [[Fin 7%Q]] 16), 0%nat)) by reflexivity.
  assert (H3 : (length (repeat [[Fin 7%Q]] 16) <= 16)%nat) by (simpl; lia).
  split; [exact H1|]. split; [exact H2|]. split; [exact H3|].
  destruct (@train_loop_zero_epochs (sample_env None None) 5 7%nat t)
    as (Hg & _ & _ & (new & Hc & _ & _ & _ & He) & Hiff).
  assert (Hok : fst run = Ok tt).
  { apply Hiff. exists "images"%string, (repeat [[Fin 7%Q]] 16), 0%nat.
    split; [exact H1|]. split; [exact H2|exact H3]. }
  split; [exact Hok|]. split; [exact Hg|].
  exists new. split; [exact Hc|].
  exact (eq_trans He
           (f_equal (fun r : result unit =>
                       match r with Ok _ => [0%Z] | Raise _ => [] end) Hok)).
Defined.

(** C2, as stated, fails: on the sample collaborators a run with
    [epochs = 0] returns normally after one sample emission, tagged 0. *)
Lemma zero_epochs_emits_once :
  let run := @train_loop (sample_env None None) 0 5 (Some 7%nat)
               (sample_trainer None None) in
  fst run = Ok tt /\
  emissions (calls (snd run)) = [0%Z] /\
  emissions (calls (snd run)) <> emissions (calls (sample_trainer None None)).
Proof.
  vm_compute. repeat split. discriminate.
Qed.

(** C3.  With collaborators that do not fail, [epochs = 10],
    [checkpoint_freq = 5] and a caller-supplied noise vector,
    [train_loop] returns normally having saved exactly two checkpoints,
    numbered 5 and 10: the save was called for these two numbers and no
    other, and the checkpoint manager is left in the state that the two
    successful saves, 5 then 10, put it in.  It made exactly eleven
    sample emissions: one tagged with each of the epochs 1 to 10 and a
    final one tagged 10 again; all eleven come from the supplied noise
    with the generator in inference mode. *)
Theorem train_loop_ten_epochs_cadence_five `{Env} (v : Noise) (t : trainer) :
  source_delivers -> train_step_succeeds -> generator_delivers (Some v) ->
  saving_succeeds ->
  is_Some (generated_image_dir t) -> is_Some (ckpt_manager t) ->
  exists t',
    train_loop 10 5 (Some v) t = (Ok tt, t') /\
    length (generator_losses t') = 10%nat /\
    (exists c c',
       ckpt_manager t = Some c /\ ckpt_manager t' = Some c' /\
       retained c [5; 10]%Z c') /\
    exists new,
      calls t' = calls t ++ new /\
      saves new = [5; 10]%Z /\
      emissions new = [1; 2; 3; 4; 5; 6; 7; 8; 9; 10; 10]%Z /\
      generator_calls new = repeat (false, Some v) 11.
Proof.
  intros Hsrc Hstep Hgen Hsave Hdir Hck.
  rewrite train_loop_unfold.
  destruct (epochs_succeed 5 v 100 16 Hsrc Hstep Hgen Hsave ltac:(discriminate)
              (Z.to_nat 10) 0%nat (initialised (Some v) t) Hdir Hck eq_refl)
    as (t1 & Hloop).
  rewrite Hloop.
  destruct (epochs_ok _ _ _ _ _ _ _ _ Hloop)
    as (A1 & _ & _ & A4 & A5 & _ & _ & new1 & C1 & E1 & S1 & GC1).
  assert (Hnoise : noise t1 = Some v) by (rewrite A4 by eauto; reflexivity).
  rewrite Hnoise.
  destruct (emission_succeeds 10 (Some v) t1 Hgen) as (t2 & Hem).
  { rewrite A1. exact Hdir. }
  rewrite Hem.
  destruct (emission_frame _ _ _ _ _ Hem)
    as ((_ & _ & _ & _ & V5 & _) & _ & new2 & C2 & _ & S2 & _ & GC2 & E2).
  destruct (reported_frame t2)
    as (R1 & _ & _ & _ & new3 & C3 & _ & S3 & E3 & GC3 & _).
  eexists. split; [reflexivity|].
  split; [rewrite R1, V5, A5; reflexivity|].
  split.
  { destruct Hck as [c Hc].
    destruct (epochs_retained _ _ _ _ _ _ _ _ c Hloop Hc) as (c' & Hc' & Hret).
    exists c, c'. split; [exact Hc|].
    split; [|exact Hret].
    rewrite reported_keeps_manager, (emission_keeps_manager _ _ _ _ _ Hem).
    exact Hc'. }
  exists (new1 ++ new2 ++ new3).
  split; [rewrite C3, C2, C1, <- !app_assoc; reflexivity|].
  rewrite !saves_app, !emissions_app, !generator_calls_app.
  rewrite S1, S2, S3, E1, E2, E3, (GC1 ltac:(eauto)), GC2, GC3.
  repeat split.
Qed.

Lemma sample_source_delivers : @source_delivers (sample_env None None).
Proof.
  intros s. exists s, (S s). reflexivity.
Defined.

Lemma sample_train_step_succeeds : @train_step_succeeds (sample_env None None).
Proof.
  intros b nd p. eexists _, _. reflexivity.
Defined.

Lemma sample_generator_delivers (seed : nat) :
  @generator_delivers (sample_env None None) (Some seed).
Proof.
  intros p. eexists _, _. split; [reflexivity|]. simpl. lia.
Defined.

Lemma sample_saving_succeeds : @saving_succeeds (sample_env None None).
Proof.
  intros n p c. eexists. reflexivity.
Defined.

Lemma train_loop_ten_epochs_cadence_five_witness :
  let t := sample_trainer None None in
  @source_delivers (sample_env None None) /\
  @train_step_succeeds (sample_env None None) /\
  @generator_delivers (sample_env None None) (Some 7%nat) /\
  @saving_succeeds (sample_env None None) /\
  is_Some (generated_image_dir t) /\
  is_Some (ckpt_manager t) /\
  exists t',
    @train_loop (sample_env None None) 10 5 (Some 7%nat) t = (Ok tt, t') /\
    ckpt_manager t' = Some [5; 10]%Z /\
    saves (calls t') = [5; 10]%Z /\
    emissions (calls t') = [1; 2; 3; 4; 5; 6; 7; 8; 9; 10; 10]%Z.
Proof.
  intros t.
  assert (H5 : is_Some (generated_image_dir t)) by (eexists; reflexivity).
  assert (H6 : is_Some (ckpt_manager t)) by (eexists; reflexivity).
  split; [exact sample_source_delivers|].
  split; [exact sample_train_step_succeeds|].
  split; [exact (sample_generator_delivers 7)|].
  split; [exact sample_saving_succeeds|].
  split; [exact H5|]. split; [exact H6|].
  destruct (@train_loop_ten_epochs_cadence_five (sample_env None None) 7%nat t
              sample_source_delivers sample_train_step_succeeds
              (sample_generator_delivers 7) sample_saving_succeeds H5 H6)
    as (t' & Hrun & _ & (c & c' & Hc & Hc' & Hret) & new & Hcalls & Hs & He & _).
  exists t'. split; [exact Hrun|].
  split.
  { injection Hc as <-. rewrite Hc'.
    destruct Hret as (p1 & c1 & Hs1 & p2 & c2 & Hs2 & ->).
    injection Hs1 as <-. injection Hs2 as <-. reflexivity. }
  rewrite Hcalls. cbn [calls t sample_trainer app].
  split; assumption.
Defined.

(** C9.  An emission calls the generator exactly once, in inference
    mode ([training=False]), on the noise it is given; when that yields
    16 images, each image [i] goes through the inverse transform
    ([unscale_data] with its default range, whose returned array holds
    [unscaled img 0 1]) into cell [(i // 4, i % 4)], and the 16 cells
    are handed to the renderer together with the epoch tag.  The
    emission changes the trainable state in no other way than the
    inference call itself does. *)
Theorem emission_uses_inference_and_unscale `{Env} (t : trainer) (epoch : Z)
    (input : option Noise) (imgs : list (array Q)) (p' : Params)
    (dir : string) :
  generated_image_dir t = Some dir ->
  generator false input (params t) = (Ok imgs, p') ->
  length imgs = 16%nat ->
  exists t' grid,
    generate_and_plot_images epoch input t = (Ok tt, t') /\
    calls t' = calls t ++ [CGenerator false input; CSavefig dir epoch grid] /\
    params t' = p' /\
    length grid = 16%nat /\
    (forall i img, imgs !! i = Some img ->
       grid !! i = Some ((i / 4)%nat, (i mod 4)%nat, unscaled img 0%Q 1%Q) /\
       forall (h : store Q) (l : loc), h !! l = Some img ->
         exists r h',
           unscale_data (VArray l) 0%Q 1%Q h = (Ok (VArray r), h') /\
           h' !! r = Some (unscaled img 0%Q 1%Q)).
Proof.
  intros Hdir Hgen Hlen.
  exists (with_calls (calls t ++ [CGenerator false input;
                                  CSavefig dir epoch (grid_of imgs)])
            (with_params p' t)), (grid_of imgs).
  split; [apply generate_and_plot_images_ok; [assumption..|lia]|].
  split; [reflexivity|]. split; [reflexivity|].
  split; [unfold grid_of; rewrite length_imap; exact Hlen|].
  intros i img Hi. split.
  - unfold grid_of. rewrite list_lookup_imap, Hi. reflexivity.
  - intros h l Hl. eexists _, _.
    split; [apply unscale_data_run; exact Hl|]. apply lookup_insert_eq.
Qed.

Lemma emission_uses_inference_and_unscale_witness :
  let t := sample_trainer None None in
  generated_image_dir t = Some "images"%string /\
  @generator (sample_env None None) false (Some 7%nat) (params t)
    = (Ok (repeat [[Fin 7%Q]] 16), 0%nat) /\
  length (repeat [[Fin 7%Q]] 16 : list (array Q)) = 16%nat /\
  exists t' grid,
    @generate_and_plot_images (sample_env None None) 3 (Some 7%nat) t
      = (Ok tt, t') /\
    calls t' = [@CGenerator (sample_env None None) false (Some 7%nat);
                @CSavefig (sample_env None None) "images"%string 3 grid] /\
    length grid = 16%nat.
Proof.
  intros t.
  assert (H1 : generated_image_dir t = Some "images"%string) by reflexivity.
  assert (H2 : @generator (sample_env None None) false (Some 7%nat) (params t)
               = (Ok (repeat [[Fin 7%Q]] 16), 0%nat)) by reflexivity.
  assert (H3 : length (repeat [[Fin 7%Q]] 16 : list (array Q)) = 16%nat)
    by reflexivity.
  repeat (split; [assumption|]).
  destruct (@emission_uses_inference_and_unscale (sample_env None None) t 3
              (Some 7%nat) _ _ _ H1 H2 H3)
    as (t' & grid & Hrun & Hc & _ & Hg & _).
  exists t', grid. repeat split; assumption.
Defined.

(** ** Proofs: the running mean *)

Lemma observe_all_total (l : list Q) (m : Mean) :
  (total (observe_all l m) == total m + Qsum l)%Q.
Proof.
  revert m. induction l as [|a l IH]; intros m; simpl.
  - lra.
  - change (fold_left (fun acc v => update_state v acc) l (update_state a m))
      with (observe_all l (update_state a m)).
    rewrite IH. simpl. lra.
Qed.

Lemma observe_all_count (l : list Q) (m : Mean) :
  count (observe_all l m) = (count m + length l)%nat.
Proof.
  revert m. induction l as [|a l IH]; intros m; simpl.
  - lia.
  - change (fold_left (fun acc v => update_state v acc) l (update_state a m))
      with (observe_all l (update_state a m)).
    rewrite IH. simpl. lia.
Qed.

(** [Mean.result()] after observing [a1 .. aN] from empty, [N >= 1], is
    [(a1 + ... + aN) / N]. *)
Lemma mean_result_observe_all (l : list Q) :
  l <> [] ->
  (mean_result (observe_all l empty_mean)
   == Qsum l / inject_Z (Z.of_nat (length l)))%Q.
Proof.
  intros Hl. unfold mean_result.
  pose proof (observe_all_count l empty_mean) as Hc.
  pose proof (observe_all_total l empty_mean) as Ht.
  simpl in Hc, Ht.
  destruct (count (observe_all l empty_mean)) as [|n] eqn:E.
  - destruct l; [contradiction|simpl in Hc; lia].
  - rewrite Ht, Hc. field. intros Hz.
    assert (Hpos : (0 < inject_Z (Z.of_nat (length l)))%Q).
    { change 0%Q with (inject_Z 0). rewrite <- Zlt_Qlt.
      destruct l; [contradiction|simpl; lia]. }
    rewrite Hz in Hpos. apply (Qlt_irrefl 0). exact Hpos.
Qed.




(** ** Proofs: failures inside the epoch loop *)

(** A loop whose first [j] rounds complete and whose next round raises,
    raises there. *)
Lemma for_range_raise_at {S : Type} (body : nat -> SE S unit)
    (n i j : nat) (s s1 s2 : S) (e : exn) :
  (j < n)%nat ->
  for_range i j body s = (Ok tt, s1) ->
  body (i + j)%nat s1 = (Raise e, s2) ->
  for_range i n body s = (Raise e, s2).
Proof.
  intros Hj Hpre Hbody.
  replace n with (j + Datatypes.S (n - j - 1))%nat by lia.
  rewrite for_range_app. rewrite (bind_ok _ _ _ _ _ Hpre).
  cbn [for_range]. apply bind_raise. exact Hbody.
Qed.

Lemma batch_step_source_raises `{Env} (noise_dim : Z) (i : nat) (t : trainer)
    (e : exn) (s : Source) :
  next_batch (batch_generator t) = (Raise e, s) ->
  batch_step noise_dim i t =
    (Raise e, with_batch_generator s (with_calls (calls t ++ [CNext]) t)).
Proof.
  intros Hnext. unfold batch_step, next_, log, bind, modify.
  cbn [batch_generator with_calls]. rewrite Hnext. reflexivity.
Qed.

(** C7.  If, after [k] completed epochs, the batch source raises on a
    pull of the next epoch ([j] batches of that epoch having been
    trained on), [train_loop] raises that same exception, and the
    history it leaves behind is that of the [k] completed epochs: [k]
    entries per metric and none for the interrupted epoch, which also
    emits nothing and saves nothing. *)
Theorem batch_source_error_propagates `{Env} (epochs checkpoint_freq : Z)
    (noise_vector : option Noise) (t t1 t2 : trainer) (k j : nat)
    (e : exn) (s : Source) :
  (k < Z.to_nat epochs)%nat ->
  for_range 0 k (epoch_body checkpoint_freq noise_vector 100 16)
            (initialised noise_vector t) = (Ok tt, t1) ->
  (j < Z.to_nat (n_batches (batch_generator t1)))%nat ->
  for_range 0 j (batch_step 100) (metrics_reset t1) = (Ok tt, t2) ->
  next_batch (batch_generator t2) = (Raise e, s) ->
  exists t',
    train_loop epochs checkpoint_freq noise_vector t = (Raise e, t') /\
    generator_losses t' = generator_losses t1 /\
    discriminator_losses t' = discriminator_losses t1 /\
    discriminator_accuracies t' = discriminator_accuracies t1 /\
    length (generator_losses t') = k /\
    length (discriminator_losses t') = k /\
    length (discriminator_accuracies t') = k /\
    emissions (calls t') = emissions (calls t1) /\
    saves (calls t') = saves (calls t1).
Proof.
  intros Hk Hdone Hj Hbatches Hnext.
  set (t' := with_batch_generator s (with_calls (calls t2 ++ [CNext]) t2)).
  assert (Hinner :
            for_range 0 (Z.to_nat (n_batches (batch_generator t1)))
                      (batch_step 100) (metrics_reset t1) = (Raise e, t')).
  { eapply for_range_raise_at; [exact Hj|exact Hbatches|].
    apply batch_step_source_raises. exact Hnext. }
  assert (Hepoch :
            epoch_body checkpoint_freq noise_vector 100 16 k t1
            = (Raise e, t')).
  { rewrite epoch_body_unfold, epoch_metrics_and_samples_unfold, Hinner.
    reflexivity. }
  assert (Hloop :
            for_range 0 (Z.to_nat epochs)
              (epoch_body checkpoint_freq noise_vector 100 16)
              (initialised noise_vector t) = (Raise e, t')).
  { eapply for_range_raise_at; [exact Hk|exact Hdone|exact Hepoch]. }
  exists t'. split; [rewrite train_loop_unfold, Hloop; reflexivity|].
  destruct (batch_loop_progress _ _ _ _ _ _ Hbatches)
    as ((_ & _ & _ & _ & U5 & U6 & U7) & new & C & (S1 & E1 & _) & _).
  cbn in U5, U6, U7, C.
  destruct (epochs_ok _ _ _ _ _ _ _ _ Hdone)
    as (_ & _ & _ & _ & L1 & L2 & L3 & _).
  cbn in L1, L2, L3.
  change (generator_losses t') with (generator_losses t2).
  change (discriminator_losses t') with (discriminator_losses t2).
  change (discriminator_accuracies t') with (discriminator_accuracies t2).
  change (calls t') with (calls t2 ++ [CNext]).
  rewrite U5, U6, U7, C, !emissions_app, !saves_app, S1, E1.
  cbn. rewrite !app_nil_r. repeat split; assumption.
Qed.

Lemma batch_source_error_propagates_witness :
  let E := sample_env (Some 6%nat) None in
  let t := sample_trainer (Some 6%nat) None in
  let t1 := snd (for_range 0 1 (@epoch_body E 5 (Some 7%nat) 100 16)
                   (@initialised E (Some 7%nat) t)) in
  let t2 := snd (for_range 0 2 (@batch_step E 100) (metrics_reset t1)) in
  (1 < Z.to_nat 3)%nat /\
  for_range 0 1 (@epoch_body E 5 (Some 7%nat) 100 16)
            (@initialised E (Some 7%nat) t) = (Ok tt, t1) /\
  (2 < Z.to_nat (@n_batches E (batch_generator t1)))%nat /\
  for_range 0 2 (@batch_step E 100) (metrics_reset t1) = (Ok tt, t2) /\
  @next_batch E (batch_generator t2) = (Raise (Raised "IOError"), 6%nat) /\
  exists t',
    @train_loop E 3 5 (Some 7%nat) t = (Raise (Raised "IOError"), t') /\
    length (generator_losses t') = 1%nat /\
    emissions (calls t') = [1%Z].
Proof.
  intros E t t1 t2.
  assert (H1 : (1 < Z.to_nat 3)%nat) by (vm_compute; lia).
  assert (H2 : for_range 0 1 (@epoch_body E 5 (Some 7%nat) 100 16)
                 (@initialised E (Some 7%nat) t) = (Ok tt, t1))
    by (vm_compute; reflexivity).
  assert (H3 : (2 < Z.to_nat (@n_batches E (batch_generator t1)))%nat)
    by (vm_compute; lia).
  assert (H4 : for_range 0 2 (@batch_step E 100) (metrics_reset t1)
               = (Ok tt, t2)) by (vm_compute; reflexivity).
  assert (H5 : @next_batch E (batch_generator t2)
               = (Raise (Raised "IOError"), 6%nat))
    by (vm_compute; reflexivity).
  repeat (split; [assumption|]).
  destruct (@batch_source_error_propagates E 3 5 (Some 7%nat) t t1 t2 1 2
              _ _ H1 H2 H3 H4 H5)
    as (t' & Hrun & _ & _ & _ & Hlen & _ & _ & Hem & _).
  exists t'. split; [exact Hrun|]. split; [exact Hlen|].
  rewrite Hem. vm_compute. reflexivity.
Defined.

Lemma checkpoint_save_raises `{Env} (checkpoint_freq : Z) (epoch : nat)
    (t : trainer) (c c' : Ckpts) (e : exn) :
  checkpoint_freq <> 0%Z ->
  ((Z.of_nat epoch + 1) mod checkpoint_freq = 0)%Z ->
  ckpt_manager t = Some c ->
  ckpt_save (Z.of_nat epoch + 1) (params t) c = (Raise e, c') ->
  checkpoint_on_cadence checkpoint_freq epoch t =
    (Raise e,
     with_ckpt_manager (Some c')
       (with_calls (calls t ++ [CCheckpoint (Z.of_nat epoch + 1)]) t)).
Proof.
  intros Hfreq Hmod Hc Hsave. unfold checkpoint_on_cadence, ckpt_manager_save.
  apply Z.eqb_neq in Hfreq. apply Z.eqb_eq in Hmod.
  rewrite Hfreq, Hmod, Hc, Hsave. reflexivity.
Qed.

(** C8 (as amended).  A checkpoint save that fails at a cadence boundary
    is not caught: [train_loop] raises the exception of the save, and
    the failed save is the last call it makes (no later epoch, emission
    or save).  By then the epoch's summary is in the history ([k + 1]
    entries per metric) and the epoch's sample emission has been made;
    the failed attempt is never turned into a normal return. *)
Theorem checkpoint_failure_propagates `{Env} (epochs checkpoint_freq : Z)
    (noise_vector : option Noise) (t t1 t2 : trainer) (k : nat)
    (c c' : Ckpts) (e : exn) :
  (k < Z.to_nat epochs)%nat ->
  for_range 0 k (epoch_body checkpoint_freq noise_vector 100 16)
            (initialised noise_vector t) = (Ok tt, t1) ->
  epoch_metrics_and_samples noise_vector 100 16 k t1 = (Ok tt, t2) ->
  checkpoint_freq <> 0%Z ->
  ((Z.of_nat k + 1) mod checkpoint_freq = 0)%Z ->
  ckpt_manager t2 = Some c ->
  ckpt_save (Z.of_nat k + 1) (params t2) c = (Raise e, c') ->
  exists t',
    train_loop epochs checkpoint_freq noise_vector t = (Raise e, t') /\
    calls t' = calls t2 ++ [CCheckpoint (Z.of_nat k + 1)] /\
    length (generator_losses t') = Datatypes.S k /\
    length (discriminator_losses t') = Datatypes.S k /\
    length (discriminator_accuracies t') = Datatypes.S k /\
    emissions (calls t') = emissions (calls t1) ++ [Z.of_nat k + 1]%Z.
Proof.
  intros Hk Hdone Hepoch Hfreq Hmod Hc Hsave.
  set (t' := with_ckpt_manager (Some c')
               (with_calls (calls t2 ++ [CCheckpoint (Z.of_nat k + 1)]) t2)).
  assert (Hbody :
            epoch_body checkpoint_freq noise_vector 100 16 k t1
            = (Raise e, t')).
  { rewrite epoch_body_unfold, Hepoch.
    apply (checkpoint_save_raises checkpoint_freq k t2 c c' e); assumption. }
  assert (Hloop :
            for_range 0 (Z.to_nat epochs)
              (epoch_body checkpoint_freq noise_vector 100 16)
              (initialised noise_vector t) = (Raise e, t')).
  { eapply for_range_raise_at; [exact Hk|exact Hdone|exact Hbody]. }
  exists t'. split; [rewrite train_loop_unfold, Hloop; reflexivity|].
  split; [reflexivity|].
  destruct (epoch_metrics_and_samples_ok _ _ _ _ _ _ Hepoch)
    as (_ & _ & _ & _ & (d & A5) & (a & A6) & A7 & new & C & E1 & _).
  destruct (epochs_ok _ _ _ _ _ _ _ _ Hdone)
    as (_ & _ & _ & _ & L1 & L2 & L3 & _).
  cbn in L1, L2, L3.
  change (generator_losses t') with (generator_losses t2).
  change (discriminator_losses t') with (discriminator_losses t2).
  change (discriminator_accuracies t') with (discriminator_accuracies t2).
  change (calls t') with (calls t2 ++ [CCheckpoint (Z.of_nat k + 1)]).
  rewrite A5, A6, A7, C, !length_app, !emissions_app, E1, L1, L2, L3.
  cbn. rewrite app_nil_r. repeat split; lia.
Qed.

Lemma checkpoint_failure_propagates_witness :
  let E := sample_env None (Some 2%Z) in
  let t := sample_trainer None (Some 2%Z) in
  let t1 := snd (for_range 0 1 (@epoch_body E 1 (Some 7%nat) 100 16)
                   (@initialised E (Some 7%nat) t)) in
  let t2 := snd (@epoch_metrics_and_samples E (Some 7%nat) 100 16 1 t1) in
  (1 < Z.to_nat 3)%nat /\
  for_range 0 1 (@epoch_body E 1 (Some 7%nat) 100 16)
            (@initialised E (Some 7%nat) t) = (Ok tt, t1) /\
  @epoch_metrics_and_samples E (Some 7%nat) 100 16 1 t1 = (Ok tt, t2) /\
  1%Z <> 0%Z /\
  ((Z.of_nat 1 + 1) mod 1 = 0)%Z /\
  ckpt_manager t2 = Some [1%Z] /\
  @ckpt_save E (Z.of_nat 1 + 1) (params t2) [1%Z]
    = (Raise (Raised "OSError"), [1%Z]) /\
  exists t',
    @train_loop E 3 1 (Some 7%nat) t = (Raise (Raised "OSError"), t') /\
    length (generator_losses t') = 2%nat /\
    emissions (calls t') = [1; 2]%Z.
Proof.
  intros E t t1 t2.
  assert (H1 : (1 < Z.to_nat 3)%nat) by (vm_compute; lia).
  assert (H2 : for_range 0 1 (@epoch_body E 1 (Some 7%nat) 100 16)
                 (@initialised E (Some 7%nat) t) = (Ok tt, t1))
    by (vm_compute; reflexivity).
  assert (H3 : @epoch_metrics_and_samples E (Some 7%nat) 100 16 1 t1
               = (Ok tt, t2)) by (vm_compute; reflexivity).
  assert (H4 : 1%Z <> 0%Z) by discriminate.
  assert (H5 : ((Z.of_nat 1 + 1) mod 1 = 0)%Z) by reflexivity.
  assert (H6 : ckpt_manager t2 = Some [1%Z]) by (vm_compute; reflexivity).
  assert (H7 : @ckpt_save E (Z.of_nat 1 + 1) (params t2) [1%Z]
               = (Raise (Raised "OSError"), [1%Z]))
    by (vm_compute; reflexivity).
  repeat (split; [assumption|]).
  destruct (@checkpoint_failure_propagates E 3 1 (Some 7%nat) t t1 t2 1
              _ _ _ H1 H2 H3 H4 H5 H6 H7)
    as (t' & Hrun & _ & Hlen & _ & _ & Hem).
  exists t'. split; [exact Hrun|]. split; [exact Hlen|].
  rewrite Hem. vm_compute. reflexivity.
Defined.

(** C8, as stated, fails: on the sample collaborators, with a save of
    checkpoint 2 that raises, a run of three epochs at cadence 1 does
    not continue to epoch 3 but raises out of [train_loop] after the
    second epoch's emission. *)
Lemma failed_save_stops_training :
  let run := @train_loop (sample_env None (Some 2%Z)) 3 1 (Some 7%nat)
               (sample_trainer None (Some 2%Z)) in
  fst run = Raise (Raised "OSError") /\
  emissions (calls (snd run)) = [1; 2]%Z /\
  saves (calls (snd run)) = [1; 2]%Z /\
  length (generator_losses (snd run)) = 2%nat.
Proof.
  vm_compute. repeat split.
Qed.

(** ** Further properties: [scale_to_range] *)

Lemma map_length_amap {K : Type} (f : fl K -> fl K) (a : array K) :
  map length (amap f a) = map length a.
Proof.
  unfold amap. rewrite map_map. apply map_ext. intros row. apply length_map.
Qed.

Lemma concat_nil_amax {K : Type} `{Scalar K} (a : array K) :
  concat a = [] -> amax a = Raise ValueError /\ amin a = Raise ValueError.
Proof. intros Ha. unfold amax, amin. rewrite Ha. split; reflexivity. Qed.

Lemma amax_amin_of_rows_ex (vals : list (list Q)) :
  concat vals <> [] ->
  exists mx mn, amax (of_rows vals) = Ok (Fin mx) /\
                amin (of_rows vals) = Ok (Fin mn).
Proof.
  intros Hne. unfold amax, amin. rewrite concat_of_rows.
  destruct (concat vals) as [|v0 vs]; [contradiction|]. simpl.
  destruct (fold_fmax_fin vs v0) as (mx & -> & _).
  destruct (fold_fmin_fin vs v0) as (mn & -> & _).
  eauto.
Qed.

(** X1.  [scale_to_range] has no side effect on the objects it is
    given: when it returns, the result is a new array of the shape of
    the input and every array that existed before, the input included,
    is as it was; when it raises, the store is unchanged. *)
Theorem scale_to_range_leaves_store {K : Type} `{Scalar K} (h : store K)
    (matrix : loc) (new_min new_max : K) :
  match scale_to_range matrix new_min new_max h with
  | (Ok l, h') =>
      h !! l = None /\
      (forall l', l' <> l -> h' !! l' = h !! l') /\
      exists a out,
        h !! matrix = Some a /\ h' !! matrix = Some a /\
        h' !! l = Some out /\ map length out = map length a
  | (Raise _, h') => h' = h
  end.
Proof.
  unfold scale_to_range, bind, load, lift, new_array.
  destruct (h !! matrix) as [a|] eqn:Ha; [|reflexivity].
  destruct (amax a) as [mx|e]; [|reflexivity].
  destruct (amin a) as [mn|e]; [|reflexivity].
  split; [apply fresh_lookup|].
  split; [intros l' Hl'; apply lookup_insert_ne; congruence|].
  eexists a, _. split; [reflexivity|].
  split.
  { rewrite lookup_insert_ne; [exact Ha|].
    apply not_eq_sym. eapply fresh_ne. exact Ha. }
  split; [apply lookup_insert_eq|].
  rewrite !map_length_amap. reflexivity.
Qed.

(** X2.  On an array without elements (no rows, or only empty rows)
    [scale_to_range] raises ValueError, from [matrix.max()], and
    allocates nothing. *)
Theorem scale_to_range_empty_raises {K : Type} `{Scalar K} (h : store K)
    (matrix : loc) (a : array K) (new_min new_max : K) :
  h !! matrix = Some a ->
  concat a = [] ->
  scale_to_range matrix new_min new_max h = (Raise ValueError, h).
Proof.
  intros Ha Hemp. unfold scale_to_range, bind, load, lift.
  rewrite Ha. destruct (concat_nil_amax a Hemp) as [-> _]. reflexivity.
Qed.

Lemma scale_to_range_empty_raises_witness :
  let h : store Q := {[ 1%positive := [[]; []] ]} in
  h !! 1%positive = Some [[]; []] /\
  concat ([[]; []] : array Q) = [] /\
  scale_to_range 1%positive (-1)%Q 1%Q h = (Raise ValueError, h).
Proof.
  intros h.
  assert (H1 : h !! 1%positive = Some [[]; []]) by reflexivity.
  assert (H2 : concat ([[]; []] : array Q) = []) by reflexivity.
  split; [exact H1|]. split; [exact H2|].
  exact (scale_to_range_empty_raises h 1%positive [[]; []] (-1)%Q 1%Q H1 H2).
Defined.

(** X3.  On a non-empty array whose finite entries are all equal,
    [scale_to_range] does not raise: it returns a new array of the same
    shape in which every entry is [nan] (the [0 / 0] of the
    normalisation), whatever the target range. *)
Theorem scale_to_range_constant_gives_nan (h : store Q) (matrix : loc)
    (vals : list (list Q)) (c new_min new_max : Q) :
  h !! matrix = Some (of_rows vals) ->
  concat vals <> [] ->
  (forall v, v ∈ concat vals -> (v == c)%Q) ->
  exists (l : loc) (h' : store Q),
    scale_to_range matrix new_min new_max h = (Ok l, h') /\
    h' !! l = Some (map (map (fun _ => NaN)) vals) /\
    h' !! matrix = Some (of_rows vals).
Proof.
  intros Hm Hne Hconst.
  destruct (amax_amin_of_rows_ex vals Hne) as (mx & mn & Hmax & Hmin).
  destruct (amax_of_rows _ _ Hmax) as [Hmx _].
  destruct (amin_of_rows _ _ Hmin) as [Hmn _].
  pose proof (Hconst _ Hmx) as Emx. pose proof (Hconst _ Hmn) as Emn.
  do 2 eexists. split.
  { unfold scale_to_range, bind, load, lift, new_array.
    rewrite Hm, Hmax, Hmin. reflexivity. }
  split.
  { rewrite lookup_insert_eq. f_equal.
    unfold amap, of_rows. rewrite !map_map_rows.
    apply map_ext_in. intros row Hrow. apply map_ext_in. intros v Hv.
    assert (Ev : (v == c)%Q).
    { apply Hconst, list_elem_of_In, in_concat. eauto. }
    change (fsub (Fin v) (Fin mn)) with (Fin (v - mn)%Q).
    change (fsub (Fin mx) (Fin mn)) with (Fin (mx - mn)%Q).
    assert (Hz : fdiv (Fin (v - mn)%Q) (Fin (mx - mn)%Q) = NaN).
    { simpl. unfold inf_of_sign, s_zero. simpl.
      assert (E1 : Qeq_bool (mx - mn) (inject_Z 0) = true).
      { apply Qeq_bool_iff. rewrite Emx, Emn. unfold inject_Z. lra. }
      assert (E2 : Qle_bool (v - mn) (inject_Z 0) = true).
      { apply Qle_bool_iff. rewrite Ev, Emn. unfold inject_Z. lra. }
      assert (E3 : Qle_bool (inject_Z 0) (v - mn) = true).
      { apply Qle_bool_iff. rewrite Ev, Emn. unfold inject_Z. lra. }
      rewrite E1, E2, E3. reflexivity. }
    rewrite Hz. reflexivity. }
  rewrite lookup_insert_ne; [exact Hm|].
  apply not_eq_sym. eapply fresh_ne. exact Hm.
Qed.

Lemma scale_to_range_constant_gives_nan_witness :
  let h : store Q := {[ 1%positive := of_rows [[3; 3]; [3]]%Q ]} in
  h !! 1%positive = Some (of_rows [[3; 3]; [3]]%Q) /\
  concat [[3; 3]; [3]]%Q <> [] /\
  (forall v, v ∈ concat [[3; 3]; [3]]%Q -> (v == 3)%Q) /\
  exists (l : loc) (h' : store Q),
    scale_to_range 1%positive 0%Q 255%Q h = (Ok l, h') /\
    h' !! l = Some [[NaN; NaN]; [NaN]].
Proof.
  intros h.
  assert (H1 : h !! 1%positive = Some (of_rows [[3; 3]; [3]]%Q))
    by reflexivity.
  assert (H2 : concat [[3; 3]; [3]]%Q <> []) by discriminate.
  assert (H3 : forall v, v ∈ concat [[3; 3]; [3]]%Q -> (v == 3)%Q).
  { intros v Hv. simpl in Hv.
    repeat (apply elem_of_cons in Hv as [->|Hv]; [reflexivity|]).
    apply not_elem_of_nil in Hv. contradiction. }
  repeat (split; [assumption|]).
  destruct (scale_to_range_constant_gives_nan h 1%positive _ 3%Q 0%Q 255%Q
              H1 H2 H3) as (l & h' & Hrun & Hl & _).
  exists l, h'. split; assumption.
Defined.

Lemma rescaled_le (mn mx lo hi v v' : Q) :
  (mn < mx)%Q -> (lo <= hi)%Q -> (v <= v')%Q ->
  (rescaled mn mx lo hi v <= rescaled mn mx lo hi v')%Q.
Proof.
  intros Hd Hr Hv. unfold rescaled.
  set (d := (mx - mn)%Q).
  assert (Hdpos : (0 < d)%Q) by (unfold d; lra).
  assert (Ht : ((v - mn) / d <= (v' - mn) / d)%Q).
  { apply Qle_shift_div_l; [exact Hdpos|].
    assert (E : ((v - mn) / d * d == v - mn)%Q) by (field; lra).
    rewrite E. lra. }
  nra.
Qed.

Lemma rescaled_ge (mn mx lo hi v v' : Q) :
  (mn < mx)%Q -> (hi <= lo)%Q -> (v <= v')%Q ->
  (rescaled mn mx lo hi v' <= rescaled mn mx lo hi v)%Q.
Proof.
  intros Hd Hr Hv. unfold rescaled.
  set (d := (mx - mn)%Q).
  assert (Hdpos : (0 < d)%Q) by (unfold d; lra).
  assert (Ht : ((v - mn) / d <= (v' - mn) / d)%Q).
  { apply Qle_shift_div_l; [exact Hdpos|].
    assert (E : ((v - mn) / d * d == v - mn)%Q) by (field; lra).
    rewrite E. lra. }
  nra.
Qed.

Lemma rescaled_lt (mn mx lo hi v v' : Q) :
  (mn < mx)%Q -> (lo < hi)%Q -> (v < v')%Q ->
  (rescaled mn mx lo hi v < rescaled mn mx lo hi v')%Q.
Proof.
  intros Hd Hr Hv. unfold rescaled.
  set (d := (mx - mn)%Q).
  assert (Hdpos : (0 < d)%Q) by (unfold d; lra).
  assert (Ht : ((v - mn) / d < (v' - mn) / d)%Q).
  { apply Qlt_shift_div_l; [exact Hdpos|].
    assert (E : ((v - mn) / d * d == v - mn)%Q) by (field; lra).
    rewrite E. lra. }
  nra.
Qed.

Lemma extremes_ordered (vals : list (list Q)) (mn mx : Q) :
  amax (of_rows vals) = Ok (Fin mx) ->
  amin (of_rows vals) = Ok (Fin mn) ->
  ~ (mx == mn)%Q -> (mn < mx)%Q.
Proof.
  intros Hmax Hmin Hne.
  destruct (amax_of_rows _ _ Hmax) as [_ Hub].
  destruct (amin_of_rows _ _ Hmin) as [Hin _].
  pose proof (Hub _ Hin) as Hle.
  apply Qle_lt_or_eq in Hle as [Hlt|Heq]; [exact Hlt|].
  exfalso. apply Hne. symmetry. exact Heq.
Qed.

Lemma aget_of_rows_map (f : Q -> Q) (vals : list (list Q)) (i j : nat) (v : Q) :
  aget (of_rows vals) i j = Some (Fin v) ->
  aget (of_rows (map (map f) vals)) i j = Some (Fin (f v)).
Proof.
  rewrite !aget_of_rows, lookup_map.
  destruct (vals !! i) as [row|]; simpl; [|discriminate].
  rewrite lookup_map.
  destruct (row !! j) as [w|]; simpl; [|discriminate].
  intros [= ->]. reflexivity.
Qed.



Lemma fold_fmax_map (f : Q -> Q) (vs : list Q) (v0 m : Q) :
  (forall x y, Qle_bool (f x) (f y) = Qle_bool x y) ->
  fold_left fmax (map Fin vs) (Fin v0) = Fin m ->
  fold_left fmax (map Fin (map f vs)) (Fin (f v0)) = Fin (f m).
Proof.
  intros Hf. revert v0. induction vs as [|v vs IH]; intros v0; simpl.
  - intros [= ->]. reflexivity.
  - rewrite Hf. destruct (Qle_bool v v0); simpl; apply IH.
Qed.

Lemma fold_fmin_map (f : Q -> Q) (vs : list Q) (v0 m : Q) :
  (forall x y, Qle_bool (f x) (f y) = Qle_bool x y) ->
  fold_left fmin (map Fin vs) (Fin v0) = Fin m ->
  fold_left fmin (map Fin (map f vs)) (Fin (f v0)) = Fin (f m).
Proof.
  intros Hf. revert v0. induction vs as [|v vs IH]; intros v0; simpl.
  - intros [= ->]. reflexivity.
  - rewrite Hf. destruct (Qle_bool v0 v); simpl; apply IH.
Qed.

(** The extremes of an array mapped through an increasing function are
    the images of its extremes. *)
Lemma amax_amin_map (f : Q -> Q) (vals : list (list Q)) (mn mx : Q) :
  (forall x y, Qle_bool (f x) (f y) = Qle_bool x y) ->
  amax (of_rows vals) = Ok (Fin mx) ->
  amin (of_rows vals) = Ok (Fin mn) ->
  amax (of_rows (map (map f) vals)) = Ok (Fin (f mx)) /\
  amin (of_rows (map (map f) vals)) = Ok (Fin (f mn)).
Proof.
  intros Hf. unfold amax, amin. rewrite !concat_of_rows, <- concat_map.
  destruct (concat vals) as [|v0 vs]; simpl; [discriminate|].
  intros Hmax Hmin.
  destruct (fold_fmax_fin vs v0) as (a & Ha & _).
  destruct (fold_fmin_fin vs v0) as (b & Hb & _).
  rewrite Ha in Hmax. rewrite Hb in Hmin.
  injection Hmax as ->. injection Hmin as ->.
  rewrite (fold_fmax_map f vs v0 mx Hf Ha), (fold_fmin_map f vs v0 mn Hf Hb).
  split; reflexivity.
Qed.

Lemma rescaled_reflects_le (mn mx lo hi : Q) :
  (mn < mx)%Q -> (lo < hi)%Q ->
  forall x y,
    Qle_bool (rescaled mn mx lo hi x) (rescaled mn mx lo hi y) = Qle_bool x y.
Proof.
  intros Hd Hr x y. destruct (Qle_bool x y) eqn:E.
  - apply Qle_bool_iff in E. apply Qle_bool_iff.
    apply rescaled_le; [exact Hd|lra|exact E].
  - apply not_true_is_false. intros Hc. apply Qle_bool_iff in Hc.
    assert (Hyx : (y < x)%Q).
    { apply Qnot_le_lt. intros Hle. apply Qle_bool_iff in Hle. congruence. }
    pose proof (rescaled_lt mn mx lo hi y x Hd Hr Hyx). lra.
Qed.

Lemma rescaled_fixes (L H lo hi w : Q) :
  (L == lo)%Q -> (H == hi)%Q -> (lo < hi)%Q ->
  (rescaled L H lo hi w == w)%Q.
Proof.
  intros HL HH Hr. unfold rescaled. rewrite HL, HH. field. lra.
Qed.



(** ** Further properties: [unscale_data] *)

Lemma aget_map_rows (f : Q -> fl Q) (vals : list (list Q)) (i j : nat) :
  aget (map (map f) vals) i j = f <$> (vals !! i ≫= (fun row => row !! j)).
Proof.
  unfold aget. rewrite lookup_map.
  destruct (vals !! i) as [row|]; simpl; [|reflexivity].
  apply lookup_map.
Qed.





(** ** Further properties: [normalize_to_zero_mean_unit_variance] *)

Lemma normalized_row_length (clip_std : bool) (row : list (fl R)) :
  length (normalized_row clip_std row) = length row.
Proof.
  unfold normalized_row. destruct clip_std; rewrite !length_map; reflexivity.
Qed.

(** X8.  The row-wise normalisation never raises on an existing array
    and has no side effect on it: the result is a new array with the
    same row lengths as the input, and every array that existed before,
    the input included, is as it was. *)
Theorem normalize_leaves_store (h : store R) (data : loc) (clip_std : bool) :
  match normalize_to_zero_mean_unit_variance data clip_std h with
  | (Ok n, h') =>
      h !! n = None /\
      (forall l', l' <> n -> h' !! l' = h !! l') /\
      exists a out,
        h !! data = Some a /\ h' !! data = Some a /\
        h' !! n = Some out /\ map length out = map length a
  | (Raise _, h') => h !! data = None /\ h' = h
  end.
Proof.
  destruct (h !! data) as [a|] eqn:Ha.
  - rewrite (normalize_run h data a clip_std Ha).
    split; [apply fresh_lookup|].
    split; [intros l' Hl'; apply lookup_insert_ne; congruence|].
    exists a, (map (normalized_row clip_std) a).
    split; [reflexivity|].
    split.
    { rewrite lookup_insert_ne; [exact Ha|].
      apply not_eq_sym. eapply fresh_ne. exact Ha. }
    split; [apply lookup_insert_eq|].
    rewrite map_map. apply map_ext. intros row.
    apply normalized_row_length.
  - unfold normalize_to_zero_mean_unit_variance, bind, load. rewrite Ha.
    split; reflexivity.
Qed.

Lemma Rsum_const (c : R) (row : list R) :
  (forall x, x ∈ row -> x = c) ->
  Rsum row = (IZR (Z.of_nat (length row)) * c)%R.
Proof.
  induction row as [|x row IH]; intros Hc.
  - simpl. change (Z.of_nat 0) with 0%Z. Lra.lra.
  - simpl Rsum. simpl length. rewrite Nat2Z.inj_succ, succ_IZR.
    rewrite IH by (intros y Hy; apply Hc; right; exact Hy).
    rewrite (Hc x) by left. Lra.lra.
Qed.

Lemma rmean_const (c : R) (row : list R) :
  row <> [] -> (forall x, x ∈ row -> x = c) -> rmean row = c.
Proof.
  intros Hne Hc. unfold rmean. rewrite (Rsum_const c row Hc).
  pose proof (length_pos_IZR row Hne). field. Lra.lra.
Qed.

Lemma rvar_const (c : R) (row : list R) :
  row <> [] -> (forall x, x ∈ row -> x = c) -> rvar row = 0%R.
Proof.
  intros Hne Hc. unfold rvar. rewrite (rmean_const c row Hne Hc).
  apply (rmean_const 0%R).
  - destruct row; [contradiction|discriminate].
  - intros y Hy. apply list_elem_of_In, in_map_iff in Hy as (x & <- & Hx).
    rewrite (Hc x) by (apply list_elem_of_In; exact Hx). Lra.lra.
Qed.

Lemma normalized_row_const (clip_std : bool) (c : R) (row : list R) :
  row <> [] -> (forall x, x ∈ row -> x = c) ->
  normalized_row clip_std (map Fin row) = map (fun _ => NaN) row.
Proof.
  intros Hne Hc. unfold normalized_row.
  rewrite (fmean_fin row Hne), (fstd_fin row Hne).
  rewrite (rmean_const c row Hne Hc), (rvar_const c row Hne Hc), sqrt_0.
  assert (Hnan : forall x, x ∈ row ->
            fdiv (fsub (Fin x) (Fin c)) (Fin 0%R) = @NaN R).
  { intros x Hx. rewrite (Hc x Hx).
    unfold fsub, fdiv, inf_of_sign, s_zero. simpl.
    destruct (Req_dec_T 0 0) as [_|E]; [|contradiction].
    replace (c - c)%R with 0%R by Lra.lra.
    destruct (Rlt_dec 0 0) as [E|_]; [Lra.lra|reflexivity]. }
  rewrite !map_map. destruct clip_std.
  - rewrite map_map. apply map_ext_in. intros x Hx.
    rewrite Hnan by (apply list_elem_of_In; exact Hx). reflexivity.
  - apply map_ext_in. intros x Hx.
    apply Hnan, list_elem_of_In. exact Hx.
Qed.



Lemma normalized_row_idempotent (clip_std : bool) (r : list R) (s : R) :
  fstd (map Fin r) = Fin s -> s <> 0%R ->
  normalized_row clip_std (normalized_row clip_std (map Fin r))
  = normalized_row clip_std (map Fin r).
Proof.
  intros Hs Hs0.
  destruct (normalized_row_stats clip_std r s Hs Hs0) as [Hmean Hstd].
  destruct (normalized_row_fin clip_std r s Hs Hs0) as (Hr & _ & Hrow).
  rewrite Hrow in Hmean, Hstd |- *.
  set (ys := map (fun x => ((x - rmean r)
                            * (if clip_std then / s * / 3 else / s))%R) r)
    in *.
  assert (Hys : ys <> []).
  { unfold ys. destruct r; [contradiction|discriminate]. }
  assert (Hc0 : (if clip_std then 1 / 3 else 1)%R <> 0%R)
    by (destruct clip_std; Lra.lra).
  destruct (normalized_row_fin clip_std ys _ Hstd Hc0) as (_ & _ & ->).
  rewrite (fmean_fin ys Hys) in Hmean. injection Hmean as Hmean.
  rewrite Hmean. f_equal.
  rewrite <- (map_id ys) at 2. apply map_ext. intros y.
  destruct clip_std; field.
Qed.



Lemma Rsum_map_affine (a b : R) (l : list R) :
  Rsum (map (fun x => a * x + b)%R l)
  = (a * Rsum l + IZR (Z.of_nat (length l)) * b)%R.
Proof.
  induction l as [|x l IH].
  - simpl. change (Z.of_nat 0) with 0%Z. Lra.lra.
  - simpl map. simpl Rsum. rewrite IH. simpl length.
    rewrite Nat2Z.inj_succ, succ_IZR. ring.
Qed.

Lemma rmean_affine (a b : R) (l : list R) :
  l <> [] -> rmean (map (fun x => a * x + b)%R l) = (a * rmean l + b)%R.
Proof.
  intros Hl. pose proof (length_pos_IZR l Hl).
  unfold rmean. rewrite length_map, Rsum_map_affine. field. Lra.lra.
Qed.

Lemma rvar_affine (a b : R) (l : list R) :
  l <> [] -> rvar (map (fun x => a * x + b)%R l) = (a * a * rvar l)%R.
Proof.
  intros Hl. unfold rvar. rewrite (rmean_affine a b l Hl), map_map.
  rewrite (map_ext _ (fun x => (x - rmean l) * (x - rmean l) * (a * a))%R).
  2:{ intros x. ring. }
  rewrite (rmean_scale (fun x => (x - rmean l) * (x - rmean l))%R). ring.
Qed.

Lemma normalized_row_affine (clip_std : bool) (a b : R) (r : list R) (s : R) :
  (0 < a)%R -> fstd (map Fin r) = Fin s -> s <> 0%R ->
  normalized_row clip_std (map Fin (map (fun x => a * x + b)%R r))
  = normalized_row clip_std (map Fin r).
Proof.
  intros Ha Hs Hs0.
  destruct (normalized_row_fin clip_std r s Hs Hs0) as (Hr & Hsq & ->).
  assert (Hr' : map (fun x => a * x + b)%R r <> []).
  { destruct r; [contradiction|discriminate]. }
  assert (Hs' : fstd (map Fin (map (fun x => a * x + b)%R r)) = Fin (a * s)%R).
  { rewrite (fstd_fin _ Hr'), (rvar_affine a b r Hr). f_equal.
    rewrite sqrt_mult by (try apply rvar_nonneg; try exact Hr; Lra.nra).
    rewrite sqrt_square by Lra.lra. rewrite Hsq. reflexivity. }
  assert (Hs0' : (a * s)%R <> 0%R) by Lra.nra.
  destruct (normalized_row_fin clip_std _ _ Hs' Hs0') as (_ & _ & ->).
  rewrite (rmean_affine a b r Hr). f_equal. rewrite map_map.
  apply map_ext. intros x. destruct clip_std; field; split; Lra.lra.
Qed.



(** ** Further properties: what [train_loop] never does *)

Section SteadyFacts.
Context `{Env}.

Lemma steady_refl (checkpoint_freq : Z) (t : trainer) :
  steady checkpoint_freq t t.
Proof.
  split; [reflexivity|]. split; [reflexivity|]. split; [auto|].
  exists []. rewrite app_nil_r.
  split; [reflexivity|]. split; [constructor|]. split; reflexivity.
Qed.

Lemma steady_trans (checkpoint_freq : Z) (t1 t2 t3 : trainer) :
  steady checkpoint_freq t1 t2 -> steady checkpoint_freq t2 t3 ->
  steady checkpoint_freq t1 t3.
Proof.
  intros (A1 & A2 & A3 & n1 & C1 & F1 & E1 & S1)
         (B1 & B2 & B3 & n2 & C2 & F2 & E2 & S2).
  split; [congruence|]. split; [congruence|]. split; [auto|].
  exists (n1 ++ n2). split; [rewrite C2, C1, app_assoc; reflexivity|].
  rewrite generator_calls_app, emissions_app, saves_app.
  split; [apply Forall_app; split; assumption|].
  split.
  - intros Hd. rewrite (E1 Hd), E2; [reflexivity|congruence].
  - intros Hs. rewrite (S1 Hs). rewrite S2; [reflexivity|].
    destruct Hs as [Hs|Hs]; [left; auto|right; exact Hs].
Qed.

(** A state change that touches neither the configuration nor the log. *)
Lemma steady_silent (checkpoint_freq : Z) (t t' : trainer) :
  generated_image_dir t' = generated_image_dir t ->
  log_dir t' = log_dir t ->
  ckpt_manager t' = ckpt_manager t ->
  (exists new, calls t' = calls t ++ new /\
               generator_calls new = [] /\ emissions new = [] /\
               saves new = []) ->
  steady checkpoint_freq t t'.
Proof.
  intros Hd Hl Hc (new & C & G & E & S).
  split; [exact Hd|]. split; [exact Hl|]. split; [congruence|].
  exists new. rewrite G, E, S. repeat split; auto.
Qed.

Lemma batch_step_steady (checkpoint_freq noise_dim : Z) (i : nat)
    (t t' : trainer) (r : result unit) :
  batch_step noise_dim i t = (r, t') -> steady checkpoint_freq t t'.
Proof.
  unfold batch_step, next_, train_step, log, bind, modify.
  cbn [batch_generator with_calls].
  destruct (next_batch (batch_generator t)) as [[b|e] s].
  - cbn [params with_batch_generator with_calls].
    destruct (train_step_hook b noise_dim (params t)) as [[[[g d] a]|e] p];
      intros [= <- <-]; apply steady_silent; try reflexivity; cbn.
    + exists [CNext; CTrainStep b noise_dim; CUpdateState g d a].
      split; [rewrite <- !app_assoc; reflexivity|]. repeat split.
    + exists [CNext; CTrainStep b noise_dim].
      split; [rewrite <- !app_assoc; reflexivity|]. repeat split.
  - intros [= <- <-]. apply steady_silent; try reflexivity. cbn.
    exists [CNext]. repeat split.
Qed.

Lemma batch_loop_steady (checkpoint_freq noise_dim : Z) (n i : nat)
    (t t' : trainer) (r : result unit) :
  for_range i n (batch_step noise_dim) t = (r, t') ->
  steady checkpoint_freq t t'.
Proof.
  apply (for_range_preserves (steady checkpoint_freq));
    [apply steady_refl|apply steady_trans|].
  intros. eapply batch_step_steady. eassumption.
Qed.

Lemma emission_steady (checkpoint_freq epoch : Z) (input : option Noise)
    (t t' : trainer) (r : result unit) :
  generate_and_plot_images epoch input t = (r, t') ->
  steady checkpoint_freq t t'.
Proof.
  unfold generate_and_plot_images, call_generator, log, bind, modify, get,
    lift, ret, raise.
  cbn [params with_calls].
  destruct (generator false input (params t)) as [[imgs|e] p].
  - destruct (plot_cells 0 imgs []) as [fig|e].
    + cbn [generated_image_dir with_params with_calls].
      destruct (generated_image_dir t) as [dir|] eqn:Hdir;
        intros [= <- <-]; (split; [cbn; auto|]); (split; [reflexivity|]);
        (split; [cbn; auto|]); cbn.
      * exists [CGenerator false input; CSavefig dir epoch fig].
        split; [rewrite <- app_assoc; reflexivity|].
        split; [repeat constructor|].
        split; [intros Hn; congruence|]. auto.
      * exists [CGenerator false input].
        split; [reflexivity|]. split; [repeat constructor|]. auto.
    + intros [= <- <-]. split; [reflexivity|]. split; [reflexivity|].
      split; [cbn; auto|]. cbn. exists [CGenerator false input].
      split; [reflexivity|]. split; [repeat constructor|]. auto.
  - intros [= <- <-]. split; [reflexivity|]. split; [reflexivity|].
    split; [cbn; auto|]. cbn. exists [CGenerator false input].
    split; [reflexivity|]. split; [repeat constructor|]. auto.
Qed.

(** An emission that returns had an image directory to write to. *)
Lemma emission_ok_has_dir (epoch : Z) (input : option Noise)
    (t t' : trainer) :
  generate_and_plot_images epoch input t = (Ok tt, t') ->
  is_Some (generated_image_dir t).
Proof.
  unfold generate_and_plot_images, call_generator, log, bind, modify, get,
    lift, ret, raise.
  cbn [params with_calls].
  destruct (generator false input (params t)) as [[imgs|e] p]; [|discriminate].
  destruct (plot_cells 0 imgs []) as [fig|e]; [|discriminate].
  cbn [generated_image_dir with_params with_calls].
  destruct (generated_image_dir t) as [dir|]; [eauto|discriminate].
Qed.

Lemma checkpoint_steady (checkpoint_freq : Z) (epoch : nat)
    (t t' : trainer) (r : result unit) :
  checkpoint_on_cadence checkpoint_freq epoch t = (r, t') ->
  steady checkpoint_freq t t'.
Proof.
  unfold checkpoint_on_cadence, ckpt_manager_save, raise, ret.
  destruct (checkpoint_freq =? 0)%Z eqn:Hz.
  { intros [= <- <-]. apply steady_refl. }
  apply Z.eqb_neq in Hz.
  destruct ((Z.of_nat epoch + 1) mod checkpoint_freq =? 0)%Z.
  - destruct (ckpt_manager t) as [c|] eqn:Hc.
    + destruct (ckpt_save (Z.of_nat epoch + 1) (params t) c) as [r0 c'].
      intros [= <- <-]. split; [reflexivity|]. split; [reflexivity|].
      split; [rewrite Hc; discriminate|]. cbn.
      exists [CCheckpoint (Z.of_nat epoch + 1)].
      split; [reflexivity|]. split; [constructor|]. split; [reflexivity|].
      rewrite Hc. intros [Hn|Hn]; [discriminate|contradiction].
    + intros [= <- <-]. apply steady_refl.
  - intros [= <- <-]. apply steady_refl.
Qed.

(** A cadence check that returns at a boundary had a checkpoint manager
    and a cadence other than 0. *)
Lemma checkpoint_ok_inv (checkpoint_freq : Z) (epoch : nat) (t t' : trainer) :
  checkpoint_on_cadence checkpoint_freq epoch t = (Ok tt, t') ->
  checkpoint_freq <> 0%Z /\
  (((Z.of_nat epoch + 1) mod checkpoint_freq = 0)%Z ->
   is_Some (ckpt_manager t)).
Proof.
  unfold checkpoint_on_cadence, ckpt_manager_save, raise, ret.
  destruct (checkpoint_freq =? 0)%Z eqn:Hz; [discriminate|].
  apply Z.eqb_neq in Hz. split; [exact Hz|].
  destruct ((Z.of_nat epoch + 1) mod checkpoint_freq =? 0)%Z eqn:Hm.
  - destruct (ckpt_manager t) as [c|]; [eauto|discriminate].
  - apply Z.eqb_neq in Hm. intros Hc. contradiction.
Qed.

Lemma noise_chosen_steady (checkpoint_freq : Z) (noise_vector : option Noise)
    (noise_dim k : Z) (t2 : trainer) :
  steady checkpoint_freq t2 (noise_chosen noise_vector noise_dim k (summarised t2)).
Proof.
  destruct noise_vector as [v|]; cbn.
  - apply steady_silent; try reflexivity.
    exists []. rewrite app_nil_r. repeat split.
  - destruct (random_normal [k; noise_dim] (rng t2)) as [n r].
    apply steady_silent; try reflexivity. cbn.
    exists [CRandomNormal [k; noise_dim]]. repeat split.
Qed.

(** Where the body of the epoch loop can stop. *)
Lemma epoch_body_cases (checkpoint_freq : Z) (noise_vector : option Noise)
    (noise_dim k : Z) (epoch : nat) (t t' : trainer) (r : result unit) :
  epoch_body checkpoint_freq noise_vector noise_dim k epoch t = (r, t') ->
  (exists e,
     r = Raise e /\
     for_range 0 (Z.to_nat (n_batches (batch_generator t)))
               (batch_step noise_dim) (metrics_reset t) = (Raise e, t')) \/
  (exists t2,
     for_range 0 (Z.to_nat (n_batches (batch_generator t)))
               (batch_step noise_dim) (metrics_reset t) = (Ok tt, t2) /\
     ((exists e,
         r = Raise e /\
         generate_and_plot_images (Z.of_nat epoch + 1)
           (noise (noise_chosen noise_vector noise_dim k (summarised t2)))
           (noise_chosen noise_vector noise_dim k (summarised t2))
         = (Raise e, t')) \/
      (exists t4,
         generate_and_plot_images (Z.of_nat epoch + 1)
           (noise (noise_chosen noise_vector noise_dim k (summarised t2)))
           (noise_chosen noise_vector noise_dim k (summarised t2))
         = (Ok tt, t4) /\
         checkpoint_on_cadence checkpoint_freq epoch t4 = (r, t')))).
Proof.
  rewrite epoch_body_unfold, epoch_metrics_and_samples_unfold.
  destruct (for_range 0 (Z.to_nat (n_batches (batch_generator t)))
              (batch_step noise_dim) (metrics_reset t))
    as [[[]|e] t2] eqn:Hb.
  - cbv zeta.
    destruct (generate_and_plot_images (Z.of_nat epoch + 1)
                (noise (noise_chosen noise_vector noise_dim k (summarised t2)))
                (noise_chosen noise_vector noise_dim k (summarised t2)))
      as [[[]|e] t4] eqn:Hem.
    + intros Hck. right. exists t2. split; [reflexivity|]. right. eauto.
    + intros [= <- <-]. right. exists t2. split; [reflexivity|]. left. eauto.
  - intros [= <- <-]. left. eauto.
Qed.

Lemma epoch_body_steady (checkpoint_freq : Z) (noise_vector : option Noise)
    (noise_dim k : Z) (epoch : nat) (t t' : trainer) (r : result unit) :
  epoch_body checkpoint_freq noise_vector noise_dim k epoch t = (r, t') ->
  steady checkpoint_freq t t'.
Proof.
  intros Hrun.
  assert (Hreset : steady checkpoint_freq t (metrics_reset t)).
  { apply steady_silent; try reflexivity.
    exists []. cbn. rewrite app_nil_r. repeat split. }
  destruct (epoch_body_cases _ _ _ _ _ _ _ _ Hrun)
    as [(e & _ & Hb)|(t2 & Hb & [(e & _ & Hem)|(t4 & Hem & Hck)])].
  - eapply steady_trans; [exact Hreset|]. eapply batch_loop_steady. exact Hb.
  - eapply steady_trans; [exact Hreset|].
    eapply steady_trans; [eapply batch_loop_steady; exact Hb|].
    eapply steady_trans; [apply noise_chosen_steady|].
    eapply emission_steady. exact Hem.
  - eapply steady_trans; [exact Hreset|].
    eapply steady_trans; [eapply batch_loop_steady; exact Hb|].
    eapply steady_trans; [apply noise_chosen_steady|].
    eapply steady_trans; [eapply emission_steady; exact Hem|].
    eapply checkpoint_steady. exact Hck.
Qed.

Lemma epochs_steady (checkpoint_freq : Z) (noise_vector : option Noise)
    (noise_dim k : Z) (n i : nat) (t t' : trainer) (r : result unit) :
  for_range i n (epoch_body checkpoint_freq noise_vector noise_dim k) t
    = (r, t') ->
  steady checkpoint_freq t t'.
Proof.
  apply (for_range_preserves (steady checkpoint_freq));
    [apply steady_refl|apply steady_trans|].
  intros. eapply epoch_body_steady. eassumption.
Qed.

(** Where [train_loop] can stop. *)
Lemma train_loop_cases (epochs checkpoint_freq : Z)
    (noise_vector : option Noise) (t t' : trainer) (r : result unit) :
  train_loop epochs checkpoint_freq noise_vector t = (r, t') ->
  (exists e,
     r = Raise e /\
     for_range 0 (Z.to_nat epochs)
       (epoch_body checkpoint_freq noise_vector 100 16)
       (initialised noise_vector t) = (Raise e, t')) \/
  (exists t1,
     for_range 0 (Z.to_nat epochs)
       (epoch_body checkpoint_freq noise_vector 100 16)
       (initialised noise_vector t) = (Ok tt, t1) /\
     ((exists e,
         r = Raise e /\
         generate_and_plot_images epochs (noise t1) t1 = (Raise e, t')) \/
      (exists t2,
         r = Ok tt /\ t' = reported t2 /\
         generate_and_plot_images epochs (noise t1) t1 = (Ok tt, t2)))).
Proof.
  rewrite train_loop_unfold.
  destruct (for_range 0 (Z.to_nat epochs)
              (epoch_body checkpoint_freq noise_vector 100 16)
              (initialised noise_vector t)) as [[[]|e] t1] eqn:Hloop.
  - destruct (generate_and_plot_images epochs (noise t1) t1)
      as [[[]|e] t2] eqn:Hem; intros [= <- <-]; right; exists t1;
      (split; [reflexivity|]); [right|left]; eauto.
  - intros [= <- <-]. left. eauto.
Qed.

Lemma reported_steady (checkpoint_freq : Z) (t : trainer) :
  steady checkpoint_freq t (reported t).
Proof.
  unfold reported. destruct (log_dir t) as [dir|] eqn:Hl.
  - apply steady_silent; try reflexivity. cbn.
    eexists. split; [reflexivity|]. repeat split.
  - apply steady_refl.
Qed.

Lemma train_loop_steady (epochs checkpoint_freq : Z)
    (noise_vector : option Noise) (t t' : trainer) (r : result unit) :
  train_loop epochs checkpoint_freq noise_vector t = (r, t') ->
  steady checkpoint_freq t t'.
Proof.
  intros Hrun.
  assert (Hinit : steady checkpoint_freq t (initialised noise_vector t)).
  { apply steady_silent; try reflexivity.
    exists []. cbn. rewrite app_nil_r. repeat split. }
  destruct (train_loop_cases _ _ _ _ _ _ Hrun)
    as [(e & _ & Hl)|(t1 & Hl & [(e & _ & Hem)|(t2 & _ & -> & Hem)])].
  - eapply steady_trans; [exact Hinit|]. eapply epochs_steady. exact Hl.
  - eapply steady_trans; [exact Hinit|].
    eapply steady_trans; [eapply epochs_steady; exact Hl|].
    eapply emission_steady. exact Hem.
  - eapply steady_trans; [exact Hinit|].
    eapply steady_trans; [eapply epochs_steady; exact Hl|].
    eapply steady_trans; [eapply emission_steady; exact Hem|].
    apply reported_steady.
Qed.

End SteadyFacts.

(** X12.  [train_loop] never runs the generator in training mode:
    whatever the collaborators do and however the run ends, every call
    of the generator it makes has [training=False]. *)
Theorem train_loop_only_inference `{Env} (epochs checkpoint_freq : Z)
    (noise_vector : option Noise) (t : trainer) :
  exists new,
    calls (snd (train_loop epochs checkpoint_freq noise_vector t))
      = calls t ++ new /\
    Forall (fun c => fst c = false) (generator_calls new).
Proof.
  destruct (train_loop epochs checkpoint_freq noise_vector t) as [r t'] eqn:Hrun.
  destruct (train_loop_steady _ _ _ _ _ _ Hrun)
    as (_ & _ & _ & new & C & F & _).
  exists new. split; assumption.
Qed.

(** X13.  Without an image directory (as [__init__] leaves the
    trainer) [train_loop] never returns normally and never hands a
    sample grid to the renderer, whatever the collaborators do and for
    every number of epochs. *)
Theorem train_loop_needs_image_dir `{Env} (epochs checkpoint_freq : Z)
    (noise_vector : option Noise) (t : trainer) :
  generated_image_dir t = None ->
  fst (train_loop epochs checkpoint_freq noise_vector t) <> Ok tt /\
  emissions (calls (snd (train_loop epochs checkpoint_freq noise_vector t)))
    = emissions (calls t).
Proof.
  intros Hdir.
  destruct (train_loop epochs checkpoint_freq noise_vector t) as [r t'] eqn:Hrun.
  cbn [fst snd]. split.
  - intros ->.
    destruct (train_loop_cases _ _ _ _ _ _ Hrun)
      as [(e & He & _)|(t1 & Hl & [(e & He & _)|(t2 & _ & _ & Hem)])];
      try discriminate.
    destruct (epochs_steady _ _ _ _ _ _ _ _ _ Hl) as (D & _).
    destruct (emission_ok_has_dir _ _ _ _ Hem) as [dir Hd].
    rewrite D in Hd. cbn in Hd. congruence.
  - destruct (train_loop_steady _ _ _ _ _ _ Hrun)
      as (_ & _ & _ & new & C & _ & E & _).
    rewrite C, emissions_app, (E Hdir), app_nil_r. reflexivity.
Qed.

Lemma train_loop_needs_image_dir_witness :
  let t := @BaseGAN_init (sample_env None None) 0%nat 0%nat 0%nat in
  generated_image_dir t = None /\
  fst (@train_loop (sample_env None None) 3 5 (Some 7%nat) t) <> Ok tt /\
  emissions (calls (snd (@train_loop (sample_env None None) 3 5
                           (Some 7%nat) t))) = emissions (calls t).
Proof.
  intros t.
  assert (H1 : generated_image_dir t = None) by reflexivity.
  split; [exact H1|].
  exact (@train_loop_needs_image_dir (sample_env None None) 3 5
           (Some 7%nat) t H1).
Defined.

Lemma elem_of_epoch_tags (e : Z) (n : nat) :
  e ∈ epoch_tags 0 n <-> (1 <= e <= Z.of_nat n)%Z.
Proof.
  unfold epoch_tags. rewrite list_elem_of_In, in_map_iff. split.
  - intros (i & <- & Hi). apply in_seq in Hi. lia.
  - intros He. exists (Z.to_nat (e - 1)). split; [lia|].
    apply in_seq. lia.
Qed.

Lemma elem_of_on_cadence (checkpoint_freq e : Z) (tags : list Z) :
  e ∈ on_cadence checkpoint_freq tags
  <-> (e mod checkpoint_freq = 0)%Z /\ e ∈ tags.
Proof.
  unfold on_cadence.
  apply (list_elem_of_filter (fun x => (x mod checkpoint_freq = 0)%Z)).
Qed.

(** X14.  Without a checkpoint manager (no checkpoint directory was
    set) a run whose epochs reach a cadence boundary never returns
    normally, and no save is ever attempted, whatever the collaborators
    do. *)
Theorem train_loop_needs_checkpoint_dir `{Env} (epochs checkpoint_freq e : Z)
    (noise_vector : option Noise) (t : trainer) :
  ckpt_manager t = None ->
  (1 <= e <= epochs)%Z ->
  (e mod checkpoint_freq = 0)%Z ->
  fst (train_loop epochs checkpoint_freq noise_vector t) <> Ok tt /\
  saves (calls (snd (train_loop epochs checkpoint_freq noise_vector t)))
    = saves (calls t).
Proof.
  intros Hck He Hmod.
  destruct (train_loop epochs checkpoint_freq noise_vector t) as [r t'] eqn:Hrun.
  cbn [fst snd]. split.
  - intros ->.
    destruct (train_loop_cases _ _ _ _ _ _ Hrun)
      as [(x & Hx & _)|(t1 & Hl & [(x & Hx & _)|(t2 & _ & _ & Hem)])];
      try discriminate.
    destruct (epochs_ok _ _ _ _ _ _ _ _ Hl)
      as (_ & _ & _ & _ & _ & _ & _ & new & C & _ & S & _).
    destruct (epochs_steady _ _ _ _ _ _ _ _ _ Hl)
      as (_ & _ & _ & new' & C' & _ & _ & S').
    rewrite C in C'. apply app_inv_head in C'. subst new'.
    rewrite S in S'.
    assert (Hin : e ∈ on_cadence checkpoint_freq (epoch_tags 0 (Z.to_nat epochs))).
    { apply elem_of_on_cadence. split; [exact Hmod|].
      apply elem_of_epoch_tags. lia. }
    rewrite S' in Hin by (left; exact Hck).
    apply not_elem_of_nil in Hin. exact Hin.
  - destruct (train_loop_steady _ _ _ _ _ _ Hrun)
      as (_ & _ & _ & new & C & _ & _ & S).
    rewrite C, saves_app, S by (left; exact Hck).
    apply app_nil_r.
Qed.

Lemma train_loop_needs_checkpoint_dir_witness :
  let t := with_ckpt_manager None (sample_trainer None None) in
  ckpt_manager t = None /\
  (1 <= 5 <= 7)%Z /\
  (5 mod 5 = 0)%Z /\
  fst (@train_loop (sample_env None None) 7 5 (Some 7%nat) t) <> Ok tt /\
  saves (calls (snd (@train_loop (sample_env None None) 7 5
                       (Some 7%nat) t))) = saves (calls t).
Proof.
  intros t.
  assert (H1 : ckpt_manager t = None) by reflexivity.
  assert (H2 : (1 <= 5 <= 7)%Z) by lia.
  assert (H3 : (5 mod 5 = 0)%Z) by reflexivity.
  repeat (split; [assumption|]).
  exact (@train_loop_needs_checkpoint_dir (sample_env None None) 7 5 5
           (Some 7%nat) t H1 H2 H3).
Defined.

(** X15.  With [checkpoint_freq = 0] a run of at least one epoch never
    returns normally (the cadence check of the first epoch divides by
    zero if nothing failed before it) and no save is ever attempted,
    whatever the collaborators do. *)
Theorem train_loop_zero_cadence_fails `{Env} (epochs : Z)
    (noise_vector : option Noise) (t : trainer) :
  (1 <= epochs)%Z ->
  fst (train_loop epochs 0 noise_vector t) <> Ok tt /\
  saves (calls (snd (train_loop epochs 0 noise_vector t))) = saves (calls t).
Proof.
  intros Hep.
  destruct (train_loop epochs 0 noise_vector t) as [r t'] eqn:Hrun.
  cbn [fst snd].
  assert (Hn : exists m, Z.to_nat epochs = Datatypes.S m).
  { exists (Z.to_nat epochs - 1)%nat. lia. }
  destruct Hn as [m Hn].
  split.
  - intros ->.
    destruct (train_loop_cases _ _ _ _ _ _ Hrun)
      as [(x & Hx & _)|(t1 & Hl & _)]; [discriminate|].
    rewrite Hn in Hl. cbn [for_range] in Hl. unfold bind in Hl.
    destruct (epoch_body 0 noise_vector 100 16 0 (initialised noise_vector t))
      as [[[]|x] t1'] eqn:Hb; [|discriminate].
    destruct (epoch_body_cases _ _ _ _ _ _ _ _ Hb)
      as [(x & Hx & _)|(t2 & _ & [(x & Hx & _)|(t4 & _ & Hc)])];
      [discriminate|discriminate|].
    destruct (checkpoint_ok_inv _ _ _ _ Hc) as [Hz _]. contradiction.
  - destruct (train_loop_steady _ _ _ _ _ _ Hrun)
      as (_ & _ & _ & new & C & _ & _ & S).
    rewrite C, saves_app, S by (right; reflexivity).
    apply app_nil_r.
Qed.

Lemma train_loop_zero_cadence_fails_witness :
  (1 <= 2)%Z /\
  fst (@train_loop (sample_env None None) 2 0 (Some 7%nat)
         (sample_trainer None None)) <> Ok tt /\
  saves (calls (snd (@train_loop (sample_env None None) 2 0 (Some 7%nat)
                       (sample_trainer None None))))
    = saves (calls (sample_trainer None None)).
Proof.
  assert (H1 : (1 <= 2)%Z) by lia.
  split; [exact H1|].
  exact (@train_loop_zero_cadence_fails (sample_env None None) 2
           (Some 7%nat) (sample_trainer None None) H1).
Defined.

(** ** Further properties: the calls [train_loop] makes *)

Section CallFacts.
Context `{Env}.

Lemma random_calls_app (a b : list call) :
  random_calls (a ++ b) = random_calls a ++ random_calls b.
Proof. unfold random_calls. apply omap_app. Qed.

Lemma train_steps_app (a b : list call) :
  train_steps (a ++ b) = (train_steps a + train_steps b)%nat.
Proof. unfold train_steps. rewrite omap_app, length_app. reflexivity. Qed.

(** The calls of one batch step. *)
Lemma batch_step_trace (noise_dim : Z) (i : nat) (t t' : trainer)
    (r : result unit) :
  batch_step noise_dim i t = (r, t') ->
  rng t' = rng t /\
  exists new,
    calls t' = calls t ++ new /\
    ((new = [CNext] /\ r <> Ok tt) \/
     (exists b, new = [CNext; CTrainStep b noise_dim] /\ r <> Ok tt) \/
     (exists b g d a,
        new = [CNext; CTrainStep b noise_dim; CUpdateState g d a] /\
        r = Ok tt)).
Proof.
  unfold batch_step, next_, train_step, log, bind, modify.
  cbn [batch_generator with_calls].
  destruct (next_batch (batch_generator t)) as [[b|e] s].
  - cbn [params with_batch_generator with_calls].
    destruct (train_step_hook b noise_dim (params t)) as [[[[g d] a]|e] p];
      intros [= <- <-]; (split; [reflexivity|]); cbn.
    + exists [CNext; CTrainStep b noise_dim; CUpdateState g d a].
      split; [rewrite <- !app_assoc; reflexivity|].
      right. right. exists b, g, d, a. split; reflexivity.
    + exists [CNext; CTrainStep b noise_dim].
      split; [rewrite <- !app_assoc; reflexivity|].
      right. left. exists b. split; [reflexivity|discriminate].
  - intros [= <- <-]. split; [reflexivity|]. cbn.
    exists [CNext]. split; [reflexivity|]. left. split; [reflexivity|discriminate].
Qed.

(** The calls of one emission. *)
Lemma emission_trace (epoch : Z) (input : option Noise) (t t' : trainer)
    (r : result unit) :
  generate_and_plot_images epoch input t = (r, t') ->
  rng t' = rng t /\
  exists new,
    calls t' = calls t ++ new /\
    ((new = [CGenerator false input] /\ r <> Ok tt) \/
     (exists dir fig,
        new = [CGenerator false input; CSavefig dir epoch fig] /\ r = Ok tt)).
Proof.
  unfold generate_and_plot_images, call_generator, log, bind, modify, get,
    lift, ret, raise.
  cbn [params with_calls].
  destruct (generator false input (params t)) as [[imgs|e] p].
  - destruct (plot_cells 0 imgs []) as [fig|e].
    + cbn [generated_image_dir with_params with_calls].
      destruct (generated_image_dir t) as [dir|] eqn:Hdir;
        intros [= <- <-]; (split; [reflexivity|]); cbn.
      * exists [CGenerator false input; CSavefig dir epoch fig].
        split; [rewrite <- app_assoc; reflexivity|].
        right. exists dir, fig. split; reflexivity.
      * exists [CGenerator false input].
        split; [reflexivity|]. left. split; [reflexivity|discriminate].
    + intros [= <- <-]. split; [reflexivity|]. cbn.
      exists [CGenerator false input].
      split; [reflexivity|]. left. split; [reflexivity|discriminate].
  - intros [= <- <-]. split; [reflexivity|]. cbn.
    exists [CGenerator false input].
    split; [reflexivity|]. left. split; [reflexivity|discriminate].
Qed.

(** The calls of one cadence check. *)
Lemma checkpoint_trace (checkpoint_freq : Z) (epoch : nat) (t t' : trainer)
    (r : result unit) :
  checkpoint_on_cadence checkpoint_freq epoch t = (r, t') ->
  rng t' = rng t /\
  batch_generator t' = batch_generator t /\
  exists new,
    calls t' = calls t ++ new /\
    (new = [] \/
     (new = [CCheckpoint (Z.of_nat epoch + 1)] /\
      ((Z.of_nat epoch + 1) mod checkpoint_freq = 0)%Z)).
Proof.
  unfold checkpoint_on_cadence, ckpt_manager_save, raise, ret.
  destruct (checkpoint_freq =? 0)%Z eqn:Hz.
  { intros [= <- <-]. split; [reflexivity|]. split; [reflexivity|].
    exists []. rewrite app_nil_r. auto. }
  destruct ((Z.of_nat epoch + 1) mod checkpoint_freq =? 0)%Z eqn:Hm.
  - apply Z.eqb_eq in Hm.
    destruct (ckpt_manager t) as [c|] eqn:Hc.
    + destruct (ckpt_save (Z.of_nat epoch + 1) (params t) c) as [r0 c'].
      intros [= <- <-]. split; [reflexivity|]. split; [reflexivity|]. cbn.
      exists [CCheckpoint (Z.of_nat epoch + 1)]. auto.
    + intros [= <- <-]. split; [reflexivity|]. split; [reflexivity|].
      exists []. rewrite app_nil_r. auto.
  - intros [= <- <-]. split; [reflexivity|]. split; [reflexivity|].
    exists []. rewrite app_nil_r. auto.
Qed.

(** The calls between the batches and the emission of an epoch. *)
Lemma noise_chosen_trace (noise_vector : option Noise) (noise_dim k : Z)
    (t2 : trainer) :
  let t3 := noise_chosen noise_vector noise_dim k (summarised t2) in
  batch_generator t3 = batch_generator t2 /\
  match noise_vector with
  | Some _ =>
      calls t3 = calls t2 /\ rng t3 = rng t2 /\ noise t3 = noise t2
  | None =>
      calls t3 = calls t2 ++ [CRandomNormal [k; noise_dim]] /\
      rng t3 = snd (random_normal [k; noise_dim] (rng t2)) /\
      noise t3 = Some (fst (random_normal [k; noise_dim] (rng t2)))
  end.
Proof.
  destruct noise_vector as [v|]; cbn.
  - auto.
  - destruct (random_normal [k; noise_dim] (rng t2)) as [n r]. cbn. auto.
Qed.

Lemma no_draw_refl (t : trainer) : no_draw t t.
Proof.
  split; [reflexivity|]. exists []. rewrite app_nil_r. auto.
Qed.

Lemma no_draw_trans (t1 t2 t3 : trainer) :
  no_draw t1 t2 -> no_draw t2 t3 -> no_draw t1 t3.
Proof.
  intros (R1 & n1 & C1 & D1) (R2 & n2 & C2 & D2).
  split; [congruence|]. exists (n1 ++ n2).
  split; [rewrite C2, C1, app_assoc; reflexivity|].
  rewrite random_calls_app, D1, D2. reflexivity.
Qed.

Lemma batch_loop_no_draw (noise_dim : Z) (n i : nat) (t t' : trainer)
    (r : result unit) :
  for_range i n (batch_step noise_dim) t = (r, t') -> no_draw t t'.
Proof.
  apply (for_range_preserves no_draw); [apply no_draw_refl|apply no_draw_trans|].
  intros j s r0 s' Hs.
  destruct (batch_step_trace _ _ _ _ _ Hs)
    as (R & new & C & [[-> _]|[(b & -> & _)|(b & g & d & a & -> & _)]]);
    (split; [exact R|]); eexists; (split; [exact C|]); reflexivity.
Qed.

Lemma emission_no_draw (epoch : Z) (input : option Noise) (t t' : trainer)
    (r : result unit) :
  generate_and_plot_images epoch input t = (r, t') -> no_draw t t'.
Proof.
  intros Hs.
  destruct (emission_trace _ _ _ _ _ Hs)
    as (R & new & C & [[-> _]|(dir & fig & -> & _)]);
    (split; [exact R|]); eexists; (split; [exact C|]); reflexivity.
Qed.

Lemma checkpoint_no_draw (checkpoint_freq : Z) (epoch : nat) (t t' : trainer)
    (r : result unit) :
  checkpoint_on_cadence checkpoint_freq epoch t = (r, t') -> no_draw t t'.
Proof.
  intros Hs.
  destruct (checkpoint_trace _ _ _ _ _ Hs)
    as (R & _ & new & C & [->|[-> _]]);
    (split; [exact R|]); eexists; (split; [exact C|]); reflexivity.
Qed.

Lemma reported_no_draw (t : trainer) : no_draw t (reported t).
Proof.
  unfold reported. destruct (log_dir t) as [dir|].
  - split; [reflexivity|]. cbn. eexists. split; reflexivity.
  - apply no_draw_refl.
Qed.

(** A batch loop that returns made one pull, one training step and one
    update of the metrics per round. *)
Lemma batch_loop_counts (noise_dim : Z) (n i : nat) (t t' : trainer) :
  for_range i n (batch_step noise_dim) t = (Ok tt, t') ->
  exists new,
    calls t' = calls t ++ new /\
    pulls new = n /\ train_steps new = n /\
    length (gen_observations new) = n.
Proof.
  revert i t. induction n as [|n IH]; intros i t; cbn [for_range].
  - intros [= <-]. exists []. rewrite app_nil_r. auto.
  - unfold bind.
    destruct (batch_step noise_dim i t) as [[[]|e] t1] eqn:Hs; [|discriminate].
    intros Hrest.
    destruct (batch_step_trace _ _ _ _ _ Hs)
      as (_ & n1 & C1 & [[_ Hr]|[(b & _ & Hr)|(b & g & d & a & -> & _)]]);
      try (exfalso; apply Hr; reflexivity).
    destruct (IH _ _ Hrest) as (n2 & C2 & P & T & G).
    exists ([CNext; CTrainStep b noise_dim; CUpdateState g d a] ++ n2).
    split; [rewrite C2, C1, app_assoc; reflexivity|].
    rewrite pulls_app, train_steps_app, gen_observations_app, length_app.
    rewrite P, T, G. cbn. auto.
Qed.

End CallFacts.

(** X16.  The figure has 4 x 4 axes: when the generator returns more
    than 16 images, [generate_and_plot_images] raises [IndexError] at
    the seventeenth, after the generator call, and hands nothing to the
    renderer (whether or not an image directory is set). *)
Theorem generate_and_plot_images_too_many `{Env} (t : trainer) (epoch : Z)
    (input : option Noise) (imgs : list (array Q)) (p' : Params) :
  generator false input (params t) = (Ok imgs, p') ->
  (16 < length imgs)%nat ->
  generate_and_plot_images epoch input t =
    (Raise IndexError,
     with_calls (calls t ++ [CGenerator false input]) (with_params p' t)) /\
  emissions (calls (snd (generate_and_plot_images epoch input t)))
    = emissions (calls t).
Proof.
  intros Hgen Hlen.
  assert (Hrun : generate_and_plot_images epoch input t =
            (Raise IndexError,
             with_calls (calls t ++ [CGenerator false input])
               (with_params p' t))).
  { unfold generate_and_plot_images, call_generator, log, bind, modify, get,
      lift, ret, raise.
    cbn [params with_calls]. rewrite Hgen.
    rewrite plot_cells_overflow by (simpl; lia). reflexivity. }
  split; [exact Hrun|].
  rewrite Hrun. cbn [snd calls with_calls].
  rewrite emissions_app. cbn. apply app_nil_r.
Qed.

Lemma generate_and_plot_images_too_many_witness :
  let t := @BaseGAN_init sample_env_rows 0%nat 0%nat 0%nat in
  @generator sample_env_rows false (Some 17%nat) (params t)
    = (Ok (repeat [[Fin 0%Q]] 17), 0%nat) /\
  (16 < length (repeat [[Fin 0%Q]] 17))%nat /\
  @generate_and_plot_images sample_env_rows 1 (Some 17%nat) t =
    (Raise IndexError,
     with_calls (calls t ++ [@CGenerator sample_env_rows false (Some 17%nat)])
       (@with_params sample_env_rows 0%nat t)) /\
  emissions (calls (snd (@generate_and_plot_images sample_env_rows 1
                           (Some 17%nat) t))) = emissions (calls t).
Proof.
  intros t.
  assert (H1 : @generator sample_env_rows false (Some 17%nat) (params t)
               = (Ok (repeat [[Fin 0%Q]] 17), 0%nat)) by reflexivity.
  assert (H2 : (16 < length (repeat [[Fin 0%Q]] 17))%nat) by (simpl; lia).
  split; [exact H1|]. split; [exact H2|].
  exact (@generate_and_plot_images_too_many sample_env_rows t 1
           (Some 17%nat) _ _ H1 H2).
Defined.

(** X17.  With [epochs <= 0] (negative included) the loop body never
    runs, whatever the collaborators do: no batch is pulled, no training
    step is made, nothing is saved, no noise is drawn and the history
    stays empty; the generator is called exactly once, in inference
    mode, on the [noise_vector] argument as it was passed ([None]
    included), and the grid is tagged with [epochs] itself if that
    emission succeeds. *)
Theorem train_loop_no_epochs `{Env} (epochs checkpoint_freq : Z)
    (noise_vector : option Noise) (t : trainer) :
  (epochs <= 0)%Z ->
  generator_losses (snd (train_loop epochs checkpoint_freq noise_vector t))
    = [] /\
  discriminator_losses (snd (train_loop epochs checkpoint_freq noise_vector t))
    = [] /\
  discriminator_accuracies
    (snd (train_loop epochs checkpoint_freq noise_vector t)) = [] /\
  exists new,
    calls (snd (train_loop epochs checkpoint_freq noise_vector t))
      = calls t ++ new /\
    pulls new = 0%nat /\ train_steps new = 0%nat /\
    saves new = [] /\ random_calls new = [] /\
    generator_calls new = [(false, noise_vector)] /\
    emissions new =
      match fst (train_loop epochs checkpoint_freq noise_vector t) with
      | Ok _ => [epochs]
      | Raise _ => []
      end.
Proof.
  intros Hep.
  destruct (train_loop epochs checkpoint_freq noise_vector t) as [r t'] eqn:Hrun.
  cbn [fst snd].
  apply train_loop_cases in Hrun.
  replace (Z.to_nat epochs) with 0%nat in Hrun by lia.
  cbn [for_range] in Hrun. unfold ret in Hrun.
  destruct Hrun as [(e & _ & [=])|(t1 & [= <-] & Hrun)].
  change (noise (initialised noise_vector t)) with noise_vector in Hrun.
  destruct Hrun as [(e & -> & Hem)|(t2 & -> & -> & Hem)];
    destruct (emission_frame _ _ _ _ _ Hem)
      as ((_ & _ & _ & _ & V5 & V6 & V7) & _);
    destruct (emission_trace _ _ _ _ _ Hem)
      as (_ & new & C & [[-> Hr]|(dir & fig & -> & [=])]);
    try (exfalso; apply Hr; reflexivity).
  - rewrite V5, V6, V7.
    repeat (split; [reflexivity|]).
    exists [CGenerator false noise_vector]. split; [exact C|].
    repeat split.
  - destruct (reported_frame t2) as (R1 & R2 & R3 & _).
    rewrite R1, R2, R3, V5, V6, V7.
    repeat (split; [reflexivity|]).
    unfold reported. destruct (log_dir t2) as [ld|].
    + eexists. cbn [calls with_calls]. rewrite C.
      split; [rewrite <- app_assoc; reflexivity|]. repeat split.
    + eexists. split; [exact C|]. repeat split.
Qed.

Lemma train_loop_no_epochs_witness :
  let run := @train_loop (sample_env None None) (-3) 5 None
               (sample_trainer None None) in
  (-3 <= 0)%Z /\
  generator_losses (snd run) = [] /\
  exists new,
    calls (snd run) = calls (sample_trainer None None) ++ new /\
    pulls new = 0%nat /\
    generator_calls new = [(false, None)].
Proof.
  intros run.
  assert (H1 : (-3 <= 0)%Z) by lia.
  split; [exact H1|].
  destruct (@train_loop_no_epochs (sample_env None None) (-3) 5 None
              (sample_trainer None None) H1)
    as (G & _ & _ & new & C & P & _ & _ & _ & GC & _).
  split; [exact G|].
  exists new. split; [exact C|]. split; [exact P|exact GC].
Defined.

(** ** Further properties: the history [train_loop] records *)

Section HistoryFacts.
Context `{Env}.

Lemma history_grown_same (t t' : trainer) :
  generator_losses t' = generator_losses t ->
  discriminator_losses t' = discriminator_losses t ->
  discriminator_accuracies t' = discriminator_accuracies t ->
  history_grown 0 t t'.
Proof.
  intros G D A. exists [], [], []. rewrite !app_nil_r. auto 10.
Qed.

Lemma history_grown_trans (k1 k2 : nat) (t1 t2 t3 : trainer) :
  history_grown k1 t1 t2 -> history_grown k2 t2 t3 ->
  history_grown (k1 + k2) t1 t3.
Proof.
  intros (g1 & d1 & a1 & Lg1 & Ld1 & La1 & G1 & D1 & A1)
         (g2 & d2 & a2 & Lg2 & Ld2 & La2 & G2 & D2 & A2).
  exists (g1 ++ g2), (d1 ++ d2), (a1 ++ a2).
  rewrite !length_app, G2, D2, A2, G1, D1, A1, <- !app_assoc.
  repeat split; lia.
Qed.

Lemma undisturbed_history (t t' : trainer) :
  undisturbed t t' -> history_grown 0 t t'.
Proof.
  intros (_ & _ & _ & _ & U5 & U6 & U7).
  apply history_grown_same; assumption.
Qed.

(** An epoch adds at most one entry to each list, the same number to
    each, and exactly one when it completes. *)
Lemma epoch_body_history (checkpoint_freq : Z) (noise_vector : option Noise)
    (noise_dim k : Z) (epoch : nat) (t t' : trainer) (r : result unit) :
  epoch_body checkpoint_freq noise_vector noise_dim k epoch t = (r, t') ->
  exists j, (j <= 1)%nat /\ history_grown j t t' /\ (r = Ok tt -> j = 1%nat).
Proof.
  intros Hb.
  assert (Hsum : forall t2,
            for_range 0 (Z.to_nat (n_batches (batch_generator t)))
              (batch_step noise_dim) (metrics_reset t) = (Ok tt, t2) ->
            history_grown 1 t
              (noise_chosen noise_vector noise_dim k (summarised t2))).
  { intros t2 Hl.
    destruct (batch_loop_progress _ _ _ _ _ _ Hl)
      as ((_ & _ & _ & _ & U5 & U6 & U7) & _).
    cbn in U5, U6, U7.
    destruct (noise_chosen_summarised noise_vector noise_dim k t2)
      as (_ & _ & _ & _ & G & D & A & _).
    eexists [_], [_], [_].
    rewrite G, D, A, U5, U6, U7. auto 10. }
  destruct (epoch_body_cases _ _ _ _ _ _ _ _ Hb)
    as [(e & -> & Hl)|(t2 & Hl & [(e & -> & Hem)|(t4 & Hem & Hc)])].
  - exists 0%nat. split; [lia|]. split; [|discriminate].
    destruct (batch_loop_progress _ _ _ _ _ _ Hl) as (U & _).
    apply undisturbed_history in U. exact U.
  - exists 1%nat. split; [lia|]. split; [|reflexivity].
    destruct (emission_frame _ _ _ _ _ Hem) as (U & _).
    apply (history_grown_trans 1 0 _ _ _ (Hsum _ Hl)).
    apply undisturbed_history. exact U.
  - exists 1%nat. split; [lia|]. split; [|reflexivity].
    destruct (emission_frame _ _ _ _ _ Hem) as (U & _).
    destruct (checkpoint_frame _ _ _ _ _ Hc) as (U' & _).
    apply (history_grown_trans 1 0 _ _ _ (Hsum _ Hl)).
    apply (history_grown_trans 0 0 _ _ _ (undisturbed_history _ _ U)).
    apply undisturbed_history. exact U'.
Qed.

Lemma epochs_history (checkpoint_freq : Z) (noise_vector : option Noise)
    (noise_dim k : Z) (n i : nat) (t t' : trainer) (r : result unit) :
  for_range i n (epoch_body checkpoint_freq noise_vector noise_dim k) t
    = (r, t') ->
  exists j, (j <= n)%nat /\ history_grown j t t' /\ (r = Ok tt -> j = n).
Proof.
  revert i t. induction n as [|n IH]; intros i t; cbn [for_range].
  - intros [= <- <-]. exists 0%nat. split; [lia|].
    split; [apply history_grown_same; reflexivity|reflexivity].
  - unfold bind.
    destruct (epoch_body checkpoint_freq noise_vector noise_dim k i t)
      as [[[]|e] t1] eqn:Hb.
    + intros Hrest.
      destruct (epoch_body_history _ _ _ _ _ _ _ _ Hb) as (j1 & _ & G1 & E1).
      rewrite (E1 eq_refl) in G1.
      destruct (IH _ _ Hrest) as (j2 & L2 & G2 & E2).
      exists (1 + j2)%nat. split; [lia|].
      split; [exact (history_grown_trans _ _ _ _ _ G1 G2)|].
      intros Hr. rewrite (E2 Hr). reflexivity.
    + intros [= <- <-].
      destruct (epoch_body_history _ _ _ _ _ _ _ _ Hb) as (j1 & L1 & G1 & _).
      exists j1. split; [lia|]. split; [exact G1|discriminate].
Qed.

End HistoryFacts.

(** X18.  However a run of [train_loop] ends, the three history lists it
    leaves have one common length, at most the number of epochs asked
    for; after a normal return that length is exactly the number of
    epochs (0 for [epochs <= 0]). *)
Theorem train_loop_history_aligned `{Env} (epochs checkpoint_freq : Z)
    (noise_vector : option Noise) (t : trainer) :
  exists j,
    (j <= Z.to_nat epochs)%nat /\
    length (generator_losses
              (snd (train_loop epochs checkpoint_freq noise_vector t))) = j /\
    length (discriminator_losses
              (snd (train_loop epochs checkpoint_freq noise_vector t))) = j /\
    length (discriminator_accuracies
              (snd (train_loop epochs checkpoint_freq noise_vector t))) = j /\
    (fst (train_loop epochs checkpoint_freq noise_vector t) = Ok tt ->
     j = Z.to_nat epochs).
Proof.
  destruct (train_loop epochs checkpoint_freq noise_vector t) as [r t'] eqn:Hrun.
  cbn [fst snd].
  assert (Hloop : forall r1 t1,
            for_range 0 (Z.to_nat epochs)
              (epoch_body checkpoint_freq noise_vector 100 16)
              (initialised noise_vector t) = (r1, t1) ->
            exists j, (j <= Z.to_nat epochs)%nat /\
              length (generator_losses t1) = j /\
              length (discriminator_losses t1) = j /\
              length (discriminator_accuracies t1) = j /\
              (r1 = Ok tt -> j = Z.to_nat epochs)).
  { intros r1 t1 Hl.
    destruct (epochs_history _ _ _ _ _ _ _ _ _ Hl)
      as (j & Lj & (g & d & a & Lg & Ld & La & G & D & A) & Ej).
    cbn in G, D, A. subst g d a. exists j. auto 10. }
  destruct (train_loop_cases _ _ _ _ _ _ Hrun)
    as [(e & -> & Hl)|(t1 & Hl & [(e & -> & Hem)|(t2 & -> & -> & Hem)])].
  - exact (Hloop _ _ Hl).
  - destruct (Hloop _ _ Hl) as (j & Lj & G & D & A & Ej).
    destruct (emission_frame _ _ _ _ _ Hem)
      as ((_ & _ & _ & _ & U5 & U6 & U7) & _).
    exists j. rewrite U5, U6, U7. split; [exact Lj|].
    repeat (split; [assumption|]). discriminate.
  - destruct (Hloop _ _ Hl) as (j & Lj & G & D & A & Ej).
    destruct (emission_frame _ _ _ _ _ Hem)
      as ((_ & _ & _ & _ & U5 & U6 & U7) & _).
    destruct (reported_frame t2) as (R1 & R2 & R3 & _).
    exists j. rewrite R1, R2, R3, U5, U6, U7. split; [exact Lj|].
    repeat (split; [assumption|]). intros _. apply Ej. reflexivity.
Qed.

(** ** Further properties: the calls of an epoch and of a run *)

Section EpochFacts.
Context `{Env}.

(** The calls of a completed epoch, in order: the batches, the noise
    draw when no noise vector was passed, the emission, the save at a
    cadence boundary. *)
Lemma epoch_body_ok_trace (checkpoint_freq : Z) (noise_vector : option Noise)
    (noise_dim k : Z) (epoch : nat) (t t' : trainer) :
  epoch_body checkpoint_freq noise_vector noise_dim k epoch t = (Ok tt, t') ->
  exists n1 dir fig n4,
    calls t' =
      calls t ++ n1
        ++ match noise_vector with
           | None => [CRandomNormal [k; noise_dim]]
           | Some _ => []
           end
        ++ [CGenerator false (noise t'); CSavefig dir (Z.of_nat epoch + 1) fig]
        ++ n4 /\
    pulls n1 = Z.to_nat (n_batches (batch_generator t)) /\
    train_steps n1 = Z.to_nat (n_batches (batch_generator t)) /\
    length (gen_observations n1) = Z.to_nat (n_batches (batch_generator t)) /\
    random_calls n1 = [] /\ saves n1 = [] /\ emissions n1 = [] /\
    generator_calls n1 = [] /\
    (n4 = [] \/
     (n4 = [CCheckpoint (Z.of_nat epoch + 1)] /\
      ((Z.of_nat epoch + 1) mod checkpoint_freq = 0)%Z)) /\
    rng t' = match noise_vector with
             | None => snd (random_normal [k; noise_dim] (rng t))
             | Some _ => rng t
             end /\
    noise t' = match noise_vector with
               | None => Some (fst (random_normal [k; noise_dim] (rng t)))
               | Some _ => noise t
               end.
Proof.
  intros Hb.
  destruct (epoch_body_cases _ _ _ _ _ _ _ _ Hb)
    as [(e & [=] & _)|(t2 & Hl & [(e & [=] & _)|(t4 & Hem & Hc)])].
  destruct (batch_loop_counts _ _ _ _ _ Hl) as (n1 & C1 & P1 & T1 & G1).
  destruct (batch_loop_no_draw _ _ _ _ _ _ Hl) as (R1 & n1' & C1' & D1).
  destruct (batch_loop_progress _ _ _ _ _ _ Hl)
    as ((_ & _ & _ & N1 & _) & n1'' & C1'' & (S1 & E1 & GC1) & _).
  rewrite C1 in C1', C1''. apply app_inv_head in C1', C1''. subst n1' n1''.
  cbn in C1, R1, N1.
  pose proof (noise_chosen_trace noise_vector noise_dim k t2) as (_ & Hn).
  destruct (emission_trace _ _ _ _ _ Hem)
    as (R3 & n3 & C3 & [[_ Hr]|(dir & fig & -> & _)]);
    [exfalso; apply Hr; reflexivity|].
  destruct (emission_frame _ _ _ _ _ Hem) as ((_ & _ & _ & N3 & _) & _).
  destruct (checkpoint_trace _ _ _ _ _ Hc) as (R4 & _ & n4 & C4 & Hn4).
  destruct (checkpoint_frame _ _ _ _ _ Hc) as ((_ & _ & _ & N4 & _) & _).
  exists n1, dir, fig, n4.
  split.
  { rewrite C4, C3, N4, N3.
    destruct noise_vector as [v|]; destruct Hn as (C2 & _ & _);
      rewrite C2, C1, <- ?app_assoc; reflexivity. }
  repeat (split; [assumption|]).
  split; [rewrite R4, R3; destruct noise_vector as [v|];
          destruct Hn as (_ & R2 & _); rewrite R2, R1; reflexivity|].
  rewrite N4, N3. destruct noise_vector as [v|];
    destruct Hn as (_ & _ & N2); rewrite N2;
    [exact N1|rewrite R1; reflexivity].
Qed.

(** Whatever the outcome of an epoch, a save it attempts is for its own
    tag, on the cadence, and comes after its emission. *)
Lemma epoch_body_saves (checkpoint_freq : Z) (noise_vector : option Noise)
    (noise_dim k : Z) (epoch : nat) (t t' : trainer) (r : result unit) :
  epoch_body checkpoint_freq noise_vector noise_dim k epoch t = (r, t') ->
  exists new,
    calls t' = calls t ++ new /\
    (saves new = [] \/
     (saves new = [Z.of_nat epoch + 1]%Z /\
      emissions new = [Z.of_nat epoch + 1]%Z /\
      ((Z.of_nat epoch + 1) mod checkpoint_freq = 0)%Z)).
Proof.
  intros Hb.
  destruct (epoch_body_cases _ _ _ _ _ _ _ _ Hb)
    as [(e & -> & Hl)|(t2 & Hl & [(e & -> & Hem)|(t4 & Hem & Hc)])];
    destruct (batch_loop_progress _ _ _ _ _ _ Hl)
      as (_ & n1 & C1 & (S1 & E1 & _) & _); cbn in C1.
  - exists n1. auto.
  - destruct (noise_chosen_summarised noise_vector noise_dim k t2)
      as (_ & _ & _ & _ & _ & _ & _ & _ & n2 & C2 & (S2 & E2 & _) & _).
    destruct (emission_frame _ _ _ _ _ Hem)
      as (_ & _ & n3 & C3 & _ & S3 & _).
    exists (n1 ++ n2 ++ n3).
    split; [rewrite C3, C2, C1, <- !app_assoc; reflexivity|].
    left. rewrite !saves_app, S1, S2, S3. reflexivity.
  - destruct (noise_chosen_summarised noise_vector noise_dim k t2)
      as (_ & _ & _ & _ & _ & _ & _ & _ & n2 & C2 & (S2 & E2 & _) & _).
    destruct (emission_frame _ _ _ _ _ Hem)
      as (_ & _ & n3 & C3 & _ & S3 & _ & _ & E3).
    destruct (checkpoint_trace _ _ _ _ _ Hc) as (_ & _ & n4 & C4 & Hn4).
    exists (n1 ++ n2 ++ n3 ++ n4).
    split; [rewrite C4, C3, C2, C1, <- !app_assoc; reflexivity|].
    rewrite !saves_app, !emissions_app, S1, S2, S3, E1, E2, E3.
    destruct Hn4 as [->|[-> Hm]]; cbn; auto.
Qed.

Lemma epochs_saves (checkpoint_freq : Z) (noise_vector : option Noise)
    (noise_dim k : Z) (n i : nat) (t t' : trainer) (r : result unit) :
  for_range i n (epoch_body checkpoint_freq noise_vector noise_dim k) t
    = (r, t') ->
  exists new,
    calls t' = calls t ++ new /\
    Forall (fun e => (e mod checkpoint_freq = 0)%Z /\
                     (Z.of_nat i + 1 <= e <= Z.of_nat i + Z.of_nat n)%Z /\
                     e ∈ emissions new)
           (saves new).
Proof.
  revert i t. induction n as [|n IH]; intros i t; cbn [for_range].
  - intros [= <- <-]. exists []. rewrite app_nil_r. split; [reflexivity|].
    constructor.
  - unfold bind.
    destruct (epoch_body checkpoint_freq noise_vector noise_dim k i t)
      as [r1 t1] eqn:Hb.
    destruct (epoch_body_saves _ _ _ _ _ _ _ _ Hb) as (n1 & C1 & Hs1).
    assert (F1 : forall rest,
              Forall (fun e => (e mod checkpoint_freq = 0)%Z /\
                        (Z.of_nat i + 1 <= e
                         <= Z.of_nat i + Z.of_nat (Datatypes.S n))%Z /\
                        e ∈ emissions (n1 ++ rest))
                     (saves n1)).
    { intros rest. destruct Hs1 as [->|(-> & E1 & Hm)]; [constructor|].
      constructor; [|constructor].
      split; [exact Hm|]. split; [lia|].
      rewrite emissions_app, E1. apply elem_of_app. left.
      apply list_elem_of_singleton. reflexivity. }
    destruct r1 as [[]|e].
    + intros Hrest. destruct (IH _ _ Hrest) as (n2 & C2 & F2).
      exists (n1 ++ n2).
      split; [rewrite C2, C1, app_assoc; reflexivity|].
      rewrite saves_app. apply Forall_app. split; [apply F1|].
      eapply Forall_impl; [exact F2|].
      intros x (Hm & Hb' & Hin). split; [exact Hm|]. split; [lia|].
      rewrite emissions_app. apply elem_of_app. right. exact Hin.
    + intros [= <- <-]. exists n1. split; [exact C1|].
      specialize (F1 []). rewrite app_nil_r in F1. exact F1.
Qed.

(** With a batch count that does not depend on the state of the batch
    source, [n] completed epochs pull [n] times that many batches. *)
Lemma epochs_counts (checkpoint_freq : Z) (noise_vector : option Noise)
    (noise_dim k N : Z) (n i : nat) (t t' : trainer) :
  (forall s, n_batches s = N) ->
  for_range i n (epoch_body checkpoint_freq noise_vector noise_dim k) t
    = (Ok tt, t') ->
  exists new,
    calls t' = calls t ++ new /\
    pulls new = (n * Z.to_nat N)%nat /\
    train_steps new = (n * Z.to_nat N)%nat /\
    length (gen_observations new) = (n * Z.to_nat N)%nat.
Proof.
  intros HN. revert i t. induction n as [|n IH]; intros i t; cbn [for_range].
  - intros [= <-]. exists []. rewrite app_nil_r. auto.
  - unfold bind.
    destruct (epoch_body checkpoint_freq noise_vector noise_dim k i t)
      as [[[]|e] t1] eqn:Hb; [|discriminate].
    intros Hrest.
    destruct (epoch_body_ok_trace _ _ _ _ _ _ _ Hb)
      as (n1 & dir & fig & n4 & C1 & P1 & T1 & G1 & _ & _ & _ & _ & Hn4 & _).
    rewrite HN in P1, T1, G1.
    destruct (IH _ _ Hrest) as (n2 & C2 & P2 & T2 & G2).
    eexists. split; [rewrite C2, C1, <- !app_assoc; reflexivity|].
    rewrite !pulls_app, !train_steps_app, !gen_observations_app, !length_app.
    rewrite P1, T1, G1, P2, T2, G2.
    destruct Hn4 as [->|[-> _]]; destruct noise_vector as [v|]; cbn;
      repeat split; lia.
Qed.

Lemma last_cons {A : Type} (l : list A) (a d : A) :
  List.last (a :: l) d = List.last l a.
Proof.
  revert a d. induction l as [|b l IH]; intros a d; [reflexivity|].
  change (List.last (a :: b :: l) d) with (List.last (b :: l) d).
  rewrite (IH b d), (IH b a). reflexivity.
Qed.

(** Without a noise vector every completed epoch draws its noise anew,
    with shape [[16; 100]], and passes it to the generator. *)
Lemma epochs_draws (checkpoint_freq : Z) (n i : nat) (t t' : trainer) :
  for_range i n (epoch_body checkpoint_freq None 100 16) t = (Ok tt, t') ->
  noise t' = List.last (map Some (draws n (rng t))) (noise t) /\
  exists new,
    calls t' = calls t ++ new /\
    random_calls new = repeat [16; 100]%Z n /\
    generator_calls new
      = map (fun v => (false, Some v)) (draws n (rng t)).
Proof.
  revert i t. induction n as [|n IH]; intros i t; cbn [for_range].
  - intros [= <-]. split; [reflexivity|].
    exists []. rewrite app_nil_r. auto.
  - unfold bind.
    destruct (epoch_body checkpoint_freq None 100 16 i t)
      as [[[]|e] t1] eqn:Hb; [|discriminate].
    intros Hrest.
    destruct (epoch_body_ok_trace _ _ _ _ _ _ _ Hb)
      as (n1 & dir & fig & n4 & C1 & _ & _ & _ & D1 & _ & _ & GC1 & Hn4
          & R1 & N1).
    destruct (IH _ _ Hrest) as (N2 & n2 & C2 & D2 & GC2).
    cbn [draws].
    destruct (random_normal [16; 100]%Z (rng t)) as [v r'] eqn:Hd.
    cbn [fst snd] in R1, N1. rewrite R1 in N2, GC2.
    split.
    { rewrite N2, N1. cbn [map]. rewrite last_cons. reflexivity. }
    eexists. split; [rewrite C2, C1, <- !app_assoc; reflexivity|].
    rewrite !random_calls_app, !generator_calls_app, D1, D2, GC1, GC2, N1.
    destruct Hn4 as [->|[-> _]]; cbn; auto.
Qed.

End EpochFacts.

(** X19.  With a batch source whose [n_batches] is a constant [N], a run
    that returns normally has pulled exactly [epochs * N] batches, run
    one training step on each and fed the metrics once per batch (none
    at all when [N <= 0] or [epochs <= 0]). *)
Theorem train_loop_pulls `{Env} (epochs checkpoint_freq N : Z)
    (noise_vector : option Noise) (t t' : trainer) :
  (forall s, n_batches s = N) ->
  train_loop epochs checkpoint_freq noise_vector t = (Ok tt, t') ->
  exists new,
    calls t' = calls t ++ new /\
    pulls new = (Z.to_nat epochs * Z.to_nat N)%nat /\
    train_steps new = (Z.to_nat epochs * Z.to_nat N)%nat /\
    length (gen_observations new) = (Z.to_nat epochs * Z.to_nat N)%nat.
Proof.
  intros HN Hrun.
  destruct (train_loop_cases _ _ _ _ _ _ Hrun)
    as [(e & [=] & _)|(t1 & Hl & [(e & [=] & _)|(t2 & _ & -> & Hem)])].
  destruct (epochs_counts _ _ _ _ _ _ _ _ _ HN Hl) as (n1 & C1 & P1 & T1 & G1).
  cbn in C1.
  destruct (emission_trace _ _ _ _ _ Hem)
    as (_ & n2 & C2 & [[_ Hr]|(dir & fig & -> & _)]);
    [exfalso; apply Hr; reflexivity|].
  unfold reported. destruct (log_dir t2) as [ld|];
    eexists; cbn [calls with_calls]; rewrite C2, C1;
    (split; [rewrite <- !app_assoc; reflexivity|]);
    rewrite !pulls_app, !train_steps_app, !gen_observations_app, !length_app;
    rewrite P1, T1, G1; cbn; repeat split; lia.
Qed.

Lemma train_loop_pulls_witness :
  let run := @train_loop (sample_env None None) 2 5 (Some 7%nat)
               (sample_trainer None None) in
  (forall s, @n_batches (sample_env None None) s = 3%Z) /\
  run = (Ok tt, snd run) /\
  exists new,
    calls (snd run) = calls (sample_trainer None None) ++ new /\
    pulls new = (Z.to_nat 2 * Z.to_nat 3)%nat /\
    train_steps new = (Z.to_nat 2 * Z.to_nat 3)%nat.
Proof.
  intros run.
  assert (H1 : forall s, @n_batches (sample_env None None) s = 3%Z)
    by (intros s; reflexivity).
  assert (H2 : run = (Ok tt, snd run)) by (vm_compute; reflexivity).
  split; [exact H1|]. split; [exact H2|].
  destruct (@train_loop_pulls (sample_env None None) 2 5 3 (Some 7%nat)
              (sample_trainer None None) (snd run) H1 H2)
    as (new & C & P & T & _).
  exists new. split; [exact C|]. split; [exact P|exact T].
Defined.

(** X20.  However a run of [train_loop] ends, every checkpoint number it
    tried to save is a multiple of [checkpoint_freq], lies between 1 and
    [epochs], and is the tag of a sample grid the same run emitted: no
    save is attempted for an epoch whose emission did not succeed. *)
Theorem train_loop_saves_follow_emissions `{Env} (epochs checkpoint_freq : Z)
    (noise_vector : option Noise) (t : trainer) :
  exists new,
    calls (snd (train_loop epochs checkpoint_freq noise_vector t))
      = calls t ++ new /\
    Forall (fun e => (e mod checkpoint_freq = 0)%Z /\
                     (1 <= e <= epochs)%Z /\
                     e ∈ emissions new)
           (saves new).
Proof.
  destruct (train_loop epochs checkpoint_freq noise_vector t) as [r t'] eqn:Hrun.
  cbn [snd].
  assert (Hloop : forall r1 t1 rest,
            for_range 0 (Z.to_nat epochs)
              (epoch_body checkpoint_freq noise_vector 100 16)
              (initialised noise_vector t) = (r1, t1) ->
            saves rest = [] ->
            exists new, calls t1 ++ rest = calls t ++ new /\
              Forall (fun e => (e mod checkpoint_freq = 0)%Z /\
                               (1 <= e <= epochs)%Z /\
                               e ∈ emissions new) (saves new)).
  { intros r1 t1 rest Hl Hrest.
    destruct (epochs_saves _ _ _ _ _ _ _ _ _ Hl) as (n1 & C1 & F1).
    cbn in C1. exists (n1 ++ rest).
    split; [rewrite C1, app_assoc; reflexivity|].
    rewrite saves_app, Hrest, app_nil_r.
    eapply Forall_impl; [exact F1|].
    intros x (Hm & Hb & Hin). split; [exact Hm|]. split; [lia|].
    rewrite emissions_app. apply elem_of_app. left. exact Hin. }
  destruct (train_loop_cases _ _ _ _ _ _ Hrun)
    as [(e & -> & Hl)|(t1 & Hl & [(e & -> & Hem)|(t2 & -> & -> & Hem)])].
  - destruct (Hloop _ _ [] Hl eq_refl) as (new & C & F).
    rewrite app_nil_r in C. exists new. split; assumption.
  - destruct (emission_frame _ _ _ _ _ Hem) as (_ & _ & n2 & C2 & _ & S2 & _).
    destruct (Hloop _ _ n2 Hl S2) as (new & C & F).
    exists new. rewrite C2. split; assumption.
  - destruct (emission_frame _ _ _ _ _ Hem) as (_ & _ & n2 & C2 & _ & S2 & _).
    destruct (reported_frame t2) as (_ & _ & _ & _ & n3 & C3 & _ & S3 & _).
    destruct (Hloop _ _ (n2 ++ n3) Hl) as (new & C & F).
    { rewrite saves_app, S2, S3. reflexivity. }
    exists new. rewrite C3, C2, <- app_assoc. split; assumption.
Qed.

(** X21.  Without a noise vector, a run that returns normally has asked
    [tf.random.normal] for one [[16; 100]] sample per epoch and passed
    each epoch's sample to the generator; the closing emission draws
    nothing and reuses the noise of the last epoch ([None] when there
    was no epoch). *)
Theorem train_loop_fresh_noise `{Env} (epochs checkpoint_freq : Z)
    (t t' : trainer) :
  train_loop epochs checkpoint_freq None t = (Ok tt, t') ->
  exists new,
    calls t' = calls t ++ new /\
    random_calls new = repeat [16; 100]%Z (Z.to_nat epochs) /\
    generator_calls new
      = map (fun v => (false, Some v)) (draws (Z.to_nat epochs) (rng t))
        ++ [(false,
             List.last (map Some (draws (Z.to_nat epochs) (rng t))) None)].
Proof.
  intros Hrun.
  destruct (train_loop_cases _ _ _ _ _ _ Hrun)
    as [(e & [=] & _)|(t1 & Hl & [(e & [=] & _)|(t2 & _ & -> & Hem)])].
  destruct (epochs_draws _ _ _ _ _ Hl) as (N1 & n1 & C1 & D1 & GC1).
  cbn in C1, N1, D1, GC1.
  destruct (emission_trace _ _ _ _ _ Hem)
    as (_ & n2 & C2 & [[_ Hr]|(dir & fig & -> & _)]);
    [exfalso; apply Hr; reflexivity|].
  unfold reported. destruct (log_dir t2) as [ld|];
    eexists; cbn [calls with_calls]; rewrite C2, C1;
    (split; [rewrite <- !app_assoc; reflexivity|]);
    rewrite !random_calls_app, !generator_calls_app, D1, GC1, N1; cbn;
    rewrite ?app_nil_r; split; reflexivity.
Qed.

Lemma train_loop_fresh_noise_witness :
  let run := @train_loop (sample_env None None) 2 5 None
               (sample_trainer None None) in
  run = (Ok tt, snd run) /\
  exists new,
    calls (snd run) = calls (sample_trainer None None) ++ new /\
    random_calls new = [[16; 100]; [16; 100]]%Z /\
    generator_calls new
      = [(false, Some 0%nat); (false, Some 1%nat); (false, Some 1%nat)].
Proof.
  intros run.
  assert (H1 : run = (Ok tt, snd run)) by (vm_compute; reflexivity).
  split; [exact H1|].
  destruct (@train_loop_fresh_noise (sample_env None None) 2 5
              (sample_trainer None None) (snd run) H1)
    as (new & C & D & G).
  exists new. split; [exact C|]. split; [exact D|exact G].
Defined.

(** X22.  With collaborators that do not fail, a caller-supplied noise
    vector and a cadence other than 0, [train_loop] returns normally for
    every [epochs]: one history entry per epoch, one emission per epoch
    tagged 1, 2, ... in order and a closing one tagged [epochs], all
    from the supplied noise in inference mode, and a checkpoint saved
    exactly at the epochs from 1 to [epochs] that are multiples of
    [checkpoint_freq], in increasing order: the save is called for
    these numbers and no other, and the checkpoint manager is left in
    the state that these successful saves, in this order, put it in. *)
Theorem train_loop_schedule `{Env} (epochs checkpoint_freq : Z) (v : Noise)
    (t : trainer) :
  source_delivers -> train_step_succeeds -> generator_delivers (Some v) ->
  saving_succeeds -> checkpoint_freq <> 0%Z ->
  is_Some (generated_image_dir t) -> is_Some (ckpt_manager t) ->
  exists t',
    train_loop epochs checkpoint_freq (Some v) t = (Ok tt, t') /\
    length (generator_losses t') = Z.to_nat epochs /\
    (exists c c',
       ckpt_manager t = Some c /\ ckpt_manager t' = Some c' /\
       retained c (on_cadence checkpoint_freq (epoch_tags 0 (Z.to_nat epochs)))
                c') /\
    exists new,
      calls t' = calls t ++ new /\
      emissions new = epoch_tags 0 (Z.to_nat epochs) ++ [epochs] /\
      saves new = on_cadence checkpoint_freq (epoch_tags 0 (Z.to_nat epochs)) /\
      (forall e, e ∈ saves new <->
                 (1 <= e <= epochs)%Z /\ (e mod checkpoint_freq = 0)%Z) /\
      generator_calls new
        = repeat (false, Some v) (Datatypes.S (Z.to_nat epochs)).
Proof.
  intros Hsrc Hstep Hgen Hsave Hfreq Hdir Hck.
  rewrite train_loop_unfold.
  destruct (epochs_succeed checkpoint_freq v 100 16 Hsrc Hstep Hgen Hsave Hfreq
              (Z.to_nat epochs) 0%nat (initialised (Some v) t) Hdir Hck eq_refl)
    as (t1 & Hloop).
  rewrite Hloop.
  destruct (epochs_ok _ _ _ _ _ _ _ _ Hloop)
    as (A1 & _ & _ & A4 & A5 & _ & _ & new1 & C1 & E1 & S1 & GC1).
  assert (Hnoise : noise t1 = Some v) by (rewrite A4 by eauto; reflexivity).
  rewrite Hnoise.
  destruct (emission_succeeds epochs (Some v) t1 Hgen) as (t2 & Hem).
  { rewrite A1. exact Hdir. }
  rewrite Hem.
  destruct (emission_frame _ _ _ _ _ Hem)
    as ((_ & _ & _ & _ & V5 & _) & _ & new2 & C2 & _ & S2 & _ & GC2 & E2).
  destruct (reported_frame t2)
    as (R1 & _ & _ & _ & new3 & C3 & _ & S3 & E3 & GC3 & _).
  eexists. split; [reflexivity|].
  split; [rewrite R1, V5, A5; reflexivity|].
  split.
  { destruct Hck as [c Hc].
    destruct (epochs_retained _ _ _ _ _ _ _ _ c Hloop Hc) as (c' & Hc' & Hret).
    exists c, c'. split; [exact Hc|].
    split; [|exact Hret].
    rewrite reported_keeps_manager, (emission_keeps_manager _ _ _ _ _ Hem).
    exact Hc'. }
  exists (new1 ++ new2 ++ new3).
  split; [rewrite C3, C2, C1, <- !app_assoc; reflexivity|].
  rewrite !saves_app, !emissions_app, !generator_calls_app.
  rewrite S1, S2, S3, E1, E2, E3, (GC1 ltac:(eauto)), GC2, GC3, !app_nil_r.
  split; [reflexivity|]. split; [reflexivity|].
  split.
  - intros e. rewrite elem_of_on_cadence, elem_of_epoch_tags. lia.
  - cbn [noise initialised with_noise]. cbn [repeat].
    rewrite repeat_cons. reflexivity.
Qed.

Lemma train_loop_schedule_witness :
  let t := sample_trainer None None in
  @source_delivers (sample_env None None) /\
  @train_step_succeeds (sample_env None None) /\
  @generator_delivers (sample_env None None) (Some 7%nat) /\
  @saving_succeeds (sample_env None None) /\
  3%Z <> 0%Z /\
  is_Some (generated_image_dir t) /\
  is_Some (ckpt_manager t) /\
  exists t',
    @train_loop (sample_env None None) 7 3 (Some 7%nat) t = (Ok tt, t') /\
    ckpt_manager t' = Some [3; 6]%Z /\
    saves (calls t') = [3; 6]%Z /\
    emissions (calls t') = [1; 2; 3; 4; 5; 6; 7; 7]%Z.
Proof.
  intros t.
  assert (H0 : 3%Z <> 0%Z) by discriminate.
  assert (H5 : is_Some (generated_image_dir t)) by (eexists; reflexivity).
  assert (H6 : is_Some (ckpt_manager t)) by (eexists; reflexivity).
  split; [exact sample_source_delivers|].
  split; [exact sample_train_step_succeeds|].
  split; [exact (sample_generator_delivers 7)|].
  split; [exact sample_saving_succeeds|].
  split; [exact H0|]. split; [exact H5|]. split; [exact H6|].
  destruct (@train_loop_schedule (sample_env None None) 7 3 7%nat t
              sample_source_delivers sample_train_step_succeeds
              (sample_generator_delivers 7) sample_saving_succeeds H0 H5 H6)
    as (t' & Hrun & _ & (c & c' & Hc & Hc' & Hret)
        & new & Hcalls & He & Hs & _).
  exists t'. split; [exact Hrun|].
  split.
  { injection Hc as <-. rewrite Hc'.
    destruct Hret as (p1 & c1 & Hs1 & p2 & c2 & Hs2 & ->).
    injection Hs1 as <-. injection Hs2 as <-. reflexivity. }
  rewrite Hcalls. cbn [calls t sample_trainer app].
  split; [exact Hs|exact He].
Defined.

Lemma batch_step_train_step_raises `{Env} (noise_dim : Z) (i : nat)
    (t : trainer) (b : Batch) (s : Source) (e : exn) (p : Params) :
  next_batch (batch_generator t) = (Ok b, s) ->
  train_step_hook b noise_dim (params t) = (Raise e, p) ->
  batch_step noise_dim i t =
    (Raise e,
     with_params p
       (with_calls (calls t ++ [CNext; CTrainStep b noise_dim])
          (with_batch_generator s t))).
Proof.
  intros Hnext Hstep.
  unfold batch_step, next_, train_step, log, bind, modify.
  cbn [batch_generator with_calls]. rewrite Hnext.
  cbn [params with_batch_generator with_calls]. rewrite Hstep.
  unfold with_params, with_calls, with_batch_generator. cbn.
  rewrite <- app_assoc. reflexivity.
Qed.

(** X23.  If the training step raises on a batch, [train_loop] raises
    that same exception at once: the batch has been taken from the
    source, but none of the three metrics saw it, and the interrupted
    epoch leaves no history entry, no emission and no save. *)
Theorem train_step_error_propagates `{Env} (epochs checkpoint_freq : Z)
    (noise_vector : option Noise) (t t1 t2 : trainer) (k j : nat)
    (b : Batch) (s : Source) (e : exn) (p : Params) :
  (k < Z.to_nat epochs)%nat ->
  for_range 0 k (epoch_body checkpoint_freq noise_vector 100 16)
            (initialised noise_vector t) = (Ok tt, t1) ->
  (j < Z.to_nat (n_batches (batch_generator t1)))%nat ->
  for_range 0 j (batch_step 100) (metrics_reset t1) = (Ok tt, t2) ->
  next_batch (batch_generator t2) = (Ok b, s) ->
  train_step_hook b 100 (params t2) = (Raise e, p) ->
  exists t',
    train_loop epochs checkpoint_freq noise_vector t = (Raise e, t') /\
    calls t' = calls t2 ++ [CNext; CTrainStep b 100] /\
    batch_generator t' = s /\
    gen_loss t' = gen_loss t2 /\
    disc_loss t' = disc_loss t2 /\
    disc_accuracy t' = disc_accuracy t2 /\
    length (generator_losses t') = k /\
    length (discriminator_losses t') = k /\
    length (discriminator_accuracies t') = k /\
    emissions (calls t') = emissions (calls t1) /\
    saves (calls t') = saves (calls t1).
Proof.
  intros Hk Hdone Hj Hbatches Hnext Hstep.
  set (t' := with_params p
               (with_calls (calls t2 ++ [CNext; CTrainStep b 100])
                  (with_batch_generator s t2))).
  assert (Hinner :
            for_range 0 (Z.to_nat (n_batches (batch_generator t1)))
                      (batch_step 100) (metrics_reset t1) = (Raise e, t')).
  { eapply for_range_raise_at; [exact Hj|exact Hbatches|].
    apply batch_step_train_step_raises; assumption. }
  assert (Hepoch :
            epoch_body checkpoint_freq noise_vector 100 16 k t1
            = (Raise e, t')).
  { rewrite epoch_body_unfold, epoch_metrics_and_samples_unfold, Hinner.
    reflexivity. }
  assert (Hloop :
            for_range 0 (Z.to_nat epochs)
              (epoch_body checkpoint_freq noise_vector 100 16)
              (initialised noise_vector t) = (Raise e, t')).
  { eapply for_range_raise_at; [exact Hk|exact Hdone|exact Hepoch]. }
  exists t'. split; [rewrite train_loop_unfold, Hloop; reflexivity|].
  do 5 (split; [reflexivity|]).
  destruct (batch_loop_progress _ _ _ _ _ _ Hbatches)
    as ((_ & _ & _ & _ & U5 & U6 & U7) & new & C & (S1 & E1 & _) & _).
  cbn in U5, U6, U7, C.
  destruct (epochs_ok _ _ _ _ _ _ _ _ Hdone)
    as (_ & _ & _ & _ & L1 & L2 & L3 & _).
  cbn in L1, L2, L3.
  change (generator_losses t') with (generator_losses t2).
  change (discriminator_losses t') with (discriminator_losses t2).
  change (discriminator_accuracies t') with (discriminator_accuracies t2).
  change (calls t') with (calls t2 ++ [CNext; CTrainStep b 100]).
  rewrite U5, U6, U7, C, !emissions_app, !saves_app, S1, E1.
  cbn. rewrite !app_nil_r. repeat split; assumption.
Qed.

Lemma train_step_error_propagates_witness :
  let E := sample_env_step 1 in
  let t := @BaseGAN_init E 0%nat 0%nat 0%nat in
  let t1 := @initialised E (Some 7%nat) t in
  let t2 := snd (for_range 0 1 (@batch_step E 100) (metrics_reset t1)) in
  (0 < Z.to_nat 3)%nat /\
  for_range 0 0 (@epoch_body E 5 (Some 7%nat) 100 16)
            (@initialised E (Some 7%nat) t) = (Ok tt, t1) /\
  (1 < Z.to_nat (@n_batches E (batch_generator t1)))%nat /\
  for_range 0 1 (@batch_step E 100) (metrics_reset t1) = (Ok tt, t2) /\
  @next_batch E (batch_generator t2) = (Ok 1%nat, 2%nat) /\
  @train_step_hook E 1%nat 100 (params t2)
    = (Raise (Raised "ResourceExhaustedError"), 1%nat) /\
  exists t',
    @train_loop E 3 5 (Some 7%nat) t
      = (Raise (Raised "ResourceExhaustedError"), t') /\
    pulls (calls t') = 2%nat /\
    count (gen_loss t') = 1%nat /\
    length (generator_losses t') = 0%nat.
Proof.
  intros E t t1 t2.
  assert (H1 : (0 < Z.to_nat 3)%nat) by (vm_compute; lia).
  assert (H2 : for_range 0 0 (@epoch_body E 5 (Some 7%nat) 100 16)
                 (@initialised E (Some 7%nat) t) = (Ok tt, t1))
    by reflexivity.
  assert (H3 : (1 < Z.to_nat (@n_batches E (batch_generator t1)))%nat)
    by (vm_compute; lia).
  assert (H4 : for_range 0 1 (@batch_step E 100) (metrics_reset t1)
               = (Ok tt, t2)) by (vm_compute; reflexivity).
  assert (H5 : @next_batch E (batch_generator t2) = (Ok 1%nat, 2%nat))
    by (vm_compute; reflexivity).
  assert (H6 : @train_step_hook E 1%nat 100 (params t2)
               = (Raise (Raised "ResourceExhaustedError"), 1%nat))
    by (vm_compute; reflexivity).
  repeat (split; [assumption|]).
  destruct (@train_step_error_propagates E 3 5 (Some 7%nat) t t1 t2 0 1
              _ _ _ _ H1 H2 H3 H4 H5 H6)
    as (t' & Hrun & C & _ & G & _ & _ & L & _).
  exists t'. split; [exact Hrun|].
  rewrite C, G. split; [vm_compute; reflexivity|].
  split; [vm_compute; reflexivity|exact L].
Defined.

(** X24.  The epoch summary is appended before the sample emission: if
    the emission of an epoch fails (the generator raises, it returns
    more than 16 images, or no image directory is set), [train_loop]
    raises that exception with the interrupted epoch already in the
    history ([k + 1] entries per metric) but without its sample grid,
    and without the cadence check, so nothing is saved for it. *)
Theorem emission_failure_propagates `{Env} (epochs checkpoint_freq : Z)
    (noise_vector : option Noise) (t t1 t2 t4 : trainer) (k : nat)
    (e : exn) :
  (k < Z.to_nat epochs)%nat ->
  for_range 0 k (epoch_body checkpoint_freq noise_vector 100 16)
            (initialised noise_vector t) = (Ok tt, t1) ->
  for_range 0 (Z.to_nat (n_batches (batch_generator t1)))
            (batch_step 100) (metrics_reset t1) = (Ok tt, t2) ->
  generate_and_plot_images (Z.of_nat k + 1)
    (noise (noise_chosen noise_vector 100 16 (summarised t2)))
    (noise_chosen noise_vector 100 16 (summarised t2)) = (Raise e, t4) ->
  train_loop epochs checkpoint_freq noise_vector t = (Raise e, t4) /\
  length (generator_losses t4) = Datatypes.S k /\
  length (discriminator_losses t4) = Datatypes.S k /\
  length (discriminator_accuracies t4) = Datatypes.S k /\
  emissions (calls t4) = emissions (calls t1) /\
  saves (calls t4) = saves (calls t1).
Proof.
  intros Hk Hdone Hbatches Hem.
  assert (Hepoch :
            epoch_body checkpoint_freq noise_vector 100 16 k t1
            = (Raise e, t4)).
  { rewrite epoch_body_unfold, epoch_metrics_and_samples_unfold, Hbatches.
    cbv zeta. rewrite Hem. reflexivity. }
  assert (Hloop :
            for_range 0 (Z.to_nat epochs)
              (epoch_body checkpoint_freq noise_vector 100 16)
              (initialised noise_vector t) = (Raise e, t4)).
  { eapply for_range_raise_at; [exact Hk|exact Hdone|exact Hepoch]. }
  split; [rewrite train_loop_unfold, Hloop; reflexivity|].
  destruct (batch_loop_progress _ _ _ _ _ _ Hbatches)
    as ((_ & _ & _ & _ & U5 & U6 & U7) & n1 & C1 & (S1 & E1 & _) & _).
  cbn in U5, U6, U7, C1.
  destruct (noise_chosen_summarised noise_vector 100 16 t2)
    as (_ & _ & _ & _ & G & D & A & _ & n2 & C2 & (S2 & E2 & _) & _).
  destruct (emission_frame _ _ _ _ _ Hem)
    as ((_ & _ & _ & _ & V5 & V6 & V7) & _ & n3 & C3 & _ & S3 & _ & _ & E3).
  destruct (epochs_ok _ _ _ _ _ _ _ _ Hdone)
    as (_ & _ & _ & _ & L1 & L2 & L3 & _).
  cbn in L1, L2, L3.
  rewrite V5, V6, V7, G, D, A, U5, U6, U7, !length_app, L1, L2, L3.
  rewrite C3, C2, C1, !emissions_app, !saves_app, S1, S2, S3, E1, E2, E3.
  cbn. rewrite !app_nil_r. repeat split; lia.
Qed.

Lemma emission_failure_propagates_witness :
  let E := sample_env_rows in
  let t := @BaseGAN_init E 0%nat 0%nat 0%nat in
  let t1 := @initialised E (Some 17%nat) t in
  let t2 := snd (for_range 0 3 (@batch_step E 100) (metrics_reset t1)) in
  let t3 := @noise_chosen E (Some 17%nat) 100 16 (summarised t2) in
  let t4 := snd (@generate_and_plot_images E (Z.of_nat 0 + 1) (noise t3) t3) in
  (0 < Z.to_nat 2)%nat /\
  for_range 0 0 (@epoch_body E 5 (Some 17%nat) 100 16)
            (@initialised E (Some 17%nat) t) = (Ok tt, t1) /\
  for_range 0 (Z.to_nat (@n_batches E (batch_generator t1)))
            (@batch_step E 100) (metrics_reset t1) = (Ok tt, t2) /\
  @generate_and_plot_images E (Z.of_nat 0 + 1) (noise t3) t3
    = (Raise IndexError, t4) /\
  @train_loop E 2 5 (Some 17%nat) t = (Raise IndexError, t4) /\
  length (generator_losses t4) = 1%nat /\
  emissions (calls t4) = emissions (calls t1).
Proof.
  intros E t t1 t2 t3 t4.
  assert (H1 : (0 < Z.to_nat 2)%nat) by (vm_compute; lia).
  assert (H2 : for_range 0 0 (@epoch_body E 5 (Some 17%nat) 100 16)
                 (@initialised E (Some 17%nat) t) = (Ok tt, t1))
    by reflexivity.
  assert (H3 : for_range 0 (Z.to_nat (@n_batches E (batch_generator t1)))
                 (@batch_step E 100) (metrics_reset t1) = (Ok tt, t2))
    by (vm_compute; reflexivity).
  assert (H4 : @generate_and_plot_images E (Z.of_nat 0 + 1) (noise t3) t3
               = (Raise IndexError, t4)) by (vm_compute; reflexivity).
  split; [exact H1|]. split; [exact H2|]. split; [exact H3|].
  split; [exact H4|].
  destruct (@emission_failure_propagates E 2 5 (Some 17%nat) t t1 t2 t4 0
              IndexError H1 H2 H3 H4)
    as (Hrun & L & _ & _ & Em & _).
  split; [exact Hrun|]. split; [exact L|exact Em].
Defined.
